(** * Rewards service: ledger, eligibility policy engine, webhook reconciler

    A shallow embedding of the Python sources

      - [src/policy_engine/categories.py]
      - [src/policy_engine/upc_classifier.py]
      - [src/policy_engine/snap_policy_engine.py]
      - [src/ledger/transactions.py]
      - [src/stripe_integration/connect.py]
      - [src/stripe_integration/webhooks.py]
      - [src/api/routes.py]
      - [src/auth/jwt_verifier.py]

    Modelling conventions.

    - [Decimal] amounts are integers counting a fixed fraction of the
      currency unit.  The policy engine adds and multiplies them under the
      default [decimal] context, which rounds every result to 28
      significant digits ([dec_add], [dec_mul]).
    - The ledger counts hundredths: its column is [Numeric(10, 2)], so that
      the webhook's "cents / 100" is the identity on this representation.
      Ledger amounts are taken to be whole hundredths of magnitude below
      [10 ^ 10], the values the column stores as given; on them the
      context's rounding is the identity.  An amount with a finer fraction
      is rounded by the column on storage and a larger one makes the
      insert raise; neither is modelled.  The foreign key from entries to
      the users table is not modelled either: requests arrive with their
      user row present.
    - The order in which a query returns rows that tie on its [ORDER BY]
      key is the store's choice and may differ from one read to the next:
      [Ledger.returns_history] relates a query to every answer the store
      may give, [Ledger.get_transaction_history] is the answer of a store
      that yields tied rows in insertion order.
    - Python [str] is [string] and holds ASCII characters only; [str.lower]
      folds the letters A to Z.  (On full Unicode [str.lower] folds more:
      the Kelvin sign U+212A lowers to the letter k.)
    - The mutable module-level objects (the classifier's [category_cache],
      the webhook module's [processed_events]) and the database session are
      threaded explicitly: every operation takes the current value and
      returns the new one.  The two dicts live in the memory of one
      process: what is proved of a sequence of calls is proved of calls
      served by the same process, without a restart in between.
    - Raised exceptions are the [Err] branch of [result]; whatever state was
      mutated before the raise is returned with it.
    - Values chosen by the environment (the [uuid4] primary key, the
      [utcnow] timestamp, the answers of the payment gateway, the verdict of
      the signature check) are explicit arguments.
    - Item prices are finite decimal numbers and quantities integers, as
      [Decimal(str(...))] and [int(...)] read them from a request.
    - Requests arrive with the user already resolved ([get_user_from_db]);
      structured logging and the audit table have no reader in the modelled
      code and are left out.
    - Requests are served one at a time. *)

From Stdlib Require Import ZArith Lia Ascii String Sorting.Sorted.
From stdpp Require Import gmap strings list fin_maps sorting.

Open Scope string_scope.
Open Scope list_scope.
Open Scope Z_scope.

(** ** Python helpers *)

(** Truthiness of an [Optional[str]]: [None] and the empty string are falsy. *)
Definition truthy (o : option string) : bool :=
  match o with
  | Some s => negb (String.eqb s "")
  | None => false
  end.

(** The string held by a truthy optional. *)
Definition str_of (o : option string) : string := default "" o.

(** [a or b] on optional strings. *)
Definition py_or (a b : option string) : option string :=
  if truthy a then a else b.

Definition lower_ascii (a : ascii) : ascii :=
  let n := N_of_ascii a in
  if ((65 <=? n) && (n <=? 90))%N then ascii_of_N (n + 32) else a.

(** [s.lower()] on a string of ASCII characters. *)
Fixpoint lower (s : string) : string :=
  match s with
  | EmptyString => EmptyString
  | String a s' => String (lower_ascii a) (lower s')
  end.

(** [pat in s] on strings: [pat] occurs as a contiguous substring of [s]. *)
Fixpoint str_in (pat s : string) : bool :=
  String.prefix pat s ||
  match s with
  | EmptyString => false
  | String _ s' => str_in pat s'
  end.

(** Outcome of a call that may raise. *)
Inductive Error :=
  | ValueError (msg : string)
  | KeyError (key : string)
  | HTTPException (status_code : Z) (detail : string)
  | Exception (msg : string).

Inductive result (A : Type) :=
  | Ok (a : A)
  | Err (e : Error).
Arguments Ok {A} a.
Arguments Err {A} e.

(** The values of a metadata [dict], as [json.dumps] sees them. *)
Inductive JValue :=
  | JNull
  | JStr (s : string)
  | JNum (z : Z).

(** Opaque 128-bit identifiers. *)
Definition UUID := N.
Bind Scope N_scope with UUID.

(** ** [decimal.Decimal] under the default context

    The amounts of one computation are written at a common scale: the
    integer [n] stands for [n] units of the last decimal place in use.  The
    default context has precision 28 and rounds half to even: the exact
    result of [+] and [*] is cut to its 28 leading digits.  A result of at
    most 28 digits is kept as it is. *)

Definition PREC : Z := 28.

(** How many digits [a >= 0] has beyond [PREC]. *)
Fixpoint excess_digits (fuel : nat) (a : Z) : Z :=
  match fuel with
  | O => 0
  | S fuel' =>
      if a <? 10 ^ PREC then 0 else 1 + excess_digits fuel' (a / 10)
  end.

(** [a / p] rounded to the nearest integer, ties to the even one. *)
Definition round_half_even (a p : Z) : Z :=
  let q := a / p in
  let r := a mod p in
  if 2 * r <? p then q
  else if p <? 2 * r then q + 1
  else if Z.even q then q else q + 1.

(** Rounding of an exact result to the context's precision. *)
Definition round28 (n : Z) : Z :=
  let a := Z.abs n in
  let k := excess_digits (Z.to_nat (Z.log2 a)) a in
  Z.sgn n * (round_half_even a (10 ^ k) * 10 ^ k).

(** [x + y] and [x * y] on [Decimal]s. *)
Definition dec_add (x y : Z) : Z := round28 (x + y).
Definition dec_mul (x y : Z) : Z := round28 (x * y).

(** ** policy_engine/categories.py *)

Module Categories.

Definition ALLOWED_CATEGORIES : gset string :=
  list_to_set
    [ "groceries"; "food"; "fresh_produce"; "meat"; "dairy"; "bakery";
      "frozen_food"; "canned_goods"; "beverages_non_alcoholic"; "snacks";
      "cereal"; "pasta"; "rice"; "bread"; "seafood";
      "pharmacy"; "prescription"; "over_the_counter"; "vitamins";
      "health_supplements"; "medical_supplies"; "baby_formula"; "baby_food" ].

Definition DISALLOWED_CATEGORIES : gset string :=
  list_to_set
    [ "alcohol"; "beer"; "wine"; "liquor"; "tobacco"; "cigarettes"; "cigars";
      "vaping"; "smoking_products";
      "hot_food"; "prepared_food"; "deli_hot"; "hot_deli"; "restaurant";
      "fast_food";
      "non_food"; "household"; "cleaning_supplies"; "paper_products";
      "pet_food"; "cosmetics"; "toiletries_non_essential"; "clothing";
      "electronics"; "appliances" ].

(** A [dict] literal: iteration follows insertion order, so the table is an
    association list. *)
Definition UPC_PATTERNS : list (string * list string) :=
  [ ("alcohol", [ "beer"; "wine"; "liquor"; "spirits"; "alcohol" ]);
    ("tobacco", [ "cigarette"; "cigar"; "tobacco"; "smoking" ]);
    ("hot_food", [ "hot"; "prepared"; "deli_hot"; "ready_to_eat" ]) ].

End Categories.

(** ** policy_engine/upc_classifier.py *)

Module UPCClassifier.
Import Categories.

(** [any(pattern in product_lower for pattern in patterns)]: the inner
    [for] loop returns at its first hit. *)
Definition any_pattern (patterns : list string) (product_lower : string) : bool :=
  existsb (fun pattern => str_in pattern product_lower) patterns.

(** The two nested [for] loops over [UPC_PATTERNS.items()]: the key of the
    first entry one of whose patterns occurs in the lowered name. *)
Fixpoint match_patterns (table : list (string * list string))
    (product_lower : string) : option string :=
  match table with
  | [] => None
  | (disallowed_cat, patterns) :: rest =>
      if any_pattern patterns product_lower then Some disallowed_cat
      else match_patterns rest product_lower
  end.

(** [UPCClassifier.classify_item]; returns the category and the cache after
    the call. *)
Definition classify_item (category_cache : gmap string string)
    (upc sku product_name category : option string)
    : string * gmap string string :=
  if truthy category &&
     bool_decide (str_of category ∈ ALLOWED_CATEGORIES ∪ DISALLOWED_CATEGORIES)
  then (str_of category, category_cache)
  else
    let identifier := py_or upc sku in
    match (if truthy identifier then category_cache !! str_of identifier
           else None) with
    | Some cached => (cached, category_cache)
    | None =>
        match (if truthy product_name
               then match_patterns UPC_PATTERNS (lower (str_of product_name))
               else None) with
        | Some disallowed_cat =>
            (disallowed_cat,
             if truthy identifier
             then <[str_of identifier := disallowed_cat]> category_cache
             else category_cache)
        | None => ("unknown", category_cache)
        end
    end.

(** [UPCClassifier.is_eligible] *)
Definition is_eligible (category : string) : bool :=
  if bool_decide (category ∈ ALLOWED_CATEGORIES) then true
  else if bool_decide (category ∈ DISALLOWED_CATEGORIES) then false
  else false.

End UPCClassifier.

(** ** policy_engine/snap_policy_engine.py *)

Module PolicyEngine.

Inductive PolicyDecision := APPROVE | DENY | PARTIAL.

(** [PolicyDecision.value] *)
Definition value (d : PolicyDecision) : string :=
  match d with
  | APPROVE => "approve"
  | DENY => "deny"
  | PARTIAL => "partial"
  end.

(** One element of the [items] argument: a dict read with [.get], so every
    key may be missing. *)
Record ItemData := {
  d_upc : option string;
  d_sku : option string;
  d_product_name : option string;
  d_category : option string;
  d_price : option Z;
  d_quantity : option Z;
}.

Record Item := {
  upc : option string;
  sku : option string;
  product_name : option string;
  category : string;
  price : Z;
  quantity : Z;
  is_eligible : bool;
}.

(** [Item.__init__]: a truthy declared category is taken as it is, otherwise
    the classifier is asked (without the category). *)
Definition Item_init (category_cache : gmap string string)
    (upc sku product_name category : option string) (price quantity : Z)
    : Item * gmap string string :=
  let '(cat, category_cache') :=
    if truthy category then (str_of category, category_cache)
    else UPCClassifier.classify_item category_cache upc sku product_name None in
  ({| upc := upc; sku := sku; product_name := product_name; category := cat;
      price := price; quantity := quantity;
      is_eligible := UPCClassifier.is_eligible cat |},
   category_cache').

(** State of the [for item_data in items] loop. *)
Record LoopState := {
  cache : gmap string string;
  processed_items : list Item;
  approved_amount : Z;
  denied_items : list Item;
}.

Definition loop_body (st : LoopState) (item_data : ItemData) : LoopState :=
  let '(item, cache') :=
    Item_init (cache st)
      (d_upc item_data) (d_sku item_data) (d_product_name item_data)
      (d_category item_data)
      (default 0 (d_price item_data))
      (default 1 (d_quantity item_data)) in
  let processed := processed_items st ++ [item] in
  if is_eligible item
  then {| cache := cache'; processed_items := processed;
          approved_amount :=
            dec_add (approved_amount st) (dec_mul (price item) (quantity item));
          denied_items := denied_items st |}
  else {| cache := cache'; processed_items := processed;
          approved_amount := approved_amount st;
          denied_items := denied_items st ++ [item] |}.

Definition decide_decision (denied processed : list Item) : PolicyDecision :=
  if (length denied =? 0)%nat then APPROVE
  else if (length denied =? length processed)%nat then DENY
  else PARTIAL.

(** [PolicyEngine.check_transaction_eligibility]; the classifier cache after
    the call is the fourth component. *)
Definition check_transaction_eligibility (category_cache : gmap string string)
    (items : list ItemData)
    : PolicyDecision * list Item * Z * gmap string string :=
  let st := foldl loop_body
              {| cache := category_cache; processed_items := [];
                 approved_amount := 0; denied_items := [] |} items in
  (decide_decision (denied_items st) (processed_items st),
   processed_items st, approved_amount st, cache st).

(** [PolicyEngine.check_item_eligibility]: unlike [Item.__init__], the declared
    category is handed to the classifier. *)
Definition check_item_eligibility (category_cache : gmap string string)
    (upc sku product_name category : option string)
    : bool * string * gmap string string :=
  let '(category, category_cache') :=
    UPCClassifier.classify_item category_cache upc sku product_name category in
  (UPCClassifier.is_eligible category, category, category_cache').

End PolicyEngine.

(** ** db/models.py and ledger/transactions.py *)

Module Ledger.

Record Transaction := {
  transaction_id : UUID;
  user_id : UUID;
  amount : Z;
  reason : string;
  stripe_ref : option string;
  category : option string;
  metadata : option (list (string * JValue));
  created_at : Z;
}.

Record StripeAccount := {
  sa_user_id : UUID;
  stripe_account_id : string;
  is_active : bool;
}.

(** The database as seen through a session: the rows of the two tables the
    modelled code reads, in the order they were inserted. *)
Record Session := {
  transactions : list Transaction;
  stripe_accounts : list StripeAccount;
}.

Definition rows_of (db : Session) (uid : UUID) : list Transaction :=
  filter (fun t => user_id t = uid) (transactions db).

(** [SELECT sum(amount)]: NULL over no rows. *)
Definition sql_sum (amounts : list Z) : option Z :=
  match amounts with
  | [] => None
  | _ => Some (foldr Z.add 0 amounts)
  end.

(** [x or 0] on an optional decimal. *)
Definition or_zero (x : option Z) : Z :=
  match x with
  | Some r => if (r =? 0)%Z then 0 else r
  | None => 0
  end.

Definition calculate_balance_from_ledger (db : Session) (uid : UUID) : Z :=
  or_zero (sql_sum (amount <$> rows_of db uid)).

Definition get_user_balance (db : Session) (uid : UUID) : Z :=
  calculate_balance_from_ledger db uid.

(** [create_transaction]; [fresh_id] and [now] are the column defaults
    ([uuid4()], [utcnow()]) drawn at insertion.  The insert itself is that
    of a store which takes the row as given: [amt] is a whole number of
    hundredths of magnitude below [10 ^ 10], the text fields fit their
    columns and [uid] has a row in the users table.  (Outside these bounds
    the [Numeric(10, 2)] column rounds the amount to hundredths, or the
    commit raises.) *)
Definition create_transaction (db : Session) (fresh_id : UUID) (now : Z)
    (uid : UUID) (amt : Z) (rsn : string)
    (ref cat : option string) (md : list (string * JValue))
    : result (Transaction * Session) :=
  if negb (bool_decide (rsn ∈ ["earn"; "spend"; "redeem"]))
  then Err (ValueError "Invalid transaction reason")
  else if (amt =? 0)%Z
  then Err (ValueError "Transaction amount cannot be zero")
  else
    (* the JSON text is kept as the dict it encodes; an empty dict is falsy *)
    let metadata_json := match md with [] => None | _ => Some md end in
    let transaction :=
      {| transaction_id := fresh_id; user_id := uid; amount := amt;
         reason := rsn; stripe_ref := ref; category := cat;
         metadata := metadata_json; created_at := now |} in
    Ok (transaction,
        {| transactions := transactions db ++ [transaction];
           stripe_accounts := stripe_accounts db |}).

(** [ORDER BY created_at DESC] fixes the order of rows with different
    timestamps only.  [ordered] is an answer the store may give for [rows]:
    the same rows, creation times never increasing. *)
Definition orders_by_created_at_desc (rows ordered : list Transaction)
    : Prop :=
  ordered ≡ₚ rows ∧
  StronglySorted (fun a b => created_at b <= created_at a) ordered.

(** The answers the store may give to the query of [get_transaction_history]:
    [LIMIT limit OFFSET offset] over some admissible ordering of the user's
    rows. *)
Definition returns_history (db : Session) (uid : UUID) (limit offset : nat)
    (page : list Transaction) : Prop :=
  ∃ ordered,
    orders_by_created_at_desc (rows_of db uid) ordered ∧
    page = take limit (drop offset ordered).

(** One such answer, computed: a stable insertion sort, which leaves rows
    with equal timestamps in the order the table yields them. *)
Fixpoint insert_desc (t : Transaction) (sorted : list Transaction)
    : list Transaction :=
  match sorted with
  | [] => [t]
  | t' :: rest =>
      if created_at t' <=? created_at t then t :: t' :: rest
      else t' :: insert_desc t rest
  end.

Definition order_by_created_at_desc (rows : list Transaction)
    : list Transaction :=
  foldr insert_desc [] rows.

(** [get_transaction_history] on a store that answers with the ordering
    above. *)
Definition get_transaction_history (db : Session) (uid : UUID)
    (limit offset : nat) : list Transaction :=
  take limit (drop offset (order_by_created_at_desc (rows_of db uid))).

(** [get_transaction_by_id]: [.first()] of the rows with that primary key. *)
Definition get_transaction_by_id (db : Session) (id : UUID)
    : option Transaction :=
  head (filter (fun t => transaction_id t = id) (transactions db)).

End Ledger.

(** ** stripe_integration/connect.py *)

Module Connect.
Import Ledger.

(** What the payment gateway answers during one request: the id of a newly
    created connected account and the id of a newly created payment intent;
    [None] stands for a [StripeError]. *)
Record Gateway := {
  account_create : option string;
  payment_intent_create : option string;
}.

Definition get_stripe_account (db : Session) (uid : UUID)
    : option StripeAccount :=
  head (filter (fun a => sa_user_id a = uid ∧ is_active a = true)
          (stripe_accounts db)).

(** [create_stripe_account] with the default account type. *)
Definition create_stripe_account (db : Session) (gw : Gateway) (uid : UUID)
    : result StripeAccount * Session :=
  match head (filter (fun a => sa_user_id a = uid) (stripe_accounts db)) with
  | Some existing => (Ok existing, db)
  | None =>
      match account_create gw with
      | None => (Err (Exception "Failed to create Stripe account"), db)
      | Some account_id =>
          let stripe_account :=
            {| sa_user_id := uid; stripe_account_id := account_id;
               is_active := true |} in
          (Ok stripe_account,
           {| transactions := transactions db;
              stripe_accounts := stripe_accounts db ++ [stripe_account] |})
      end
  end.

(** [authorize_transaction]: [(True, id)], [(False, None)], or a raise. *)
Definition authorize_transaction (db : Session) (gw : Gateway) (uid : UUID)
    (amt : Z) : result (bool * option string) :=
  if amt <=? 0 then Err (ValueError "Amount must be positive")
  else match get_stripe_account db uid with
       | None => Err (ValueError "No Stripe account found for user")
       | Some _ =>
           match payment_intent_create gw with
           | Some payment_intent_id => Ok (true, Some payment_intent_id)
           | None => Ok (false, None)
           end
       end.

(** [update_stripe_balance]; [transfer_create] is what
    [stripe.Transfer.create] answers ([None] for a [StripeError]). *)
Definition update_stripe_balance (db : Session)
    (transfer_create : option string) (uid : UUID) (amt : Z) : result string :=
  if amt <=? 0 then Err (ValueError "Amount must be positive")
  else match get_stripe_account db uid with
       | None => Err (ValueError "No Stripe account found for user")
       | Some _ =>
           match transfer_create with
           | Some transfer_id => Ok transfer_id
           | None => Err (Exception "Failed to update Stripe balance")
           end
       end.

End Connect.

(** ** stripe_integration/webhooks.py *)

Module Webhooks.
Import Ledger.

(** [metadata.get("user_id")] of a payment intent, and what [UUID(...)]
    makes of it. *)
Inductive MetaUserId :=
  | NoUserId
  | MalformedUserId
  | UserId (u : UUID).

(** [event["data"]["object"]], with the keys the handlers read. *)
Record StripeObject := {
  obj_id : option string;
  obj_user_id : MetaUserId;
  obj_amount : option Z;
  obj_destination : option string;
}.

(** A delivery: the event carried by the payload and whether
    [stripe.Webhook.construct_event] accepts its signature. *)
Record Delivery := {
  signature_valid : bool;
  event_id : string;
  event_type : string;
  data_object : StripeObject;
}.

Record Response := {
  status : string;
  resp_event_id : string;
}.

Definition _handle_payment_succeeded (db : Session) (fresh_id : UUID)
    (now : Z) (payment_intent : StripeObject) : result Session :=
  match obj_user_id payment_intent with
  | NoUserId => Ok db
  | uid_field =>
      match obj_amount payment_intent with
      | None => Err (KeyError "amount")
      | Some amt =>
          match uid_field with
          | UserId uid =>
              match obj_id payment_intent with
              | None => Err (KeyError "id")
              | Some pi_id =>
                  match create_transaction db fresh_id now uid (- amt) "spend"
                          (Some pi_id) None
                          [("event_type", JStr "payment_intent.succeeded")] with
                  | Ok (_, db') => Ok db'
                  | Err e => Err e
                  end
              end
          | _ => Err (ValueError "badly formed hexadecimal UUID string")
          end
      end
  end.

Definition _handle_payment_failed (db : Session) (payment_intent : StripeObject)
    : result Session := Ok db.

Definition _handle_transfer_created (db : Session) (fresh_id : UUID) (now : Z)
    (transfer : StripeObject) : result Session :=
  let stripe_account :=
    match obj_destination transfer with
    | Some destination =>
        head (filter (fun a => stripe_account_id a = destination)
                (stripe_accounts db))
    | None => None
    end in
  match stripe_account with
  | None => Ok db
  | Some acct =>
      match obj_amount transfer with
      | None => Err (KeyError "amount")
      | Some amt =>
          match obj_id transfer with
          | None => Err (KeyError "id")
          | Some tr_id =>
              match create_transaction db fresh_id now (sa_user_id acct) amt
                      "earn" (Some tr_id) None
                      [("event_type", JStr "transfer.created")] with
              | Ok (_, db') => Ok db'
              | Err e => Err e
              end
          end
      end
  end.

Definition _handle_account_updated (db : Session) (account : StripeObject)
    : result Session := Ok db.

(** The [if]/[elif] chain on [event_type]. *)
Definition dispatch (db : Session) (fresh_id : UUID) (now : Z) (d : Delivery)
    : result Session :=
  if String.eqb (event_type d) "payment_intent.succeeded"
  then _handle_payment_succeeded db fresh_id now (data_object d)
  else if String.eqb (event_type d) "payment_intent.payment_failed"
  then _handle_payment_failed db (data_object d)
  else if String.eqb (event_type d) "transfer.created"
  then _handle_transfer_created db fresh_id now (data_object d)
  else if String.eqb (event_type d) "account.updated"
  then _handle_account_updated db (data_object d)
  else Ok db.

(** [handle_stripe_webhook]; returns the response or the exception, the
    database and the module-level [processed_events] after the call. *)
Definition handle_stripe_webhook (WEBHOOK_SECRET : string) (db : Session)
    (processed_events : gmap string bool) (fresh_id : UUID) (now : Z)
    (d : Delivery)
    : result Response * Session * gmap string bool :=
  if String.eqb WEBHOOK_SECRET ""
  then (Err (ValueError "Stripe webhook secret not configured"),
        db, processed_events)
  else if negb (signature_valid d)
  then (Err (ValueError "Invalid webhook signature"), db, processed_events)
  else if bool_decide (event_id d ∈ dom processed_events)
  then (Ok {| status := "already_processed"; resp_event_id := event_id d |},
        db, processed_events)
  else
    match dispatch db fresh_id now d with
    | Err e => (Err e, db, processed_events)
    | Ok db' =>
        (Ok {| status := "success"; resp_event_id := event_id d |},
         db', <[event_id d := true]> processed_events)
    end.

End Webhooks.

(** ** api/routes.py *)

Module Routes.
Import Ledger PolicyEngine Connect Webhooks.

(** Everything a request handler can read or write: the database and the
    two module-level dictionaries. *)
Record App := {
  db : Session;
  category_cache : gmap string string;
  processed_events : gmap string bool;
}.

Definition with_db (app : App) (db' : Session) : App :=
  {| db := db'; category_cache := category_cache app;
     processed_events := processed_events app |}.

Definition with_cache (app : App) (c : gmap string string) : App :=
  {| db := db app; category_cache := c;
     processed_events := processed_events app |}.

(** Body of [POST /earn] and [POST /redeem] ([ledger/models.py]). *)
Record TransactionCreate := {
  tc_amount : Z;
  tc_reason : string;
  tc_stripe_ref : option string;
  tc_category : option string;
  tc_metadata : list (string * JValue);
}.

Record SpendResponse := {
  r_transaction_id : UUID;
  r_status : string;
  r_amount : Z;
  r_payment_intent_id : option string;
  r_decision : string;
  r_approved_amount : Z;
}.

Definition earn_rewards (app : App) (uid : UUID) (fresh_id : UUID) (now : Z)
    (transaction : TransactionCreate) : result Transaction * App :=
  if negb (String.eqb (tc_reason transaction) "earn")
  then (Err (HTTPException 400 "Use /earn endpoint only for earning rewards"),
        app)
  else if tc_amount transaction <=? 0
  then (Err (HTTPException 400 "Amount must be positive for earning"), app)
  else
    match create_transaction (db app) fresh_id now uid (tc_amount transaction)
            "earn" (tc_stripe_ref transaction) (tc_category transaction)
            (tc_metadata transaction) with
    | Ok (txn, db') => (Ok txn, with_db app db')
    | Err e => (Err e, app)
    end.

Definition redeem_rewards (app : App) (uid : UUID) (fresh_id : UUID) (now : Z)
    (transaction : TransactionCreate) : result Transaction * App :=
  if negb (String.eqb (tc_reason transaction) "redeem")
  then (Err (HTTPException 400 "Use /redeem endpoint only for redemption"),
        app)
  else if tc_amount transaction <=? 0
  then (Err (HTTPException 400 "Amount must be positive"), app)
  else
    let balance := get_user_balance (db app) uid in
    if balance <? tc_amount transaction
    then (Err (HTTPException 400 "Insufficient balance"), app)
    else
      match create_transaction (db app) fresh_id now uid
              (- tc_amount transaction) "redeem" (tc_stripe_ref transaction)
              (tc_category transaction) (tc_metadata transaction) with
      | Ok (txn, db') => (Ok txn, with_db app db')
      | Err e => (Err e, app)
      end.

(** The [DENY] and [PARTIAL] branches of [spend_rewards]: the amount to
    charge, or the 403. *)
Definition policy_gate (decision : PolicyDecision)
    (approved_amount amount : Z) : result Z :=
  match decision with
  | DENY =>
      Err (HTTPException 403
             "Transaction denied: All items are ineligible for SNAP-like redemption")
  | PARTIAL =>
      if approved_amount <? amount
      then Err (HTTPException 403 "Transaction partially denied")
      else Ok approved_amount
  | APPROVE => Ok amount
  end.

Definition spend_rewards (app : App) (uid : UUID) (gw : Gateway)
    (fresh_id : UUID) (now : Z)
    (items : list ItemData) (amount : Z) (merchant_id : option string)
    : result SpendResponse * App :=
  if amount <=? 0
  then (Err (HTTPException 400 "Amount must be positive"), app)
  else if bool_decide (items = [])
  then (Err (HTTPException 400 "Items list cannot be empty"), app)
  else
    let balance := get_user_balance (db app) uid in
    if balance <? amount
    then (Err (HTTPException 400 "Insufficient balance"), app)
    else
      let '(decision, processed_items, approved_amount, cache') :=
        check_transaction_eligibility (category_cache app) items in
      let app := with_cache app cache' in
      match policy_gate decision approved_amount amount with
      | Err e => (Err e, app)
      | Ok amount =>
          let '(created, db1) :=
            match get_stripe_account (db app) uid with
            | Some acct => (Ok acct, db app)
            | None => create_stripe_account (db app) gw uid
            end in
          let app := with_db app db1 in
          match created with
          | Err e => (Err e, app)
          | Ok _ =>
              match authorize_transaction (db app) gw uid amount with
              | Err e => (Err e, app)
              | Ok (false, _) =>
                  (Err (HTTPException 500
                          "Failed to authorize transaction with Stripe"), app)
              | Ok (true, payment_intent_id) =>
                  match create_transaction (db app) fresh_id now uid
                          (- amount) "spend" payment_intent_id (Some "mixed")
                          [("merchant_id", from_option JStr JNull merchant_id);
                           ("item_count", JNum (Z.of_nat (length items)));
                           ("decision", JStr (value decision));
                           ("approved_amount", JNum approved_amount)] with
                  | Err e => (Err e, app)
                  | Ok (txn, db2) =>
                      (Ok {| r_transaction_id := transaction_id txn;
                             r_status := "approved";
                             r_amount := amount;
                             r_payment_intent_id := payment_intent_id;
                             r_decision := value decision;
                             r_approved_amount := approved_amount |},
                       with_db app db2)
                  end
              end
          end
      end.

(** [POST /webhooks/stripe] *)
Definition stripe_webhook (WEBHOOK_SECRET : string) (app : App)
    (fresh_id : UUID) (now : Z) (stripe_signature : bool) (d : Delivery)
    : result Response * App :=
  if negb stripe_signature
  then (Err (HTTPException 400 "Missing Stripe signature header"), app)
  else
    let '(r, db', pe') :=
      handle_stripe_webhook WEBHOOK_SECRET (db app) (processed_events app)
        fresh_id now d in
    let app' := {| db := db'; category_cache := category_cache app;
                   processed_events := pe' |} in
    match r with
    | Ok resp => (Ok resp, app')
    | Err (ValueError msg) => (Err (HTTPException 400 msg), app')
    | Err _ => (Err (HTTPException 500 "Webhook processing failed"), app')
    end.

(** ** The service as a transition system *)

(** One request, with the values the environment supplies while it is
    served. *)
Inductive Request :=
  | Earn (uid fresh_id : UUID) (now : Z) (body : TransactionCreate)
  | Spend (uid : UUID) (gw : Gateway) (fresh_id : UUID) (now : Z)
      (items : list ItemData) (amount : Z) (merchant_id : option string)
  | Redeem (uid fresh_id : UUID) (now : Z) (body : TransactionCreate)
  | WebhookDelivery (fresh_id : UUID) (now : Z) (d : Delivery).

Definition serve (WEBHOOK_SECRET : string) (app : App) (r : Request) : App :=
  match r with
  | Earn uid fresh_id now body => snd (earn_rewards app uid fresh_id now body)
  | Spend uid gw fresh_id now items amount merchant_id =>
      snd (spend_rewards app uid gw fresh_id now items amount merchant_id)
  | Redeem uid fresh_id now body =>
      snd (redeem_rewards app uid fresh_id now body)
  | WebhookDelivery fresh_id now d =>
      snd (stripe_webhook WEBHOOK_SECRET app fresh_id now true d)
  end.

(** The state a fresh process starts in: empty tables, empty
    dictionaries. *)
Definition initial : App :=
  {| db := {| transactions := []; stripe_accounts := [] |};
     category_cache := ∅; processed_events := ∅ |}.

Definition run (WEBHOOK_SECRET : string) (requests : list Request) : App :=
  foldl (serve WEBHOOK_SECRET) initial requests.

End Routes.

(** ** auth/jwt_verifier.py *)

Module JwtVerifier.

(** What can leave the [try] block of [verify_jwt]. *)
Inductive Raised :=
  | ExpiredSignatureError
  | InvalidTokenError
  | HTTP (status_code : Z) (detail : string)
  | OtherException.

(** What [jwt.decode] does with a token under the configured key: the
    decoded claims, or the exception it raises. *)
Inductive Decode :=
  | Claims (payload : gmap string JValue)
  | DecodeRaises (e : Raised).

(** The body of the [try]. *)
Definition try_body (decode : Decode) : gmap string JValue + Raised :=
  match decode with
  | DecodeRaises e => inr e
  | Claims payload =>
      if bool_decide ("user_id" ∈ dom payload) then inl payload
      else inr (HTTP 401 "Token missing required claim: user_id")
  end.

(** The [except] clauses, in order; [HTTPException] is an [Exception]. *)
Definition except (e : Raised) : Error :=
  match e with
  | ExpiredSignatureError => HTTPException 401 "Token has expired"
  | InvalidTokenError => HTTPException 401 "Invalid token"
  | HTTP _ _ | OtherException => HTTPException 500 "Token verification failed"
  end.

Definition verify_jwt (JWT_PUBLIC_KEY : string) (decode : Decode)
    : result (gmap string JValue) :=
  if String.eqb JWT_PUBLIC_KEY ""
  then Err (HTTPException 500 "JWT verification not configured")
  else match try_body decode with
       | inl payload => Ok payload
       | inr e => Err (except e)
       end.

End JwtVerifier.

(** ** api/routes.py: user resolution and the read endpoints *)

Module Accounts.
Import Ledger Routes.

(** A row of [users]; [external_core_id] holds [str(uuid)], kept as the
    identifier it prints. *)
Record User := {
  u_user_id : UUID;
  external_core_id : UUID;
}.

(** [get_user_from_db]: get or create; [fresh_id] is the [uuid4()] default of
    the primary key, used only when a row is created. *)
Definition get_user_from_db (users : list User) (fresh_id : UUID)
    (principal : UUID) : User * list User :=
  match head (filter (fun u => external_core_id u = principal) users) with
  | Some user => (user, users)
  | None =>
      let user := {| u_user_id := fresh_id; external_core_id := principal |} in
      (user, users ++ [user])
  end.

Record BalanceResponse := {
  b_user_id : UUID;
  b_balance : Z;
  b_currency : string;
}.

Record TransactionHistoryResponse := {
  h_transactions : list Transaction;
  h_total : nat;
  h_limit : nat;
  h_offset : nat;
}.

(** [GET /balance] *)
Definition get_balance (users : list User) (app : App) (fresh_id : UUID)
    (principal : UUID) : BalanceResponse * list User :=
  let '(user, users') := get_user_from_db users fresh_id principal in
  ({| b_user_id := u_user_id user;
      b_balance := get_user_balance (db app) (u_user_id user);
      b_currency := "USD" |}, users').

(** [GET /transactions] *)
Definition get_transactions (users : list User) (app : App) (fresh_id : UUID)
    (principal : UUID) (limit offset : nat)
    : TransactionHistoryResponse * list User :=
  let '(user, users') := get_user_from_db users fresh_id principal in
  let transactions :=
    get_transaction_history (db app) (u_user_id user) limit offset in
  ({| h_transactions := transactions; h_total := length transactions;
      h_limit := limit; h_offset := offset |}, users').

End Accounts.

(** * Vocabulary of the properties *)

Import Categories PolicyEngine Ledger Connect Webhooks Routes.

(** A declared category inside the closed vocabulary. *)
Definition declared_valid (category : option string) : Prop :=
  ∃ c, category = Some c ∧ c ∈ ALLOWED_CATEGORIES ∪ DISALLOWED_CATEGORIES.

(** Some keyword filed under [cat] in the pattern table occurs in [s]. *)
Definition keyword_hit (cat s : string) : bool :=
  match list_find (fun kv => fst kv = cat) UPC_PATTERNS with
  | Some (_, (_, patterns)) => existsb (fun p => str_in p s) patterns
  | None => false
  end.

(** The priority order of the claim: alcohol, then tobacco, then hot food. *)
Definition keyword_category (s : string) : option string :=
  if keyword_hit "alcohol" s then Some "alcohol"
  else if keyword_hit "tobacco" s then Some "tobacco"
  else if keyword_hit "hot_food" s then Some "hot_food"
  else None.

(** Keys of the pattern table, in table order. *)
Definition pattern_keys : list string := fst <$> UPC_PATTERNS.

(** Every cached value is a key of the pattern table. *)
Definition cache_ok (cache : gmap string string) : Prop :=
  ∀ i v, cache !! i = Some v → v ∈ pattern_keys.

(** One call of [classify_item]: its four arguments. *)
Definition Call : Type :=
  option string * option string * option string * option string.

Definition call (cache : gmap string string) (c : Call)
    : string * gmap string string :=
  let '(upc, sku, product_name, category) := c in
  UPCClassifier.classify_item cache upc sku product_name category.

(** The cache of a classifier instance after a history of calls. *)
Definition cache_after (calls : list Call) : gmap string string :=
  foldl (fun cache c => snd (call cache c)) ∅ calls.

(** [later] agrees with [earlier] wherever [earlier] has an entry, and adds
    only pattern keys. *)
Definition cache_ext (earlier later : gmap string string) : Prop :=
  ∀ i, later !! i = earlier !! i ∨
       (earlier !! i = None ∧ ∃ v, later !! i = Some v ∧ v ∈ pattern_keys).

(** The item built from one input dict under a given cache. *)
Definition build_item (cache : gmap string string) (d : ItemData)
    : Item * gmap string string :=
  Item_init cache (d_upc d) (d_sku d) (d_product_name d) (d_category d)
    (default 0 (d_price d)) (default 1 (d_quantity d)).

(** Verdict on one input dict under a given cache. *)
Definition eligible_under (cache : gmap string string) (d : ItemData) : bool :=
  is_eligible (fst (build_item cache d)).

(** Value of one input dict. *)
Definition line_total (d : ItemData) : Z :=
  default 0 (d_price d) * default 1 (d_quantity d).

Definition Zsum (l : list Z) : Z := foldr Z.add 0 l.

(** Sum of price × quantity over the items flagged eligible. *)
Definition eligible_total (breakdown : list Item) : Z :=
  Zsum ((fun it => price it * quantity it)
          <$> filter (fun it => is_eligible it = true) breakdown).

(** The approved amount as the loop builds it: starting from [acc], the
    product of each item flagged eligible is added in list order, product
    and running total each rounded to the context's precision. *)
Definition accumulate (acc : Z) (breakdown : list Item) : Z :=
  foldl (fun acc it => dec_add acc (dec_mul (price it) (quantity it))) acc
    (filter (fun it => is_eligible it = true) breakdown).

Definition accumulated_total (breakdown : list Item) : Z :=
  accumulate 0 breakdown.

(** A basket the context's precision holds exactly: the absolute values of
    its items sum to less than [10 ^ PREC], so that no product and no
    running total has more than [PREC] digits. *)
Definition within_precision (items : list ItemData) : Prop :=
  Zsum ((fun d => Z.abs (line_total d)) <$> items) < 10 ^ PREC.

(** The items flagged ineligible. *)
Definition denied_of (breakdown : list Item) : list Item :=
  filter (fun it => is_eligible it = false) breakdown.

(** [it] is the processed form of the input dict [d], judged as under the
    cache [c]. *)
Definition processed_from (c : gmap string string) (d : ItemData) (it : Item)
    : Prop :=
  upc it = d_upc d ∧ sku it = d_sku d ∧ product_name it = d_product_name d ∧
  price it = default 0 (d_price d) ∧ quantity it = default 1 (d_quantity d) ∧
  is_eligible it = UPCClassifier.is_eligible (PolicyEngine.category it) ∧
  is_eligible it = eligible_under c d.

(** Approved amount and number of denied items as functions of the input
    list and the cache the evaluation starts from. *)
Definition static_total (c : gmap string string) (items : list ItemData) : Z :=
  Zsum ((fun d => if eligible_under c d then line_total d else 0) <$> items).

Definition static_denied (c : gmap string string) (items : list ItemData) : nat :=
  length (filter (fun d => eligible_under c d = false) items).

Definition undeclared (upc name : string) (price : Z) : ItemData :=
  {| d_upc := Some upc; d_sku := None; d_product_name := Some name;
     d_category := None; d_price := Some price; d_quantity := None |}.

Definition declared (cat : string) (price : Z) : ItemData :=
  {| d_upc := None; d_sku := None; d_product_name := None;
     d_category := Some cat; d_price := Some price; d_quantity := Some 1 |}.

(** Newest first: creation times never increase along the list. *)
Definition newest_first (l : list Transaction) : Prop :=
  StronglySorted (fun a b => created_at b <= created_at a) l.

(** Orderings with a tie-break on the entry identifier: creation time
    descending, then identifier ascending (resp. descending). *)
Definition before_id_asc (a b : Transaction) : Prop :=
  created_at b < created_at a ∨
  (created_at a = created_at b ∧ (transaction_id a < transaction_id b)%N).

Definition before_id_desc (a b : Transaction) : Prop :=
  created_at b < created_at a ∨
  (created_at a = created_at b ∧ (transaction_id b < transaction_id a)%N).

Definition earned (id uid : UUID) (amt now : Z) : Transaction :=
  {| transaction_id := id; user_id := uid; amount := amt; reason := "earn";
     stripe_ref := None; category := None; metadata := None;
     created_at := now |}.

(** Three entries of account 7 written within one clock tick, with the
    identifiers 2, 1, 3 in insertion order. *)
Definition colliding_db : Session :=
  {| transactions := [earned 2 7 100 50; earned 1 7 200 50; earned 3 7 300 50];
     stripe_accounts := [] |}.

(** Two entries of account 7 and one of account 8, the entries of each
    account written at different times. *)
Definition spaced_db : Session :=
  {| transactions := [earned 1 7 100 10; earned 2 7 200 20; earned 3 8 50 20];
     stripe_accounts := [] |}.

(** The entries of the account were written at pairwise different times. *)
Definition distinct_times (db : Session) (uid : UUID) : Prop :=
  NoDup (created_at <$> rows_of db uid).

Definition valid_reason (rsn : string) : Prop :=
  rsn ∈ ["earn"; "spend"; "redeem"].

(** The row [create_transaction] builds from its arguments. *)
Definition new_row (fresh_id : UUID) (now : Z) (uid : UUID) (amt : Z)
    (rsn : string) (ref cat : option string) (md : list (string * JValue))
    : Transaction :=
  {| transaction_id := fresh_id; user_id := uid; amount := amt;
     reason := rsn; stripe_ref := ref; category := cat;
     metadata := match md with [] => None | _ => Some md end;
     created_at := now |}.

Definition append_row (db : Session) (t : Transaction) : Session :=
  {| transactions := transactions db ++ [t];
     stripe_accounts := stripe_accounts db |}.

(** The tail of [spend_rewards] after the policy gate has fixed the amount to
    charge: account lookup or creation, authorization, ledger write. *)
Definition charge (app : App) (uid : UUID) (gw : Gateway) (fresh_id : UUID)
    (now : Z) (items : list ItemData) (charged : Z)
    (merchant_id : option string) (decision : PolicyDecision) (approved : Z)
    : result SpendResponse * App :=
  let '(created, db1) :=
    match get_stripe_account (db app) uid with
    | Some acct => (Ok acct, db app)
    | None => create_stripe_account (db app) gw uid
    end in
  let app := with_db app db1 in
  match created with
  | Err e => (Err e, app)
  | Ok _ =>
      match authorize_transaction (db app) gw uid charged with
      | Err e => (Err e, app)
      | Ok (false, _) =>
          (Err (HTTPException 500
                  "Failed to authorize transaction with Stripe"), app)
      | Ok (true, payment_intent_id) =>
          match create_transaction (db app) fresh_id now uid (- charged)
                  "spend" payment_intent_id (Some "mixed")
                  [("merchant_id", from_option JStr JNull merchant_id);
                   ("item_count", JNum (Z.of_nat (length items)));
                   ("decision", JStr (value decision));
                   ("approved_amount", JNum approved)] with
          | Err e => (Err e, app)
          | Ok (txn, db2) =>
              (Ok {| r_transaction_id := transaction_id txn;
                     r_status := "approved";
                     r_amount := charged;
                     r_payment_intent_id := payment_intent_id;
                     r_decision := value decision;
                     r_approved_amount := approved |},
               with_db app db2)
          end
      end
  end.

(** A funded account with an active connected account, a gateway that
    authorizes, and a mixed basket. *)
Definition funded_app : App :=
  {| db := {| transactions := [earned 1 7 1000 10];
              stripe_accounts :=
                [{| sa_user_id := 7; stripe_account_id := "acct_1";
                    is_active := true |}] |};
     category_cache := ∅; processed_events := ∅ |}.

Definition authorizing : Gateway :=
  {| account_create := None; payment_intent_create := Some "pi_1" |}.


Definition empty_db : Session :=
  {| transactions := []; stripe_accounts := [] |}.

(** A settlement notification for user 7: 5.00 settled. *)
Definition settlement (id : string) : Delivery :=
  {| signature_valid := true; event_id := id;
     event_type := "payment_intent.succeeded";
     data_object := {| obj_id := Some "pi_9"; obj_user_id := UserId 7;
                       obj_amount := Some 500; obj_destination := None |} |}.

(** The same delivery submitted once per element of [envs] (the primary key
    and the clock value the ledger would use for that submission), one after
    the other: the reported outcomes in order, and the final state. *)
Fixpoint redeliver (WEBHOOK_SECRET : string) (db0 : Session)
    (seen : gmap string bool) (d : Delivery) (envs : list (UUID * Z))
    : list (result Response) * Session * gmap string bool :=
  match envs with
  | [] => ([], db0, seen)
  | (fresh_id, now) :: rest =>
      let '(r, db1, seen1) :=
        handle_stripe_webhook WEBHOOK_SECRET db0 seen fresh_id now d in
      let '(rs, db2, seen2) := redeliver WEBHOOK_SECRET db1 seen1 d rest in
      (r :: rs, db2, seen2)
  end.

(** A non-zero amount the ledger's [Numeric(10, 2)] column stores as given:
    whole hundredths (as all amounts here) of magnitude below [10 ^ 10]. *)
Definition storable (amt : Z) : Prop := amt ≠ 0 ∧ Z.abs amt < 10 ^ 10.

(** The account row the transfer handler's query finds for a destination. *)
Definition account_of (db : Session) (destination : string)
    : option StripeAccount :=
  head (filter (fun a => stripe_account_id a = destination)
          (stripe_accounts db)).

(** Event types whose handler writes to the ledger. *)
Definition ledger_event_types : list string :=
  ["payment_intent.succeeded"; "transfer.created"].

Definition success (d : Delivery) : result Response :=
  Ok {| status := "success"; resp_event_id := event_id d |}.

Definition already_processed (d : Delivery) : result Response :=
  Ok {| status := "already_processed"; resp_event_id := event_id d |}.

(** An entry as [create_transaction] lets it in: recognised reason,
    non-zero amount. *)
Definition well_formed (t : Transaction) : Prop :=
  amount t ≠ 0 ∧ valid_reason (reason t).

(** The values of a request body fit the columns of the entries table as
    given: the amount is storable or zero, the reference has at most 255
    characters and the category at most 100. *)
Definition fits_columns (b : TransactionCreate) : Prop :=
  Z.abs (tc_amount b) < 10 ^ 10 ∧
  (String.length (str_of (tc_stripe_ref b)) ≤ 255)%nat ∧
  (String.length (str_of (tc_category b)) ≤ 100)%nat.

(** Requests served by the earn and redeem routes. *)
Definition earn_or_redeem (r : Request) : Prop :=
  match r with
  | Earn _ _ _ _ | Redeem _ _ _ _ => True
  | _ => False
  end.

(** A request body with only the mandatory fields. *)
Definition body (amt : Z) (rsn : string) : TransactionCreate :=
  {| tc_amount := amt; tc_reason := rsn; tc_stripe_ref := None;
     tc_category := None; tc_metadata := [] |}.

(** The cache of a classifier that starts from [cache] and serves [calls]. *)
Definition cache_from (cache : gmap string string) (calls : list Call)
    : gmap string string :=
  foldl (fun c x => snd (call c x)) cache calls.

(** The input dict declares a category of the allow-set. *)
Definition declared_allowed (d : ItemData) : Prop :=
  ∃ c, d_category d = Some c ∧ c ∈ ALLOWED_CATEGORIES.

(** * Properties *)

(** ** The classifier *)

Lemma allowed_disallowed_disjoint :
  ALLOWED_CATEGORIES ## DISALLOWED_CATEGORIES.
Proof. apply (bool_decide_unpack _). vm_compute. exact I. Qed.

Lemma is_eligible_allowed (c : string) :
  UPCClassifier.is_eligible c = bool_decide (c ∈ ALLOWED_CATEGORIES).
Proof.
  unfold UPCClassifier.is_eligible.
  destruct (bool_decide (c ∈ ALLOWED_CATEGORIES)); [reflexivity|].
  destruct (bool_decide (c ∈ DISALLOWED_CATEGORIES)); reflexivity.
Qed.

(** C7. [is_eligible] answers true exactly on the allow-set; it answers false
    on every member of the deny-set, on every value outside the allow-set,
    and in particular on the sentinel ["unknown"]. *)
Theorem is_eligible_default_deny :
  (∀ category, UPCClassifier.is_eligible category = true
               ↔ category ∈ ALLOWED_CATEGORIES) ∧
  (∀ category, category ∈ DISALLOWED_CATEGORIES →
               UPCClassifier.is_eligible category = false) ∧
  (∀ category, category ∉ ALLOWED_CATEGORIES →
               UPCClassifier.is_eligible category = false) ∧
  UPCClassifier.is_eligible "unknown" = false.
Proof.
  assert (Hout : ∀ c, c ∉ ALLOWED_CATEGORIES →
                      UPCClassifier.is_eligible c = false).
  { intros c Hc. rewrite is_eligible_allowed. by apply bool_decide_eq_false. }
  split; [|split; [|split; [exact Hout|]]].
  - intros c. rewrite is_eligible_allowed. apply bool_decide_eq_true.
  - intros c Hc. apply Hout. intros Ha.
    exact (allowed_disallowed_disjoint c Ha Hc).
  - vm_compute. reflexivity.
Qed.

#[local] Opaque ALLOWED_CATEGORIES DISALLOWED_CATEGORIES.

Lemma str_of_Some (s : string) : str_of (Some s) = s.
Proof. reflexivity. Qed.

Lemma truthy_Some (s : string) : truthy (Some s) = true ↔ s ≠ "".
Proof.
  unfold truthy. destruct (String.eqb_spec s ""); simpl; split; congruence.
Qed.

Lemma truthy_inv (o : option string) :
  truthy o = true → ∃ s, o = Some s ∧ s ≠ "".
Proof.
  destruct o as [s|]; [|discriminate].
  intros H. exists s. split; [reflexivity|]. by apply truthy_Some.
Qed.

Lemma empty_not_a_category : "" ∉ ALLOWED_CATEGORIES ∪ DISALLOWED_CATEGORIES.
Proof. apply (bool_decide_unpack _). vm_compute. exact I. Qed.

Lemma match_patterns_priority (s : string) :
  UPCClassifier.match_patterns UPC_PATTERNS s = keyword_category s.
Proof. reflexivity. Qed.

Lemma declared_valid_test (category : option string) :
  truthy category &&
  bool_decide (str_of category ∈ ALLOWED_CATEGORIES ∪ DISALLOWED_CATEGORIES)
  = true ↔ declared_valid category.
Proof.
  rewrite andb_true_iff, bool_decide_eq_true. split.
  - intros [Ht Hin]. apply truthy_inv in Ht as (c & -> & _).
    exists c. split; [reflexivity | exact Hin].
  - intros (c & -> & Hin). split; [|exact Hin].
    apply truthy_Some. intros ->. exact (empty_not_a_category Hin).
Qed.

Lemma cache_probe (cache : gmap string string) (identifier : option string) :
  (if truthy identifier then cache !! str_of identifier else None) = None
  ↔ ∀ i, identifier = Some i → i ≠ "" → cache !! i = None.
Proof.
  destruct (truthy identifier) eqn:Ht.
  - apply truthy_inv in Ht as (i & -> & Hne). simpl. split.
    + intros H j [= <-] _. exact H.
    + intros H. by apply H.
  - split; [|done]. intros _ i -> Hne.
    apply truthy_Some in Hne. congruence.
Qed.

(** C6. Resolution order of [classify_item], first match wins, with
    [identifier = upc or sku]:
    (1) a declared category in the allow-set or deny-set is returned
        unchanged and the cache is left alone;
    (2) otherwise a cached category of the identifier is returned;
    (3) otherwise a non-empty name is lowercased and matched against the
        keyword table in the order alcohol, tobacco, hot food; the category
        of the first hit is returned, and stored under the identifier when
        one was supplied;
    (4) otherwise the answer is ["unknown"] and nothing is stored. *)
Theorem classify_item_resolution_order
    (cache : gmap string string) (upc sku product_name category : option string) :
  let identifier := py_or upc sku in
  let answer := UPCClassifier.classify_item cache upc sku product_name category in
  let no_cache_hit := ∀ i, identifier = Some i → i ≠ "" → cache !! i = None in
  (∀ c, category = Some c → c ∈ ALLOWED_CATEGORIES ∪ DISALLOWED_CATEGORIES →
        answer = (c, cache)) ∧
  (¬ declared_valid category →
     ∀ i cached, identifier = Some i → i ≠ "" → cache !! i = Some cached →
                 answer = (cached, cache)) ∧
  (¬ declared_valid category → no_cache_hit →
     ∀ name cat, product_name = Some name → name ≠ "" →
                 keyword_category (lower name) = Some cat →
                 answer = (cat, match identifier with
                                | Some i => if bool_decide (i = "") then cache
                                            else <[i := cat]> cache
                                | None => cache
                                end)) ∧
  (¬ declared_valid category → no_cache_hit →
     (product_name = None ∨ product_name = Some "" ∨
      ∃ name, product_name = Some name ∧ keyword_category (lower name) = None) →
     answer = ("unknown", cache)).
Proof.
  intros identifier answer no_cache_hit.
  subst answer. unfold UPCClassifier.classify_item. fold identifier.
  destruct (truthy category && bool_decide _) eqn:Hd.
  { apply declared_valid_test in Hd.
    split; [|repeat split; intros Hnd; destruct (Hnd Hd)].
    intros c -> _. reflexivity. }
  assert (Hnd : ¬ declared_valid category).
  { intros H. apply declared_valid_test in H. congruence. }
  split.
  { intros c Hc Hin. destruct Hnd. exists c. split; assumption. }
  split.
  { intros _ i cached Hi Hne Hc.
    apply truthy_Some in Hne. rewrite Hi, Hne, str_of_Some, Hc. reflexivity. }
  split.
  - intros _ Hmiss name cat -> Hne Hk.
    apply cache_probe in Hmiss. rewrite Hmiss.
    apply truthy_Some in Hne. rewrite Hne, str_of_Some.
    rewrite match_patterns_priority, Hk. f_equal.
    destruct identifier as [i|]; [|reflexivity].
    unfold truthy. destruct (String.eqb_spec i "") as [->|Hi]; cbn [negb].
    + rewrite bool_decide_eq_true_2; reflexivity.
    + rewrite bool_decide_eq_false_2; [reflexivity | exact Hi].
  - intros _ Hmiss Hname. apply cache_probe in Hmiss. rewrite Hmiss.
    destruct Hname as [-> | [-> | (name & -> & Hk)]]; [reflexivity..|].
    destruct (truthy (Some name)); [|reflexivity].
    rewrite str_of_Some, match_patterns_priority, Hk. reflexivity.
Qed.

(** ** The classifier cache *)

Lemma match_patterns_key (table : list (string * list string)) (s cat : string) :
  UPCClassifier.match_patterns table s = Some cat → cat ∈ fst <$> table.
Proof.
  induction table as [|[k ps] table IH]; [discriminate|].
  cbn [UPCClassifier.match_patterns].
  destruct (UPCClassifier.any_pattern ps s).
  - intros [= <-]. apply list_elem_of_here.
  - intros H. apply list_elem_of_further, IH, H.
Qed.

Lemma pattern_keys_explicit (v : string) :
  v ∈ pattern_keys ↔ v = "alcohol" ∨ v = "tobacco" ∨ v = "hot_food".
Proof.
  unfold pattern_keys. cbn [UPC_PATTERNS fmap list_fmap fst].
  rewrite !elem_of_cons, elem_of_nil. tauto.
Qed.

Lemma pattern_key_ineligible (v : string) :
  v ∈ pattern_keys → UPCClassifier.is_eligible v = false.
Proof.
  rewrite pattern_keys_explicit.
  intros [-> | [-> | ->]]; vm_compute; reflexivity.
Qed.

Lemma unknown_ineligible : UPCClassifier.is_eligible "unknown" = false.
Proof. vm_compute. reflexivity. Qed.

(** What one call can do to the cache: nothing, or one insertion of a
    pattern key, under an identifier that had no entry, as the result of a
    keyword hit on the lowered name. *)
Lemma classify_item_cache_step
    (cache : gmap string string) (upc sku product_name category : option string) :
  let r := UPCClassifier.classify_item cache upc sku product_name category in
  snd r = cache ∨
  ∃ i name, cache !! i = None ∧ snd r = <[i := fst r]> cache ∧
            product_name = Some name ∧
            keyword_category (lower name) = Some (fst r) ∧
            fst r ∈ pattern_keys.
Proof.
  unfold UPCClassifier.classify_item.
  destruct (truthy category && bool_decide _); [by left|].
  destruct (truthy (py_or upc sku)) eqn:Hid.
  - apply truthy_inv in Hid as (i & Hi & Hne). rewrite Hi, str_of_Some.
    destruct (cache !! i) eqn:Hc; [by left|].
    destruct (truthy product_name) eqn:Hn; [|by left].
    apply truthy_inv in Hn as (name & -> & _). rewrite str_of_Some.
    destruct (UPCClassifier.match_patterns _ _) as [cat|] eqn:Hm; [|by left].
    right. exists i, name. cbn [fst snd]. repeat split; try done.
    by apply match_patterns_key in Hm.
  - left. by repeat case_match.
Qed.

Lemma classify_item_cache_ok
    (cache : gmap string string) (upc sku product_name category : option string) :
  cache_ok cache →
  cache_ok (snd (UPCClassifier.classify_item cache upc sku product_name category)).
Proof.
  intros Hok.
  destruct (classify_item_cache_step cache upc sku product_name category)
    as [-> | (i & name & _ & -> & _ & _ & Hk)]; [exact Hok|].
  intros j v. rewrite lookup_insert. case_decide.
  - by intros [= <-].
  - apply Hok.
Qed.

Lemma cache_after_ok (calls : list Call) : cache_ok (cache_after calls).
Proof.
  unfold cache_after.
  induction calls as [|c calls IH] using rev_ind.
  - intros i v. cbn [foldl]. by rewrite lookup_empty.
  - rewrite foldl_app. cbn [foldl].
    destruct c as [[[upc sku] name] cat]. by apply classify_item_cache_ok.
Qed.

(** Under the cache invariant the eligibility of the answer is decided by
    the declared category alone. *)
Lemma classify_item_eligibility
    (cache : gmap string string) (upc sku product_name category : option string) :
  cache_ok cache →
  UPCClassifier.is_eligible
    (fst (UPCClassifier.classify_item cache upc sku product_name category))
  = truthy category && UPCClassifier.is_eligible (str_of category).
Proof.
  intros Hok. unfold UPCClassifier.classify_item.
  destruct (truthy category && bool_decide _) eqn:Hd.
  { apply andb_true_iff in Hd as [-> _]. reflexivity. }
  assert (truthy category && UPCClassifier.is_eligible (str_of category)
          = false) as ->.
  { destruct (truthy category); [|reflexivity]. cbn [andb] in *.
    apply bool_decide_eq_false in Hd.
    rewrite is_eligible_allowed. apply bool_decide_eq_false.
    intros Ha. apply Hd, elem_of_union. by left. }
  destruct (if truthy (py_or upc sku) then _ else _) as [cached|] eqn:Hc.
  - cbn [fst]. destruct (truthy (py_or upc sku)); [|discriminate].
    eapply pattern_key_ineligible, Hok, Hc.
  - destruct (if truthy product_name then _ else _) as [cat|] eqn:Hm;
      cbn [fst]; [|apply unknown_ineligible].
    destruct (truthy product_name); [|discriminate].
    eapply pattern_key_ineligible, match_patterns_key, Hm.
Qed.

Lemma classify_item_cache_hit
    (cache : gmap string string) (upc sku product_name category : option string)
    (i v : string) :
  ¬ declared_valid category → py_or upc sku = Some i → i ≠ "" →
  cache !! i = Some v →
  UPCClassifier.classify_item cache upc sku product_name category = (v, cache).
Proof.
  intros Hnd Hi Hne Hc. unfold UPCClassifier.classify_item.
  destruct (truthy category && bool_decide _) eqn:Hd.
  { apply declared_valid_test in Hd. destruct (Hnd Hd). }
  apply truthy_Some in Hne. rewrite Hi, Hne, str_of_Some, Hc. reflexivity.
Qed.

(** C10. In the cache of a classifier after any history of calls:
    every stored value is one of the pattern-table keys alcohol, tobacco,
    hot_food, hence never ["unknown"] and never eligible; a call changes the
    cache only when a keyword matched the lowered name, and then stores the
    matched key; a cache hit returns an ineligible category; and the
    eligibility of an item's answer is the same after every history, although
    the answered category itself can differ. *)
Theorem cache_holds_only_pattern_keys (calls : list Call) :
  let cache := cache_after calls in
  (∀ i v, cache !! i = Some v →
     v ∈ ["alcohol"; "tobacco"; "hot_food"] ∧ v ≠ "unknown" ∧
     UPCClassifier.is_eligible v = false) ∧
  (∀ upc sku product_name category,
     let r := UPCClassifier.classify_item cache upc sku product_name category in
     snd r ≠ cache →
     ∃ i name, snd r = <[i := fst r]> cache ∧ product_name = Some name ∧
               keyword_category (lower name) = Some (fst r) ∧
               fst r ≠ "unknown") ∧
  (∀ upc sku product_name category i v,
     ¬ declared_valid category → py_or upc sku = Some i → i ≠ "" →
     cache !! i = Some v →
     UPCClassifier.classify_item cache upc sku product_name category = (v, cache)
     ∧ UPCClassifier.is_eligible v = false) ∧
  (∀ calls' upc sku product_name category,
     UPCClassifier.is_eligible
       (fst (UPCClassifier.classify_item (cache_after calls')
               upc sku product_name category))
     = UPCClassifier.is_eligible
         (fst (UPCClassifier.classify_item cache
                 upc sku product_name category))) ∧
  (∃ calls' upc sku product_name category,
     fst (UPCClassifier.classify_item (cache_after calls')
            upc sku product_name category)
     ≠ fst (UPCClassifier.classify_item (cache_after [])
              upc sku product_name category)).
Proof.
  intros cache. pose proof (cache_after_ok calls) as Hok. fold cache in Hok.
  assert (Hkey : ∀ v, v ∈ pattern_keys → v ≠ "unknown").
  { intros v Hv ->. apply pattern_keys_explicit in Hv.
    destruct Hv as [? | [? | ?]]; discriminate. }
  split; [|split; [|split; [|split]]].
  - intros i v Hv. apply Hok in Hv. split; [exact Hv|]. split.
    + by apply Hkey.
    + by apply pattern_key_ineligible.
  - intros upc sku product_name category r Hchg.
    destruct (classify_item_cache_step cache upc sku product_name category)
      as [Hsame | (i & name & _ & Hins & Hn & Hk & Hin)]; [by destruct Hchg|].
    exists i, name. repeat split; try assumption. by apply Hkey.
  - intros upc sku product_name category i v Hnd Hi Hne Hc. split.
    + by apply classify_item_cache_hit with i.
    + apply pattern_key_ineligible. by apply Hok in Hc.
  - intros calls' upc sku product_name category.
    rewrite !classify_item_eligibility; [reflexivity|exact Hok|].
    apply cache_after_ok.
  - exists [(Some "X", None, Some "Beer", None)],
      (Some "X"), None, (Some "Milk"), None.
    vm_compute. discriminate.
Qed.

(** ** The policy engine *)

Lemma cache_ext_refl (c : gmap string string) : cache_ext c c.
Proof. intros i. by left. Qed.

Lemma cache_ext_trans (c1 c2 c3 : gmap string string) :
  cache_ext c1 c2 → cache_ext c2 c3 → cache_ext c1 c3.
Proof.
  intros H12 H23 i.
  destruct (H12 i) as [E12 | (N1 & v & E2 & Hv)];
    destruct (H23 i) as [E23 | (N2 & w & E3 & Hw)].
  - left. congruence.
  - right. split; [congruence|]. by exists w.
  - right. split; [exact N1|]. exists v. split; [congruence|exact Hv].
  - congruence.
Qed.

Lemma classify_item_cache_ext
    (cache : gmap string string) (upc sku product_name category : option string) :
  cache_ext cache
    (snd (UPCClassifier.classify_item cache upc sku product_name category)).
Proof.
  destruct (classify_item_cache_step cache upc sku product_name category)
    as [-> | (i & name & Hnone & -> & _ & _ & Hk)]; [apply cache_ext_refl|].
  intros j. rewrite lookup_insert. case_decide as Hij.
  - subst j. right. split; [exact Hnone|]. eexists. split; [reflexivity|exact Hk].
  - by left.
Qed.

(** An undeclared item is ineligible under every extension of a cache under
    which it is ineligible, and eligible under every extension of a cache
    under which it is eligible: later insertions never change the verdict. *)
Lemma classify_item_eligibility_ext
    (c c' : gmap string string) (upc sku product_name category : option string) :
  cache_ext c c' →
  UPCClassifier.is_eligible
    (fst (UPCClassifier.classify_item c' upc sku product_name category))
  = UPCClassifier.is_eligible
      (fst (UPCClassifier.classify_item c upc sku product_name category)).
Proof.
  intros Hext. unfold UPCClassifier.classify_item.
  destruct (truthy category && bool_decide _); [reflexivity|].
  assert (Hrest : ∀ cache : gmap string string,
    UPCClassifier.is_eligible
      (fst match (if truthy product_name
                  then UPCClassifier.match_patterns UPC_PATTERNS
                         (lower (str_of product_name))
                  else None) with
           | Some disallowed_cat =>
               (disallowed_cat,
                if truthy (py_or upc sku)
                then <[str_of (py_or upc sku) := disallowed_cat]> cache
                else cache)
           | None => ("unknown", cache)
           end) = false).
  { intros cache.
    destruct (if truthy product_name then _ else _) as [cat|] eqn:Hm;
      cbn [fst]; [|apply unknown_ineligible].
    destruct (truthy product_name); [|discriminate].
    eapply pattern_key_ineligible, match_patterns_key, Hm. }
  destruct (truthy (py_or upc sku)); [|by rewrite !Hrest].
  destruct (Hext (str_of (py_or upc sku))) as [-> | (-> & v & -> & Hv)].
  - destruct (c !! _); [reflexivity|]. by rewrite !Hrest.
  - rewrite Hrest. cbn [fst]. by apply pattern_key_ineligible.
Qed.

Lemma build_item_ext (c c' : gmap string string) (d : ItemData) :
  cache_ext c c' →
  processed_from c d (fst (build_item c' d)) ∧
  cache_ext c (snd (build_item c' d)).
Proof.
  intros Hext. unfold processed_from, eligible_under, build_item, Item_init.
  destruct (truthy (d_category d)); cbn [fst snd upc sku product_name price
    quantity is_eligible PolicyEngine.category].
  - repeat split; try reflexivity. exact Hext.
  - destruct (UPCClassifier.classify_item c' _ _ _ _) as [cat cache1] eqn:E1.
    destruct (UPCClassifier.classify_item c _ _ _ _) as [cat0 cache0] eqn:E0.
    cbn [fst snd upc sku product_name price quantity is_eligible PolicyEngine.category].
    repeat split; try reflexivity.
    + change cat with (fst (cat, cache1)). change cat0 with (fst (cat0, cache0)).
      rewrite <- E1, <- E0. by apply classify_item_eligibility_ext.
    + eapply cache_ext_trans; [exact Hext|].
      change cache1 with (snd (cat, cache1)). rewrite <- E1.
      apply classify_item_cache_ext.
Qed.

Lemma eligible_total_cons (it : Item) (l : list Item) :
  eligible_total (it :: l)
  = (if is_eligible it then price it * quantity it else 0) + eligible_total l.
Proof.
  unfold eligible_total. rewrite filter_cons.
  destruct (is_eligible it); case_decide; try congruence.
  - rewrite fmap_cons. unfold Zsum. cbn [foldr]. reflexivity.
  - unfold Zsum. lia.
Qed.

Lemma denied_of_cons (it : Item) (l : list Item) :
  denied_of (it :: l)
  = if is_eligible it then denied_of l else it :: denied_of l.
Proof.
  unfold denied_of. rewrite filter_cons.
  destruct (is_eligible it); case_decide; congruence.
Qed.

Lemma loop_body_build (st : LoopState) (d : ItemData) :
  let it := fst (build_item (cache st) d) in
  loop_body st d
  = {| cache := snd (build_item (cache st) d);
       processed_items := processed_items st ++ [it];
       approved_amount := accumulate (approved_amount st) [it];
       denied_items :=
         denied_items st ++ (if is_eligible it then [] else [it]) |}.
Proof.
  unfold loop_body. fold (build_item (cache st) d).
  destruct (build_item (cache st) d) as [it cache']. cbn [fst snd].
  unfold accumulate. rewrite filter_cons, filter_nil.
  destruct (is_eligible it) eqn:E; case_decide; try congruence;
    cbn [foldl]; f_equal.
  symmetry. apply app_nil_r.
Qed.

Lemma accumulate_cons (acc : Z) (it : Item) (l : list Item) :
  accumulate acc (it :: l) = accumulate (accumulate acc [it]) l.
Proof.
  unfold accumulate. rewrite !filter_cons, filter_nil.
  case_decide; reflexivity.
Qed.

(** The [for] loop, from any intermediate state whose cache extends [c]. *)
Lemma loop_spec (c : gmap string string) (items : list ItemData) :
  ∀ st, cache_ext c (cache st) →
  ∃ new,
    processed_items (foldl loop_body st items) = processed_items st ++ new ∧
    denied_items (foldl loop_body st items) = denied_items st ++ denied_of new ∧
    approved_amount (foldl loop_body st items)
      = accumulate (approved_amount st) new ∧
    Forall2 (processed_from c) items new.
Proof.
  induction items as [|d items IH]; intros st Hext.
  - exists []. cbn [foldl]. rewrite !app_nil_r.
    repeat split. constructor.
  - cbn [foldl].
    destruct (build_item_ext c (cache st) d Hext) as [Hfrom Hext'].
    rewrite loop_body_build.
    set (it := fst (build_item (cache st) d)) in *.
    edestruct IH as (new & Hp & Hd & Ha & Hf); [|
      exists (it :: new); rewrite Hp, Hd, Ha; cbn [processed_items
        denied_items approved_amount]].
    { exact Hext'. }
    rewrite (accumulate_cons _ it new), denied_of_cons, <- !app_assoc.
    repeat split.
    + by destruct (is_eligible it).
    + by constructor.
Qed.

Lemma check_transaction_eligibility_spec
    (c : gmap string string) (items : list ItemData) :
  ∃ breakdown cache',
    check_transaction_eligibility c items
    = (decide_decision (denied_of breakdown) breakdown, breakdown,
       accumulated_total breakdown, cache') ∧
    Forall2 (processed_from c) items breakdown.
Proof.
  unfold check_transaction_eligibility.
  set (st0 := {| cache := c; processed_items := []; approved_amount := 0;
                 denied_items := [] |}).
  destruct (loop_spec c items st0 (cache_ext_refl c))
    as (new & Hp & Hd & Ha & Hf).
  exists new, (cache (foldl loop_body st0 items)).
  rewrite Hp, Hd, Ha. cbn [st0 processed_items denied_items approved_amount app].
  split; [reflexivity | exact Hf].
Qed.

(** *** Where the context's rounding is the identity *)

Lemma excess_digits_small (fuel : nat) (a : Z) :
  a < 10 ^ PREC → excess_digits fuel a = 0.
Proof.
  intros Ha. destruct fuel; [reflexivity|]. cbn [excess_digits].
  destruct (Z.ltb_spec a (10 ^ PREC)); [reflexivity | lia].
Qed.

Lemma excess_digits_nonneg (fuel : nat) (a : Z) : 0 <= excess_digits fuel a.
Proof.
  revert a. induction fuel as [|fuel IH]; intros a; cbn [excess_digits];
    [lia|].
  destruct (a <? 10 ^ PREC); [lia|]. specialize (IH (a / 10)). lia.
Qed.

(** The fuel suffices: what is left after dropping the excess digits has at
    most [PREC] digits. *)
Lemma excess_digits_enough (fuel : nat) : ∀ a,
  0 <= a → a < 10 ^ PREC * 2 ^ Z.of_nat fuel →
  a / 10 ^ excess_digits fuel a < 10 ^ PREC.
Proof.
  induction fuel as [|fuel IH]; intros a Ha Hlt; cbn [excess_digits].
  - change (10 ^ 0) with 1. rewrite Z.div_1_r.
    change (2 ^ Z.of_nat 0) with 1 in Hlt. lia.
  - destruct (Z.ltb_spec a (10 ^ PREC)) as [Hs|Hb].
    + change (10 ^ 0) with 1. by rewrite Z.div_1_r.
    + pose proof (excess_digits_nonneg fuel (a / 10)) as Hk.
      rewrite Z.pow_add_r by lia. change (10 ^ 1) with 10.
      rewrite <- Z.div_div by lia.
      apply IH; [apply Z.div_pos; lia|].
      apply Z.div_lt_upper_bound; [lia|].
      rewrite Nat2Z.inj_succ, Z.pow_succ_r in Hlt by lia.
      assert (0 < 10 ^ PREC * 2 ^ Z.of_nat fuel) by (apply Z.mul_pos_pos; lia).
      lia.
Qed.

Lemma round28_digits (n : Z) :
  let a := Z.abs n in
  a / 10 ^ excess_digits (Z.to_nat (Z.log2 a)) a < 10 ^ PREC.
Proof.
  intros a. destruct (Z.eq_dec a 0) as [->|Hnz]; [reflexivity|].
  assert (Ha : 0 < a) by (subst a; lia).
  apply excess_digits_enough; [lia|].
  rewrite Z2Nat.id by apply Z.log2_nonneg.
  destruct (Z.log2_spec a Ha) as [_ Hup].
  rewrite Z.pow_succ_r in Hup by apply Z.log2_nonneg.
  assert (0 < 2 ^ Z.log2 a) by (apply Z.pow_pos_nonneg; [lia|apply Z.log2_nonneg]).
  assert (2 <= 10 ^ PREC) by (vm_compute; discriminate).
  nia.
Qed.

(** Values of the rounding as the interpreter gives them for
    [Decimal(n) + 0]. *)
Example round28_values :
  round28 (10 ^ 28 + 8) = 10 ^ 28 + 10 ∧
  round28 (10 ^ 28 + 5) = 10 ^ 28 ∧
  round28 (10 ^ 28 + 15) = 10 ^ 28 + 20 ∧
  round28 (- (10 ^ 28 + 8)) = - (10 ^ 28 + 10) ∧
  round28 12345678901234567890123456789012345
    = 12345678901234567890123456790000000 ∧
  round28 (10 ^ 28 - 1) = 10 ^ 28 - 1 ∧
  round28 99999999999999999999999999995 = 10 ^ 29.
Proof. vm_compute. repeat split. Qed.

Lemma round28_small (n : Z) : Z.abs n < 10 ^ PREC → round28 n = n.
Proof.
  intros Hn. unfold round28. rewrite excess_digits_small by exact Hn.
  unfold round_half_even. change (10 ^ 0) with 1.
  rewrite Z.mod_1_r, Z.div_1_r.
  change (2 * 0 <? 1) with true. cbv iota. lia.
Qed.

Lemma Zsum_abs_nonneg {A} (f : A → Z) (l : list A) :
  0 <= Zsum ((fun x => Z.abs (f x)) <$> l).
Proof.
  unfold Zsum. induction l as [|x l IH]; cbn [fmap list_fmap foldr]; lia.
Qed.

(** Within the precision the accumulation is the exact sum. *)
Lemma accumulate_exact (l : list Item) : ∀ acc,
  Z.abs acc + Zsum ((fun it => Z.abs (price it * quantity it)) <$> l)
    < 10 ^ PREC →
  accumulate acc l = acc + eligible_total l.
Proof.
  induction l as [|it l IH]; intros acc Hb.
  - unfold accumulate, eligible_total, Zsum. rewrite filter_nil. cbn. lia.
  - rewrite accumulate_cons, eligible_total_cons.
    rewrite fmap_cons in Hb. unfold Zsum in Hb. cbn [foldr] in Hb.
    fold (Zsum ((fun it => Z.abs (price it * quantity it)) <$> l)) in Hb.
    pose proof (Zsum_abs_nonneg (fun it => price it * quantity it) l) as H0.
    assert (Hstep : accumulate acc [it]
                    = acc + (if is_eligible it then price it * quantity it
                             else 0)).
    { unfold accumulate. rewrite filter_cons, filter_nil.
      destruct (is_eligible it); case_decide; try congruence; cbn [foldl];
        [|lia].
      unfold dec_add, dec_mul.
      rewrite (round28_small (price it * quantity it)) by lia.
      apply round28_small. lia. }
    rewrite Hstep, IH; [lia|].
    destruct (is_eligible it); lia.
Qed.

Lemma breakdown_within_precision (c : gmap string string)
    (items : list ItemData) (breakdown : list Item) :
  Forall2 (processed_from c) items breakdown →
  Zsum ((fun it => Z.abs (price it * quantity it)) <$> breakdown)
  = Zsum ((fun d => Z.abs (line_total d)) <$> items).
Proof.
  induction 1 as [|d it ds its Hd _ IH]; [reflexivity|].
  destruct Hd as (_ & _ & _ & Hp & Hq & _).
  rewrite !fmap_cons. unfold Zsum in *. cbn [foldr].
  rewrite IH, Hp, Hq. reflexivity.
Qed.

(** The approved amount of a basket within the precision is the exact sum
    over its eligible items. *)
Lemma accumulated_total_exact (c : gmap string string)
    (items : list ItemData) (breakdown : list Item) :
  Forall2 (processed_from c) items breakdown →
  within_precision items →
  accumulated_total breakdown = eligible_total breakdown.
Proof.
  intros Hf Hw. unfold accumulated_total.
  rewrite accumulate_exact; [lia|].
  rewrite (breakdown_within_precision _ _ _ Hf). exact Hw.
Qed.

Lemma decide_decision_cases (denied breakdown : list Item) :
  let n := length denied in
  let total := length breakdown in
  (decide_decision denied breakdown = APPROVE ↔ n = 0%nat) ∧
  (decide_decision denied breakdown = DENY ↔ n ≠ 0%nat ∧ n = total) ∧
  (decide_decision denied breakdown = PARTIAL ↔ n ≠ 0%nat ∧ n ≠ total).
Proof.
  intros n total. unfold decide_decision. fold n total.
  destruct (Nat.eqb_spec n 0); [|destruct (Nat.eqb_spec n total)];
    repeat split; intros; try congruence; try tauto; try (by intuition).
Qed.



Lemma Zsum_Permutation (l l' : list Z) : l ≡ₚ l' → Zsum l = Zsum l'.
Proof.
  unfold Zsum. induction 1; cbn [foldr]; lia.
Qed.

Lemma breakdown_static (c : gmap string string)
    (items : list ItemData) (breakdown : list Item) :
  Forall2 (processed_from c) items breakdown →
  eligible_total breakdown = static_total c items ∧
  length (denied_of breakdown) = static_denied c items ∧
  length breakdown = length items.
Proof.
  unfold static_total, static_denied.
  induction 1 as [|d it ds its Hd _ (IHt & IHd & IHl)]; [done|].
  destruct Hd as (_ & _ & _ & Hp & Hq & _ & He).
  rewrite eligible_total_cons, denied_of_cons, filter_cons, fmap_cons.
  rewrite He, Hp, Hq. fold (line_total d).
  unfold Zsum in *. cbn [foldr length]. rewrite <- IHt.
  destruct (eligible_under c d); case_decide; try congruence;
    cbn [length]; rewrite ?IHd, ?IHl; done.
Qed.




(** ** The ledger *)

Lemma or_zero_sql_sum (amounts : list Z) :
  or_zero (sql_sum amounts) = Zsum amounts.
Proof.
  destruct amounts as [|a l]; [reflexivity|].
  unfold sql_sum, or_zero. fold (Zsum (a :: l)).
  destruct (Z.eqb_spec (Zsum (a :: l)) 0); congruence.
Qed.

Lemma balance_sum (db : Session) (uid : UUID) :
  calculate_balance_from_ledger db uid = Zsum (amount <$> rows_of db uid).
Proof. apply or_zero_sql_sum. Qed.

Lemma insert_desc_Permutation (t : Transaction) (l : list Transaction) :
  insert_desc t l ≡ₚ t :: l.
Proof.
  induction l as [|t' l IH]; [reflexivity|].
  cbn [insert_desc]. destruct (created_at t' <=? created_at t); [reflexivity|].
  rewrite IH. apply perm_swap.
Qed.

Lemma order_by_Permutation (rows : list Transaction) :
  order_by_created_at_desc rows ≡ₚ rows.
Proof.
  induction rows as [|t rows IH]; [reflexivity|].
  cbn [order_by_created_at_desc foldr].
  fold (order_by_created_at_desc rows).
  by rewrite insert_desc_Permutation, IH.
Qed.

Lemma insert_desc_newest_first (t : Transaction) (l : list Transaction) :
  newest_first l → newest_first (insert_desc t l).
Proof.
  unfold newest_first.
  induction 1 as [|t' l Hl IH Hall].
  - repeat constructor.
  - cbn [insert_desc]. destruct (Z.leb_spec (created_at t') (created_at t)).
    + constructor; [by constructor|]. constructor; [assumption|].
      eapply Forall_impl; [exact Hall|]. cbn. intros; lia.
    + constructor; [exact IH|].
      rewrite insert_desc_Permutation. constructor; [lia | exact Hall].
Qed.

Lemma order_by_newest_first (rows : list Transaction) :
  newest_first (order_by_created_at_desc rows).
Proof.
  induction rows as [|t rows IH]; [constructor|].
  by apply insert_desc_newest_first.
Qed.

Lemma StronglySorted_drop {A} (R : A → A → Prop) (n : nat) (l : list A) :
  StronglySorted R l → StronglySorted R (drop n l).
Proof.
  intros H. revert n. induction H as [|x l Hl IH Hx]; intros [|n];
    cbn [drop]; try constructor; auto.
Qed.

Lemma StronglySorted_take {A} (R : A → A → Prop) (n : nat) (l : list A) :
  StronglySorted R l → StronglySorted R (take n l).
Proof.
  intros H. revert n. induction H as [|x l Hl IH Hx]; intros [|n];
    cbn [take]; try constructor; auto.
  apply Forall_forall. intros y Hy. rewrite Forall_forall in Hx.
  apply Hx. eapply subseteq_take, Hy.
Qed.

Lemma full_history (db : Session) (uid : UUID) :
  get_transaction_history db uid (length (transactions db)) 0
  = order_by_created_at_desc (rows_of db uid).
Proof.
  unfold get_transaction_history. rewrite drop_0. apply take_ge.
  rewrite (Permutation_length (order_by_Permutation _)).
  apply length_filter.
Qed.

(** C1. After any sequence of earn, spend, redeem and webhook requests, the
    balance of every account is the sum of the amounts of all its ledger
    entries — read either from the table or from the complete history — and
    is zero for an account without entries. *)
Theorem balance_is_sum_of_entries
    (WEBHOOK_SECRET : string) (requests : list Routes.Request) (uid : UUID) :
  let db := Routes.db (Routes.run WEBHOOK_SECRET requests) in
  calculate_balance_from_ledger db uid
    = foldr Z.add 0 (amount <$> filter (fun t => user_id t = uid) (transactions db))
  ∧ calculate_balance_from_ledger db uid
    = foldr Z.add 0
        (amount <$> get_transaction_history db uid (length (transactions db)) 0)
  ∧ (filter (fun t => user_id t = uid) (transactions db) = [] →
     calculate_balance_from_ledger db uid = 0).
Proof.
  intros db. pose proof (balance_sum db uid) as Hb.
  unfold Zsum, rows_of in Hb.
  split; [exact Hb|]. split.
  - rewrite full_history, Hb. apply Zsum_Permutation.
    by rewrite order_by_Permutation.
  - intros Hnone. rewrite Hb, Hnone. reflexivity.
Qed.

(** *** What the store may answer *)

Lemma get_transaction_history_admissible
    (db : Session) (uid : UUID) (limit offset : nat) :
  returns_history db uid limit offset
    (get_transaction_history db uid limit offset).
Proof.
  exists (order_by_created_at_desc (rows_of db uid)).
  split; [|reflexivity].
  split; [apply order_by_Permutation | apply order_by_newest_first].
Qed.

Lemma returns_history_newest_first
    (db : Session) (uid : UUID) (limit offset : nat) (page : list Transaction) :
  returns_history db uid limit offset page →
  newest_first page ∧ (length page ≤ limit)%nat ∧
  ∀ t, t ∈ page → t ∈ transactions db ∧ user_id t = uid.
Proof.
  intros (ordered & [Hperm Hsorted] & ->). split; [|split].
  - by apply StronglySorted_take, StronglySorted_drop.
  - rewrite length_take. lia.
  - intros t Ht. apply subseteq_take, subseteq_drop in Ht.
    rewrite Hperm in Ht. unfold rows_of in Ht.
    by apply list_elem_of_filter in Ht as [? ?].
Qed.

Lemma NoDup_fmap_eq {A B} (f : A → B) (l : list A) (x y : A) :
  NoDup (f <$> l) → x ∈ l → y ∈ l → f x = f y → x = y.
Proof.
  induction l as [|a l IH]; [by intros _ ?%elem_of_nil|].
  rewrite fmap_cons, NoDup_cons, !elem_of_cons.
  intros [Hna Hnd] [->|Hx] [->|Hy] Hf; [done| | |by apply IH].
  - destruct Hna. rewrite Hf. by apply list_elem_of_fmap_2.
  - destruct Hna. rewrite <- Hf. by apply list_elem_of_fmap_2.
Qed.

(** With pairwise different timestamps one ordering is admissible. *)
Lemma orders_by_created_at_desc_unique (rows rows' o o' : list Transaction) :
  NoDup (created_at <$> rows) → rows' ≡ₚ rows →
  orders_by_created_at_desc rows o → orders_by_created_at_desc rows' o' →
  o = o'.
Proof.
  intros Hnd Hrows [Hp Hs] [Hp' Hs'].
  eapply StronglySorted_unique_strong; [|exact Hs|exact Hs'|].
  - intros x y Hx Hy Hxy Hyx. rewrite Hp in Hx. rewrite Hp', Hrows in Hy.
    cbv beta in Hxy, Hyx.
    eapply NoDup_fmap_eq; [exact Hnd|exact Hx|exact Hy|lia].
  - by rewrite Hp, Hp', Hrows.
Qed.

(** C9 as stated fails: for three entries of one account with the same
    creation time, the query admits the answer with identifiers 2, 1, 3 and
    the answer with identifiers 3, 1, 2 alike, so two reads need not agree;
    and neither answer is sorted by identifier, in either direction. *)
Lemma history_ties_ignore_identifier :
  let first := [earned 2 7 100 50; earned 1 7 200 50; earned 3 7 300 50] in
  let second := [earned 3 7 300 50; earned 1 7 200 50; earned 2 7 100 50] in
  returns_history colliding_db 7 100 0 first ∧
  returns_history colliding_db 7 100 0 second ∧
  first ≠ second ∧
  ¬ Sorted before_id_asc first ∧ ¬ Sorted before_id_desc first ∧
  ¬ Sorted before_id_asc second ∧ ¬ Sorted before_id_desc second.
Proof.
  intros first second.
  assert (Hrows : rows_of colliding_db 7 = first) by (vm_compute; reflexivity).
  assert (Hs : ∀ a b c, created_at a = 50 → created_at b = 50 →
                        created_at c = 50 → newest_first [a; b; c]).
  { intros a b c Ha Hb Hc. unfold newest_first.
    repeat constructor; lia. }
  split; [|split; [|split; [discriminate|]]].
  - exists first. rewrite Hrows. split; [|reflexivity].
    split; [reflexivity | by apply Hs].
  - exists second. rewrite Hrows. split; [|reflexivity].
    split; [|by apply Hs].
    subst first second. etrans; [apply Permutation_swap|].
    etrans; [apply Permutation_skip, Permutation_swap|].
    etrans; [apply Permutation_swap|]. reflexivity.
  - subst first second. repeat split; intros H.
    + inversion H as [|? ? _ Hd]; subst. inversion Hd as [|? ? Hr]; subst.
      unfold before_id_asc, earned in Hr. cbn in Hr. lia.
    + inversion H as [|? ? Hs' _]; subst. inversion Hs' as [|? ? _ Hd]; subst.
      inversion Hd as [|? ? Hr]; subst.
      unfold before_id_desc, earned in Hr. cbn in Hr. lia.
    + inversion H as [|? ? _ Hd]; subst. inversion Hd as [|? ? Hr]; subst.
      unfold before_id_asc, earned in Hr. cbn in Hr. lia.
    + inversion H as [|? ? Hs' _]; subst. inversion Hs' as [|? ? _ Hd]; subst.
      inversion Hd as [|? ? Hr]; subst.
      unfold before_id_desc, earned in Hr. cbn in Hr. lia.
Qed.

(** C9 (amended). The query of the history operation orders by creation
    time alone.  Every answer the store may give is a page — [limit] entries
    after skipping [offset] — of the account's entries arranged newest first
    by creation time: it is newest first, has at most [limit] entries, all
    of them entries of the account; and there is such an answer.  How entries
    with equal creation times are arranged is left to the store.  When the
    creation times of the account's entries are pairwise different the
    answer is determined by those entries: reading again without an append
    to the account gives the same list. *)
Theorem history_newest_first_paginated
    (db : Session) (uid : UUID) (limit offset : nat) :
  returns_history db uid limit offset
    (get_transaction_history db uid limit offset) ∧
  (∀ page, returns_history db uid limit offset page →
     (∃ ordered,
        ordered ≡ₚ filter (fun t => user_id t = uid) (transactions db) ∧
        newest_first ordered ∧
        page = take limit (drop offset ordered)) ∧
     newest_first page ∧
     (length page ≤ limit)%nat ∧
     (∀ t, t ∈ page → t ∈ transactions db ∧ user_id t = uid)) ∧
  (NoDup (created_at <$> filter (fun t => user_id t = uid) (transactions db)) →
   ∀ db' page page',
     filter (fun t => user_id t = uid) (transactions db')
       = filter (fun t => user_id t = uid) (transactions db) →
     returns_history db uid limit offset page →
     returns_history db' uid limit offset page' →
     page = page').
Proof.
  split; [apply get_transaction_history_admissible|]. split.
  - intros page Hpage.
    split; [|exact (returns_history_newest_first _ _ _ _ _ Hpage)].
    destruct Hpage as (ordered & [Hperm Hsorted] & ->).
    by exists ordered.
  - intros Hnd db' page page' Hrows (o & Ho & ->) (o' & Ho' & ->).
    f_equal. f_equal.
    eapply orders_by_created_at_desc_unique; [exact Hnd| |exact Ho|exact Ho'].
    unfold rows_of. by rewrite Hrows.
Qed.

(** ** Appending to the ledger *)

Lemma create_transaction_cases (db : Session) (fresh_id : UUID) (now : Z)
    (uid : UUID) (amt : Z) (rsn : string) (ref cat : option string)
    (md : list (string * JValue)) :
  (valid_reason rsn ∧ amt ≠ 0 ∧
   create_transaction db fresh_id now uid amt rsn ref cat md
   = Ok (new_row fresh_id now uid amt rsn ref cat md,
         append_row db (new_row fresh_id now uid amt rsn ref cat md)))
  ∨ (¬ valid_reason rsn ∧
     create_transaction db fresh_id now uid amt rsn ref cat md
     = Err (ValueError "Invalid transaction reason"))
  ∨ (valid_reason rsn ∧ amt = 0 ∧
     create_transaction db fresh_id now uid amt rsn ref cat md
     = Err (ValueError "Transaction amount cannot be zero")).
Proof.
  unfold create_transaction, valid_reason.
  case_bool_decide as Hr; cbn [negb].
  - destruct (Z.eqb_spec amt 0) as [Hz|Hz].
    + right. right. done.
    + left. done.
  - right. left. done.
Qed.

Lemma balance_append_row (db : Session) (t : Transaction) (uid : UUID) :
  calculate_balance_from_ledger (append_row db t) uid
  = calculate_balance_from_ledger db uid
    + (if bool_decide (user_id t = uid) then amount t else 0).
Proof.
  rewrite !balance_sum. unfold rows_of, append_row. cbn [transactions].
  rewrite filter_app, fmap_app. unfold Zsum. rewrite foldr_app.
  rewrite filter_cons, filter_nil.
  assert (Hshift : ∀ (l : list Z) (z : Z),
            foldr Z.add z l = foldr Z.add 0 l + z).
  { induction l as [|x l IH]; intros z; cbn [foldr]; [lia|].
    rewrite IH. lia. }
  rewrite Hshift. f_equal.
  case_bool_decide; case_decide; try contradiction; cbn; lia.
Qed.

Lemma balance_same_transactions (db db' : Session) (uid : UUID) :
  transactions db' = transactions db →
  calculate_balance_from_ledger db' uid = calculate_balance_from_ledger db uid.
Proof.
  intros H. unfold calculate_balance_from_ledger, rows_of. by rewrite H.
Qed.

(** ** The spend workflow *)

Lemma spend_rewards_unfold (app : App) (uid : UUID) (gw : Gateway)
    (fresh_id : UUID) (now : Z) (items : list ItemData) (amount : Z)
    (merchant_id : option string) :
  spend_rewards app uid gw fresh_id now items amount merchant_id
  = if amount <=? 0
    then (Err (HTTPException 400 "Amount must be positive"), app)
    else if bool_decide (items = [])
    then (Err (HTTPException 400 "Items list cannot be empty"), app)
    else if get_user_balance (db app) uid <? amount
    then (Err (HTTPException 400 "Insufficient balance"), app)
    else
      let r := check_transaction_eligibility (category_cache app) items in
      match policy_gate r.1.1.1 r.1.2 amount with
      | Err e => (Err e, with_cache app r.2)
      | Ok charged =>
          charge (with_cache app r.2) uid gw fresh_id now items charged
            merchant_id r.1.1.1 r.1.2
      end.
Proof.
  unfold spend_rewards, charge.
  destruct (check_transaction_eligibility _ _) as [[[dec b] appr] c'].
  reflexivity.
Qed.

(** A charge that succeeds appended exactly one debit of the charged amount
    to the user's ledger. *)
Lemma charge_ok (app : App) (uid : UUID) (gw : Gateway) (fresh_id : UUID)
    (now : Z) (items : list ItemData) (charged : Z)
    (merchant_id : option string) (decision : PolicyDecision) (approved : Z)
    (resp : SpendResponse) (app' : App) :
  charge app uid gw fresh_id now items charged merchant_id decision approved
    = (Ok resp, app') →
  r_amount resp = charged ∧ r_decision resp = value decision ∧
  r_approved_amount resp = approved ∧
  category_cache app' = category_cache app ∧
  processed_events app' = processed_events app ∧
  ∃ t, transactions (db app') = transactions (db app) ++ [t] ∧
       user_id t = uid ∧ amount t = - charged ∧ reason t = "spend".
Proof.
  unfold charge.
  assert (Hacct : ∃ created db1,
            match get_stripe_account (db app) uid with
            | Some acct => (Ok acct, db app)
            | None => create_stripe_account (db app) gw uid
            end = (created, db1) ∧ transactions db1 = transactions (db app)).
  { destruct (get_stripe_account (db app) uid); [by eexists _, _|].
    unfold create_stripe_account.
    destruct (head _); [by eexists _, _|].
    destruct (account_create gw); by eexists _, _. }
  destruct Hacct as (created & db1 & -> & Htx).
  destruct created as [acct|e]; [|discriminate].
  destruct (authorize_transaction _ _ _ _) as [[[|] pid]|e]; try discriminate.
  destruct (create_transaction_cases (db (with_db app db1)) fresh_id now uid
              (- charged) "spend" pid (Some "mixed")
              [("merchant_id", from_option JStr JNull merchant_id);
               ("item_count", JNum (Z.of_nat (length items)));
               ("decision", JStr (value decision));
               ("approved_amount", JNum approved)])
    as [(_ & _ & ->) | [(_ & ->) | (_ & _ & ->)]]; try discriminate.
  intros [= <- <-]. cbn. rewrite Htx. repeat split; try reflexivity.
  eexists. repeat split; reflexivity.
Qed.



(** The guards in front of the policy evaluation all pass. *)
Lemma spend_rewards_past_guards (app : App) (uid : UUID) (gw : Gateway)
    (fresh_id : UUID) (now : Z) (items : list ItemData) (amount : Z)
    (merchant_id : option string) :
  0 < amount → items ≠ [] → amount <= get_user_balance (db app) uid →
  spend_rewards app uid gw fresh_id now items amount merchant_id
  = let r := check_transaction_eligibility (category_cache app) items in
    match policy_gate r.1.1.1 r.1.2 amount with
    | Err e => (Err e, with_cache app r.2)
    | Ok charged =>
        charge (with_cache app r.2) uid gw fresh_id now items charged
          merchant_id r.1.1.1 r.1.2
    end.
Proof.
  intros Hpos Hne Hbal. rewrite spend_rewards_unfold.
  destruct (Z.leb_spec amount 0); [lia|].
  rewrite bool_decide_eq_false_2 by exact Hne.
  destruct (Z.ltb_spec (get_user_balance (db app) uid) amount); [lia|].
  reflexivity.
Qed.

(** The requests a spend can serve successfully passed every guard. *)
Lemma spend_rewards_ok_guards (app : App) (uid : UUID) (gw : Gateway)
    (fresh_id : UUID) (now : Z) (items : list ItemData) (amount : Z)
    (merchant_id : option string) (resp : SpendResponse) (app' : App) :
  spend_rewards app uid gw fresh_id now items amount merchant_id
    = (Ok resp, app') →
  0 < amount ∧ items ≠ [] ∧ amount <= get_user_balance (db app) uid.
Proof.
  rewrite spend_rewards_unfold.
  destruct (Z.leb_spec amount 0); [discriminate|].
  case_bool_decide; [discriminate|].
  destruct (Z.ltb_spec (get_user_balance (db app) uid) amount);
    [discriminate|].
  intros _. repeat split; [lia | assumption | lia].
Qed.




(** ** Debits and the balance *)

(** C2 as stated fails: a debit appended to an empty ledger, directly or by
    a settlement webhook, succeeds and leaves the balance at -5.00. *)
Lemma debit_appended_without_balance_check :
  (∃ t db',
     create_transaction empty_db 1 10 7 (-500) "spend" None None []
       = Ok (t, db') ∧
     calculate_balance_from_ledger db' 7 = -500) ∧
  calculate_balance_from_ledger
    (db (run "whsec" [WebhookDelivery 1 10 (settlement "evt_1")])) 7 = -500.
Proof.
  split.
  - eexists _, _. split; [vm_compute; reflexivity|]. vm_compute. reflexivity.
  - vm_compute. reflexivity.
Qed.

Lemma redeem_rewards_ok (app : App) (uid fresh_id : UUID) (now : Z)
    (body : TransactionCreate) (txn : Transaction) (app' : App) :
  redeem_rewards app uid fresh_id now body = (Ok txn, app') →
  0 < tc_amount body ∧
  tc_amount body <= calculate_balance_from_ledger (db app) uid ∧
  calculate_balance_from_ledger (db app') uid
    = calculate_balance_from_ledger (db app) uid - tc_amount body.
Proof.
  unfold redeem_rewards, get_user_balance.
  destruct (negb _); [discriminate|].
  destruct (Z.leb_spec (tc_amount body) 0); [discriminate|].
  destruct (Z.ltb_spec (calculate_balance_from_ledger (db app) uid)
              (tc_amount body)); [discriminate|].
  destruct (create_transaction_cases (db app) fresh_id now uid
              (- tc_amount body) "redeem" (tc_stripe_ref body)
              (tc_category body) (tc_metadata body))
    as [(_ & _ & ->) | [(_ & ->) | (_ & _ & ->)]]; try discriminate.
  intros [= <- <-]. cbn [db with_db].
  rewrite balance_append_row. cbn [new_row user_id amount].
  rewrite bool_decide_eq_true_2 by reflexivity.
  repeat split; lia.
Qed.

Lemma spend_rewards_ok (app : App) (uid : UUID) (gw : Gateway)
    (fresh_id : UUID) (now : Z) (items : list ItemData) (requested : Z)
    (merchant_id : option string) (resp : SpendResponse) (app' : App) :
  spend_rewards app uid gw fresh_id now items requested merchant_id
    = (Ok resp, app') →
  requested <= calculate_balance_from_ledger (db app) uid ∧
  calculate_balance_from_ledger (db app') uid
    = calculate_balance_from_ledger (db app) uid - r_amount resp ∧
  (r_decision resp = "approve" → r_amount resp = requested).
Proof.
  intros Hrun.
  destruct (spend_rewards_ok_guards _ _ _ _ _ _ _ _ _ _ Hrun)
    as (Hpos & Hne & Hbal).
  rewrite spend_rewards_past_guards in Hrun by assumption.
  cbv zeta in Hrun.
  destruct (policy_gate _ _ requested) as [charged|e] eqn:Hgate;
    [|discriminate].
  apply charge_ok in Hrun
    as (Ha & Hd & _ & _ & _ & t & Ht & Hu & Hamt & _).
  split; [exact Hbal|]. split.
  - cbn [db with_cache] in Ht.
    transitivity (calculate_balance_from_ledger (append_row (db app) t) uid).
    + apply balance_same_transactions. exact Ht.
    + rewrite balance_append_row, bool_decide_eq_true_2 by exact Hu. lia.
  - rewrite Hd. intros Hv.
    destruct (check_transaction_eligibility _ _).1.1.1; try discriminate.
    cbn [policy_gate] in Hgate. congruence.
Qed.

Lemma settlement_debit (WEBHOOK_SECRET : string) (db0 : Session)
    (seen : gmap string bool) (fresh_id : UUID) (now : Z) (d : Delivery)
    (uid : UUID) (amt : Z) (pi_id : string) :
  WEBHOOK_SECRET ≠ "" → signature_valid d = true → event_id d ∉ dom seen →
  event_type d = "payment_intent.succeeded" →
  data_object d = {| obj_id := Some pi_id; obj_user_id := UserId uid;
                     obj_amount := Some amt; obj_destination := None |} →
  amt ≠ 0 →
  ∃ t, handle_stripe_webhook WEBHOOK_SECRET db0 seen fresh_id now d
       = (Ok {| status := "success"; resp_event_id := event_id d |},
          append_row db0 t, <[event_id d := true]> seen) ∧
       user_id t = uid ∧ amount t = - amt ∧ reason t = "spend".
Proof.
  intros Hs Hv Hnew Hty Hobj Hamt. unfold handle_stripe_webhook.
  destruct (String.eqb_spec WEBHOOK_SECRET ""); [contradiction|].
  rewrite Hv, bool_decide_eq_false_2 by exact Hnew. cbn [negb].
  unfold dispatch. rewrite Hty, Hobj. cbn [String.eqb Ascii.eqb Bool.eqb].
  unfold _handle_payment_succeeded. cbn [obj_user_id obj_amount obj_id].
  destruct (create_transaction_cases db0 fresh_id now uid (- amt) "spend"
              (Some pi_id) None
              [("event_type", JStr "payment_intent.succeeded")])
    as [(_ & _ & ->) | [(Hr & _) | (_ & Hz & _)]].
  - eexists. split; [reflexivity|]. repeat split.
  - destruct Hr. unfold valid_reason. set_solver.
  - lia.
Qed.

(** C2 (amended). No append validates the resulting balance:
    [create_transaction] accepts every recognised reason with a non-zero
    amount and moves the balance of the account by exactly that amount, and
    the reconciler's settlement debit goes through it unchecked.  The balance
    guard is the separate earlier read in the redeem and spend routes: a
    redeem that succeeds, and a spend that succeeds with decision approve,
    found balance >= amount and, served on their own, leave the balance of the
    account non-negative. *)
Theorem balance_guard_is_an_earlier_read
    (app : App) (uid fresh_id : UUID) (now : Z) :
  (∀ amt rsn ref cat md, valid_reason rsn → amt ≠ 0 →
     ∃ t db', create_transaction (db app) fresh_id now uid amt rsn ref cat md
                = Ok (t, db') ∧
              calculate_balance_from_ledger db' uid
                = calculate_balance_from_ledger (db app) uid + amt) ∧
  (∀ WEBHOOK_SECRET d amt pi_id,
     WEBHOOK_SECRET ≠ "" → signature_valid d = true →
     event_id d ∉ dom (processed_events app) →
     event_type d = "payment_intent.succeeded" →
     data_object d = {| obj_id := Some pi_id; obj_user_id := UserId uid;
                        obj_amount := Some amt; obj_destination := None |} →
     amt ≠ 0 →
     calculate_balance_from_ledger
       (handle_stripe_webhook WEBHOOK_SECRET (db app) (processed_events app)
          fresh_id now d).1.2 uid
     = calculate_balance_from_ledger (db app) uid - amt) ∧
  (∀ body txn app',
     redeem_rewards app uid fresh_id now body = (Ok txn, app') →
     tc_amount body <= calculate_balance_from_ledger (db app) uid ∧
     calculate_balance_from_ledger (db app') uid
       = calculate_balance_from_ledger (db app) uid - tc_amount body ∧
     0 <= calculate_balance_from_ledger (db app') uid) ∧
  (∀ gw items requested merchant_id resp app',
     spend_rewards app uid gw fresh_id now items requested merchant_id
       = (Ok resp, app') →
     requested <= calculate_balance_from_ledger (db app) uid ∧
     calculate_balance_from_ledger (db app') uid
       = calculate_balance_from_ledger (db app) uid - r_amount resp ∧
     (r_decision resp = "approve" →
      0 <= calculate_balance_from_ledger (db app') uid)).
Proof.
  split; [|split; [|split]].
  - intros amt rsn ref cat md Hr Hz.
    destruct (create_transaction_cases (db app) fresh_id now uid amt rsn ref
                cat md) as [(_ & _ & ->) | [(Hn & _) | (_ & Hz' & _)]];
      [|contradiction..].
    eexists _, _. split; [reflexivity|].
    rewrite balance_append_row. cbn [new_row user_id amount].
    by rewrite bool_decide_eq_true_2.
  - intros secret d amt pi_id Hs Hv Hnew Hty Hobj Hamt.
    destruct (settlement_debit secret (db app) (processed_events app)
                fresh_id now d uid amt pi_id Hs Hv Hnew Hty Hobj Hamt)
      as (t & -> & Hu & Ha & _).
    cbn [fst snd]. rewrite balance_append_row, bool_decide_eq_true_2 by exact Hu.
    lia.
  - intros body txn app' Hrun.
    apply redeem_rewards_ok in Hrun as (Hpos & Hbal & Hnew).
    repeat split; [exact Hbal | exact Hnew | lia].
  - intros gw items requested merchant_id resp app' Hrun.
    apply spend_rewards_ok in Hrun as (Hbal & Hnew & Happ).
    repeat split; [exact Hbal | exact Hnew |].
    intros Hd. apply Happ in Hd. lia.
Qed.

(** ** Redelivery of webhook events *)

(** C3 as stated fails: the same event delivered twice is reported as
    "success" and then as "already_processed"; and the record of processed
    events is a dict in the memory of the process, so the same event
    delivered once more to a process that starts with an empty record, over
    the same database, is applied a second time. *)
Lemma duplicate_delivery_reports_differently :
  let d := settlement "evt_1" in
  let out := redeliver "whsec" empty_db ∅ d [(1%N, 10); (2%N, 20)] in
  out.1.1 = [success d; already_processed d] ∧
  out.1.1 !! 0%nat ≠ out.1.1 !! 1%nat ∧
  length (transactions out.1.2) = 1%nat ∧
  let again := handle_stripe_webhook "whsec" out.1.2 ∅ 3 30 d in
  again.1.1 = success d ∧
  length (transactions again.1.2) = 2%nat.
Proof.
  vm_compute. repeat split. discriminate.
Qed.

Lemma create_transaction_env (db0 : Session) (fresh_id fresh_id' : UUID)
    (now now' : Z) (uid : UUID) (amt : Z) (rsn : string)
    (ref cat : option string) (md : list (string * JValue)) (e : Error) :
  create_transaction db0 fresh_id now uid amt rsn ref cat md = Err e →
  create_transaction db0 fresh_id' now' uid amt rsn ref cat md = Err e.
Proof.
  unfold create_transaction.
  destruct (negb _); [done|]. destruct (amt =? 0); done.
Qed.

(** A handler either fails before writing, or leaves the ledger alone, or
    appends one entry. *)
Lemma dispatch_cases (db0 : Session) (fresh_id : UUID) (now : Z) (d : Delivery) :
  (∃ e, ∀ fresh_id' now', dispatch db0 fresh_id' now' d = Err e) ∨
  dispatch db0 fresh_id now d = Ok db0 ∨
  (∃ t, dispatch db0 fresh_id now d = Ok (append_row db0 t)).
Proof.
  assert (Hct : ∀ uid amt rsn ref md,
    (∃ e, ∀ fresh_id' now',
       match create_transaction db0 fresh_id' now' uid amt rsn ref None md with
       | Ok (_, db') => Ok db'
       | Err e => Err e
       end = Err e) ∨
    (∃ t, match create_transaction db0 fresh_id now uid amt rsn ref None md with
          | Ok (_, db') => Ok db'
          | Err e => Err e
          end = Ok (append_row db0 t))).
  { intros uid amt rsn ref md.
    destruct (create_transaction_cases db0 fresh_id now uid amt rsn ref None md)
      as [(_ & _ & ->) | [(_ & H) | (_ & _ & H)]].
    - right. by eexists.
    - left. eexists. intros i' n'.
      by rewrite (create_transaction_env _ _ i' _ n' _ _ _ _ _ _ _ H).
    - left. eexists. intros i' n'.
      by rewrite (create_transaction_env _ _ i' _ n' _ _ _ _ _ _ _ H). }
  unfold dispatch.
  destruct (String.eqb (event_type d) "payment_intent.succeeded").
  { unfold _handle_payment_succeeded.
    destruct (obj_user_id (data_object d)) as [| |uid]; [by right; left|..].
    - left. destruct (obj_amount _); eexists; intros; reflexivity.
    - destruct (obj_amount _) as [amt|]; [|left; eexists; intros; reflexivity].
      destruct (obj_id _) as [pi_id|]; [|left; eexists; intros; reflexivity].
      destruct (Hct uid (- amt) "spend" (Some pi_id)
                  [("event_type", JStr "payment_intent.succeeded")])
        as [He | Ht]; [by left | by right; right]. }
  destruct (String.eqb (event_type d) "payment_intent.payment_failed");
    [by right; left|].
  destruct (String.eqb (event_type d) "transfer.created").
  { unfold _handle_transfer_created.
    destruct (match obj_destination (data_object d) with
              | Some destination => _ | None => None end) as [acct|];
      [|by right; left].
    destruct (obj_amount _) as [amt|]; [|left; eexists; intros; reflexivity].
    destruct (obj_id _) as [tr_id|]; [|left; eexists; intros; reflexivity].
    destruct (Hct (sa_user_id acct) amt "earn" (Some tr_id)
                [("event_type", JStr "transfer.created")])
      as [He | Ht]; [by left | by right; right]. }
  destruct (String.eqb (event_type d) "account.updated"); by right; left.
Qed.

Lemma handle_seen (WEBHOOK_SECRET : string) (db0 : Session)
    (seen : gmap string bool) (fresh_id : UUID) (now : Z) (d : Delivery) :
  WEBHOOK_SECRET ≠ "" → signature_valid d = true → event_id d ∈ dom seen →
  handle_stripe_webhook WEBHOOK_SECRET db0 seen fresh_id now d
  = (already_processed d, db0, seen).
Proof.
  intros Hs Hv Hin. unfold handle_stripe_webhook.
  destruct (String.eqb_spec WEBHOOK_SECRET ""); [contradiction|].
  rewrite Hv, bool_decide_eq_true_2 by exact Hin. reflexivity.
Qed.

Lemma redeliver_seen (WEBHOOK_SECRET : string) (db0 : Session)
    (seen : gmap string bool) (d : Delivery) (envs : list (UUID * Z)) :
  WEBHOOK_SECRET ≠ "" → signature_valid d = true → event_id d ∈ dom seen →
  redeliver WEBHOOK_SECRET db0 seen d envs
  = (replicate (length envs) (already_processed d), db0, seen).
Proof.
  intros Hs Hv Hin. induction envs as [|[i n] envs IH]; [reflexivity|].
  cbn [redeliver]. rewrite handle_seen, IH by assumption. reflexivity.
Qed.

Lemma redeliver_failing (WEBHOOK_SECRET : string) (db0 : Session)
    (seen : gmap string bool) (d : Delivery) (envs : list (UUID * Z))
    (e : Error) :
  WEBHOOK_SECRET ≠ "" → signature_valid d = true → event_id d ∉ dom seen →
  (∀ fresh_id now, dispatch db0 fresh_id now d = Err e) →
  redeliver WEBHOOK_SECRET db0 seen d envs
  = (replicate (length envs) (Err e), db0, seen).
Proof.
  intros Hs Hv Hnew He. induction envs as [|[i n] envs IH]; [reflexivity|].
  cbn [redeliver]. unfold handle_stripe_webhook at 1.
  destruct (String.eqb_spec WEBHOOK_SECRET ""); [contradiction|].
  rewrite Hv, bool_decide_eq_false_2, He by exact Hnew. cbn [negb].
  rewrite IH. reflexivity.
Qed.

Lemma dispatch_settlement (db0 : Session) (fresh_id : UUID) (now : Z)
    (d : Delivery) (uid : UUID) (amt : Z) (pi_id : string) :
  event_type d = "payment_intent.succeeded" →
  obj_user_id (data_object d) = UserId uid →
  obj_amount (data_object d) = Some amt → amt ≠ 0 →
  obj_id (data_object d) = Some pi_id →
  dispatch db0 fresh_id now d
  = Ok (append_row db0
          (new_row fresh_id now uid (- amt) "spend" (Some pi_id) None
             [("event_type", JStr "payment_intent.succeeded")])).
Proof.
  intros Hty Hu Ha Hamt Hid. unfold dispatch. rewrite Hty.
  cbn [String.eqb Ascii.eqb Bool.eqb].
  unfold _handle_payment_succeeded. rewrite Hu, Ha, Hid.
  destruct (create_transaction_cases db0 fresh_id now uid (- amt) "spend"
              (Some pi_id) None
              [("event_type", JStr "payment_intent.succeeded")])
    as [(_ & _ & ->) | [(Hr & _) | (_ & Hz & _)]].
  - reflexivity.
  - destruct Hr. unfold valid_reason. set_solver.
  - lia.
Qed.

Lemma dispatch_transfer (db0 : Session) (fresh_id : UUID) (now : Z)
    (d : Delivery) (destination : string) (acct : StripeAccount) (amt : Z)
    (tr_id : string) :
  event_type d = "transfer.created" →
  obj_destination (data_object d) = Some destination →
  account_of db0 destination = Some acct →
  obj_amount (data_object d) = Some amt → amt ≠ 0 →
  obj_id (data_object d) = Some tr_id →
  dispatch db0 fresh_id now d
  = Ok (append_row db0
          (new_row fresh_id now (sa_user_id acct) amt "earn" (Some tr_id) None
             [("event_type", JStr "transfer.created")])).
Proof.
  intros Hty Hdest Hacct Ha Hamt Hid. unfold dispatch. rewrite Hty.
  cbn [String.eqb Ascii.eqb Bool.eqb].
  unfold _handle_transfer_created. rewrite Hdest.
  unfold account_of in Hacct. rewrite Hacct, Ha, Hid.
  destruct (create_transaction_cases db0 fresh_id now (sa_user_id acct) amt
              "earn" (Some tr_id) None
              [("event_type", JStr "transfer.created")])
    as [(_ & _ & ->) | [(Hr & _) | (_ & Hz & _)]].
  - reflexivity.
  - destruct Hr. unfold valid_reason. set_solver.
  - lia.
Qed.

(** Deliveries that succeed without a ledger effect: an event type without
    one, a settlement that names no user, a transfer to a destination that
    is no registered account. *)
Lemma dispatch_no_effect (db0 : Session) (fresh_id : UUID) (now : Z)
    (d : Delivery) :
  event_type d ∉ ledger_event_types ∨
  (event_type d = "payment_intent.succeeded" ∧
   obj_user_id (data_object d) = NoUserId) ∨
  (event_type d = "transfer.created" ∧
   match obj_destination (data_object d) with
   | Some destination => account_of db0 destination = None
   | None => True
   end) →
  dispatch db0 fresh_id now d = Ok db0.
Proof.
  unfold dispatch, ledger_event_types.
  intros [Hty | [[Hty Hu] | [Hty Hdest]]].
  - destruct (String.eqb_spec (event_type d) "payment_intent.succeeded")
      as [E|_]; [destruct Hty; rewrite E; set_solver|].
    destruct (String.eqb (event_type d) "payment_intent.payment_failed");
      [reflexivity|].
    destruct (String.eqb_spec (event_type d) "transfer.created")
      as [E|_]; [destruct Hty; rewrite E; set_solver|].
    destruct (String.eqb (event_type d) "account.updated"); reflexivity.
  - rewrite Hty. cbn [String.eqb Ascii.eqb Bool.eqb].
    unfold _handle_payment_succeeded. by rewrite Hu.
  - rewrite Hty. cbn [String.eqb Ascii.eqb Bool.eqb].
    unfold _handle_transfer_created.
    destruct (obj_destination (data_object d)) as [destination|];
      [|reflexivity].
    unfold account_of in Hdest. by rewrite Hdest.
Qed.

(** A first delivery that is handled, followed by any number of repeats. *)
Lemma redeliver_handled (WEBHOOK_SECRET : string) (db0 db1 : Session)
    (seen : gmap string bool) (d : Delivery) (fresh_id : UUID) (now : Z)
    (rest : list (UUID * Z)) :
  WEBHOOK_SECRET ≠ "" → signature_valid d = true → event_id d ∉ dom seen →
  dispatch db0 fresh_id now d = Ok db1 →
  handle_stripe_webhook WEBHOOK_SECRET db0 seen fresh_id now d
  = (success d, db1, <[event_id d := true]> seen) ∧
  redeliver WEBHOOK_SECRET db0 seen d ((fresh_id, now) :: rest)
  = (success d :: replicate (length rest) (already_processed d), db1,
     <[event_id d := true]> seen).
Proof.
  intros Hs Hv Hnew Hd.
  assert (Hfirst : handle_stripe_webhook WEBHOOK_SECRET db0 seen fresh_id now d
                   = (success d, db1, <[event_id d := true]> seen)).
  { unfold handle_stripe_webhook.
    destruct (String.eqb_spec WEBHOOK_SECRET ""); [contradiction|].
    rewrite Hv, bool_decide_eq_false_2 by exact Hnew. cbn [negb].
    by rewrite Hd. }
  split; [exact Hfirst|].
  cbn [redeliver]. rewrite Hfirst. rewrite redeliver_seen; [reflexivity|done..|].
  rewrite dom_insert_L. apply elem_of_union_l. by apply elem_of_singleton.
Qed.

(** C3 (amended). The same event delivered N times in a row to one process,
    with a valid signature; the process keeps its record of processed events
    in memory from one submission to the next.  If the identifier was not
    yet recorded:

    - over all N submissions exactly one ledger entry is appended when the
      event is a settlement that names a user (the debit of the settled
      amount, dated and keyed as of the first submission), or a transfer
      whose destination is a registered account (the credit of its owner),
      the amount being non-zero and storable and the object carrying its
      identifier;
    - no entry is appended when the event type has no ledger effect, when a
      settlement names no user, when a transfer's destination is no
      registered account, or when handling fails;
    - never more than one entry is appended, and no other table changes;
    - either the first submission reports "success", records the
      identifier, and every later one reports "already_processed" and
      leaves the state as the first left it, or handling fails and every
      submission raises the same error with nothing written or recorded.

    If the identifier was already recorded, all N submissions report
    "already_processed" and change nothing.  The first and the later
    reports differ in their status. *)
Theorem redelivery_applies_once
    (WEBHOOK_SECRET : string) (db0 : Session) (seen : gmap string bool)
    (d : Delivery) (env1 : UUID * Z) (rest : list (UUID * Z)) :
  WEBHOOK_SECRET ≠ "" → signature_valid d = true →
  let out := redeliver WEBHOOK_SECRET db0 seen d (env1 :: rest) in
  let first := handle_stripe_webhook WEBHOOK_SECRET db0 seen env1.1 env1.2 d in
  (event_id d ∉ dom seen →
     (∀ uid amt pi_id,
        event_type d = "payment_intent.succeeded" →
        obj_user_id (data_object d) = UserId uid →
        obj_amount (data_object d) = Some amt → storable amt →
        obj_id (data_object d) = Some pi_id →
        ∃ t, transactions out.1.2 = transactions db0 ++ [t] ∧
             transaction_id t = env1.1 ∧ created_at t = env1.2 ∧
             user_id t = uid ∧ amount t = - amt ∧ reason t = "spend" ∧
             stripe_ref t = Some pi_id ∧
             out.1.1 = success d :: replicate (length rest) (already_processed d)) ∧
     (∀ destination acct amt tr_id,
        event_type d = "transfer.created" →
        obj_destination (data_object d) = Some destination →
        head (filter (fun a => stripe_account_id a = destination)
                (stripe_accounts db0)) = Some acct →
        obj_amount (data_object d) = Some amt → storable amt →
        obj_id (data_object d) = Some tr_id →
        ∃ t, transactions out.1.2 = transactions db0 ++ [t] ∧
             transaction_id t = env1.1 ∧ created_at t = env1.2 ∧
             user_id t = sa_user_id acct ∧ amount t = amt ∧
             reason t = "earn" ∧ stripe_ref t = Some tr_id ∧
             out.1.1 = success d :: replicate (length rest) (already_processed d)) ∧
     (event_type d ∉ ["payment_intent.succeeded"; "transfer.created"] ∨
      (event_type d = "payment_intent.succeeded" ∧
       obj_user_id (data_object d) = NoUserId) ∨
      (event_type d = "transfer.created" ∧
       match obj_destination (data_object d) with
       | Some destination =>
           head (filter (fun a => stripe_account_id a = destination)
                   (stripe_accounts db0)) = None
       | None => True
       end) →
      transactions out.1.2 = transactions db0 ∧
      out.1.1 = success d :: replicate (length rest) (already_processed d)) ∧
     (∃ new, transactions out.1.2 = transactions db0 ++ new ∧
             (length new ≤ 1)%nat) ∧
     stripe_accounts out.1.2 = stripe_accounts db0 ∧
     ((out.1.1 = success d :: replicate (length rest) (already_processed d) ∧
       out.1.2 = first.1.2 ∧ out.2 = <[event_id d := true]> seen) ∨
      (∃ e, out.1.1 = replicate (S (length rest)) (Err e) ∧
            out.1.2 = db0 ∧ out.2 = seen))) ∧
  (event_id d ∈ dom seen →
     out = (replicate (S (length rest)) (already_processed d), db0, seen)) ∧
  success d ≠ already_processed d.
Proof.
  intros Hs Hv out first. split; [|split].
  - intros Hnew. destruct env1 as [i n]. cbn [fst snd] in *.
    split; [|split; [|split]].
    { intros uid amt pi_id Hty Hu Ha [Hamt _] Hid.
      destruct (redeliver_handled WEBHOOK_SECRET db0 _ seen d i n rest Hs Hv
                  Hnew (dispatch_settlement db0 i n d uid amt pi_id Hty Hu Ha
                          Hamt Hid)) as [_ Hout].
      subst out. rewrite Hout. cbn [fst snd].
      eexists. split; [reflexivity|]. repeat split. }
    { intros destination acct amt tr_id Hty Hdest Hacct Ha [Hamt _] Hid.
      destruct (redeliver_handled WEBHOOK_SECRET db0 _ seen d i n rest Hs Hv
                  Hnew (dispatch_transfer db0 i n d destination acct amt tr_id
                          Hty Hdest Hacct Ha Hamt Hid)) as [_ Hout].
      subst out. rewrite Hout. cbn [fst snd].
      eexists. split; [reflexivity|]. repeat split. }
    { intros Hnone.
      destruct (redeliver_handled WEBHOOK_SECRET db0 _ seen d i n rest Hs Hv
                  Hnew (dispatch_no_effect db0 i n d Hnone)) as [_ Hout].
      subst out. rewrite Hout. cbn [fst snd]. split; reflexivity. }
    destruct (dispatch_cases db0 i n d) as [[e He] | Hok].
    { subst out. rewrite redeliver_failing with (e := e) by assumption.
      cbn [fst snd].
      split; [exists []; split; [by rewrite app_nil_r | cbn; lia]|].
      split; [reflexivity|]. right. by exists e. }
    assert (Hd : ∃ db1, dispatch db0 i n d = Ok db1
              ∧ stripe_accounts db1 = stripe_accounts db0
              ∧ ∃ new, transactions db1 = transactions db0 ++ new
                       ∧ (length new ≤ 1)%nat).
    { destruct Hok as [-> | [t ->]].
      - exists db0. split; [reflexivity|]. split; [reflexivity|].
        exists []. split; [by rewrite app_nil_r | cbn; lia].
      - exists (append_row db0 t). split; [reflexivity|].
        split; [reflexivity|]. exists [t]. split; [reflexivity | cbn; lia]. }
    destruct Hd as (db1 & Hd & Hsa & new & Htx & Hlen).
    destruct (redeliver_handled WEBHOOK_SECRET db0 db1 seen d i n rest Hs Hv
                Hnew Hd) as [Hfirst Hout].
    subst out first. rewrite Hout, Hfirst. cbn [fst snd].
    split; [by exists new|]. split; [exact Hsa|].
    left. repeat split; reflexivity.
  - intros Hin. subst out. by rewrite redeliver_seen.
  - discriminate.
Qed.

(** C3 (amended) at a settlement event delivered three times to a fresh
    process: one debit of 5.00 for user 7, reported once as applied. *)
Lemma redelivery_applies_once_witness :
  let out := redeliver "whsec" empty_db ∅ (settlement "evt_1")
               [(1%N, 10); (2%N, 20); (3%N, 30)] in
  ∃ t, transactions out.1.2 = [t] ∧
       user_id t = 7%N ∧ amount t = -500 ∧ reason t = "spend" ∧
       out.1.1
       = [success (settlement "evt_1"); already_processed (settlement "evt_1");
          already_processed (settlement "evt_1")].
Proof.
  assert (Hs : "whsec" ≠ "") by discriminate.
  assert (Hv : signature_valid (settlement "evt_1") = true) by reflexivity.
  assert (Hnew : event_id (settlement "evt_1") ∉ dom (∅ : gmap string bool)).
  { rewrite dom_empty_L. apply not_elem_of_empty. }
  assert (Hamt : storable 500) by (split; [discriminate | reflexivity]).
  destruct (redelivery_applies_once "whsec" empty_db ∅ (settlement "evt_1")
              (1%N, 10) [(2%N, 20); (3%N, 30)] Hs Hv) as (Hfresh & _ & _).
  destruct (Hfresh Hnew) as (Hsettle & _).
  destruct (Hsettle 7%N 500 "pi_9" eq_refl eq_refl eq_refl Hamt eq_refl)
    as (t & Htx & _ & _ & Hu & Ha & Hr & _ & Houts).
  exists t. split; [exact Htx|]. split; [exact Hu|]. split; [exact Ha|].
  split; [exact Hr | exact Houts].
Defined.

(** ** The properties at concrete inputs *)

(** C7 at a member of each set and at a value outside both. *)
Lemma is_eligible_default_deny_witness :
  UPCClassifier.is_eligible "dairy" = true ∧
  UPCClassifier.is_eligible "alcohol" = false ∧
  UPCClassifier.is_eligible "toys" = false.
Proof.
  destruct is_eligible_default_deny as (Hiff & Hdeny & Hout & _).
  split; [|split].
  - apply Hiff. apply (bool_decide_unpack _). vm_compute. exact I.
  - apply Hdeny. apply (bool_decide_unpack _). vm_compute. exact I.
  - apply Hout. apply (bool_decide_unpack _). vm_compute. exact I.
Defined.

(** C6 at an undeclared item with identifier X whose name mentions both beer
    and cigars: alcohol wins, and is stored under X. *)
Lemma classify_item_resolution_order_witness :
  UPCClassifier.classify_item ∅ (Some "X") None (Some "Cold BEER and cigars") None
  = ("alcohol", <["X" := "alcohol"]> ∅).
Proof.
  destruct (classify_item_resolution_order ∅ (Some "X") None
              (Some "Cold BEER and cigars") None) as (_ & _ & Hpattern & _).
  apply (Hpattern
           ltac:(intros (c & Hc & _); discriminate Hc)
           ltac:(intros i _ _; apply lookup_empty)
           "Cold BEER and cigars" "alcohol" eq_refl
           ltac:(discriminate) ltac:(vm_compute; reflexivity)).
Defined.

(** C10 after one call that matched a keyword: the stored value is
    ineligible. *)
Lemma cache_holds_only_pattern_keys_witness :
  cache_after [(Some "X", None, Some "Beer", None)] !! "X" = Some "alcohol" ∧
  UPCClassifier.is_eligible "alcohol" = false.
Proof.
  assert (H : cache_after [(Some "X", None, Some "Beer", None)] !! "X"
              = Some "alcohol") by (vm_compute; reflexivity).
  split; [exact H|].
  destruct (cache_holds_only_pattern_keys [(Some "X", None, Some "Beer", None)])
    as (Hstored & _).
  exact (proj2 (proj2 (Hstored "X" "alcohol" H))).
Defined.


(** C1 at an account that never appears in the ledger. *)
Lemma balance_is_sum_of_entries_witness :
  calculate_balance_from_ledger
    (db (run "whsec"
           [Earn 7 1 10 {| tc_amount := 1000; tc_reason := "earn";
                           tc_stripe_ref := None; tc_category := None;
                           tc_metadata := [] |}])) 8 = 0.
Proof.
  destruct (balance_is_sum_of_entries "whsec"
              [Earn 7 1 10 {| tc_amount := 1000; tc_reason := "earn";
                              tc_stripe_ref := None; tc_category := None;
                              tc_metadata := [] |}] 8) as (_ & _ & Hzero).
  apply Hzero. vm_compute. reflexivity.
Defined.

(** C2 (amended) at a debit appended to the ledger of a fresh process. *)
Lemma balance_guard_is_an_earlier_read_witness :
  ∃ t db',
    create_transaction (db initial) 1 10 7 (-500) "spend" None None []
      = Ok (t, db') ∧
    calculate_balance_from_ledger db' 7
      = calculate_balance_from_ledger (db initial) 7 + -500.
Proof.
  destruct (balance_guard_is_an_earlier_read initial 7 1 10) as (Happend & _).
  apply Happend.
  - unfold valid_reason. apply (bool_decide_unpack _). vm_compute. exact I.
  - discriminate.
Defined.

(** C9 (amended) at a ledger whose entries of account 7 were written at
    different times, read before and after an entry of account 8 was
    appended: whatever the store answers, the two pages are the same. *)
Lemma history_newest_first_paginated_witness :
  NoDup (created_at <$> filter (fun t => user_id t = 7%N)
                          (transactions spaced_db)) ∧
  returns_history spaced_db 7 2 0 (get_transaction_history spaced_db 7 2 0) ∧
  ∀ page page',
    returns_history spaced_db 7 2 0 page →
    returns_history (append_row spaced_db (earned 4 8 100 60)) 7 2 0 page' →
    page = page'.
Proof.
  assert (Hnd : NoDup (created_at <$> filter (fun t => user_id t = 7%N)
                                        (transactions spaced_db))).
  { apply (bool_decide_unpack _). vm_compute. exact I. }
  destruct (history_newest_first_paginated spaced_db 7 2 0)
    as (Hadm & _ & Hsame).
  split; [exact Hnd|]. split; [exact Hadm|].
  intros page page'. apply (Hsame Hnd). vm_compute. reflexivity.
Defined.

(** ** The repository's tests, replayed *)

(** [test_unknown_item_default_deny] *)
Example unknown_item_default_deny :
  UPCClassifier.classify_item ∅ None None (Some "Unknown Product XYZ123") None
  = ("unknown", ∅) ∧
  UPCClassifier.is_eligible "unknown" = false.
Proof. split; vm_compute; reflexivity. Qed.

(** [test_transaction_all_eligible], [test_transaction_partial],
    [test_transaction_all_ineligible] *)
Example transaction_decisions :
  (check_transaction_eligibility ∅ [declared "dairy" 350; declared "bakery" 200]).1.1.1
    = APPROVE ∧
  (check_transaction_eligibility ∅ [declared "dairy" 350; declared "bakery" 200]).1.2
    = 550 ∧
  (check_transaction_eligibility ∅ [declared "dairy" 350; declared "alcohol" 500]).1.1.1
    = PARTIAL ∧
  (check_transaction_eligibility ∅ [declared "dairy" 350; declared "alcohol" 500]).1.2
    = 350 ∧
  (check_transaction_eligibility ∅ [declared "alcohol" 500; declared "tobacco" 800]).1.1.1
    = DENY ∧
  (check_transaction_eligibility ∅ [declared "alcohol" 500; declared "tobacco" 800]).1.2
    = 0.
Proof. repeat split; vm_compute; reflexivity. Qed.

(** [test_get_user_balance]: earn 10.00, earn 5.00, spend 3.00. *)
Example earn_earn_spend :
  ∃ t1 db1 t2 db2 t3 db3,
    calculate_balance_from_ledger empty_db 7 = 0 ∧
    create_transaction empty_db 1 10 7 1000 "earn" None None [] = Ok (t1, db1) ∧
    create_transaction db1 2 20 7 500 "earn" None None [] = Ok (t2, db2) ∧
    calculate_balance_from_ledger db2 7 = 1500 ∧
    create_transaction db2 3 30 7 (-300) "spend" None None [] = Ok (t3, db3) ∧
    calculate_balance_from_ledger db3 7 = 1200 ∧
    amount <$> get_transaction_history db3 7 100 0 = [-300; 500; 1000].
Proof. eexists _, _, _, _, _, _. repeat split; vm_compute; reflexivity. Qed.

(** [test_invalid_transaction_reason], [test_zero_amount_transaction] *)
Example rejected_appends :
  create_transaction empty_db 1 10 7 1000 "invalid_reason" None None []
    = Err (ValueError "Invalid transaction reason") ∧
  create_transaction empty_db 1 10 7 0 "earn" None None []
    = Err (ValueError "Transaction amount cannot be zero").
Proof. split; vm_compute; reflexivity. Qed.

(** A partial decision whose approved amount exceeds both the request and
    the balance: 10.00 on the account, 5.00 requested, 60.00 of dairy and 1.00
    of alcohol in the basket; 60.00 is charged. *)
Example partial_spend_charges_approved_amount :
  let out := spend_rewards funded_app 7 authorizing 2 20
               [declared "dairy" 6000; declared "alcohol" 100] 500 None in
  (∃ resp, out.1 = Ok resp ∧ r_amount resp = 6000 ∧ r_decision resp = "partial")
  ∧ calculate_balance_from_ledger (db out.2) 7 = -5000.
Proof.
  split; [eexists; repeat split; vm_compute; reflexivity|].
  vm_compute. reflexivity.
Qed.

(** * Further properties of the code *)

(** ** What a request can do to the ledger *)

Lemma create_transaction_ok_inv (db0 : Session) (fresh_id : UUID) (now : Z)
    (uid : UUID) (amt : Z) (rsn : string) (ref cat : option string)
    (md : list (string * JValue)) (t : Transaction) (db' : Session) :
  create_transaction db0 fresh_id now uid amt rsn ref cat md = Ok (t, db') →
  t = new_row fresh_id now uid amt rsn ref cat md ∧ db' = append_row db0 t ∧
  valid_reason rsn ∧ amt ≠ 0.
Proof.
  destruct (create_transaction_cases db0 fresh_id now uid amt rsn ref cat md)
    as [(Hr & Hz & ->) | [(_ & ->) | (_ & _ & ->)]]; [|discriminate..].
  intros [= <- <-]. done.
Qed.

(** Every way [charge] can end. *)
Lemma charge_cases (app : App) (uid : UUID) (gw : Gateway) (fresh_id : UUID)
    (now : Z) (items : list ItemData) (charged : Z)
    (merchant_id : option string) (decision : PolicyDecision) (approved : Z) :
  let out := charge app uid gw fresh_id now items charged merchant_id
               decision approved in
  category_cache out.2 = category_cache app ∧
  processed_events out.2 = processed_events app ∧
  ((∃ e, out.1 = Err e ∧ transactions (db out.2) = transactions (db app)) ∨
   (∃ resp t, out.1 = Ok resp ∧
      transactions (db out.2) = transactions (db app) ++ [t] ∧
      user_id t = uid ∧ amount t = - charged ∧ 0 < charged ∧
      reason t = "spend")).
Proof.
  unfold charge.
  assert (Hacct : ∃ created db1,
            match get_stripe_account (db app) uid with
            | Some acct => (Ok acct, db app)
            | None => create_stripe_account (db app) gw uid
            end = (created, db1) ∧ transactions db1 = transactions (db app)).
  { destruct (get_stripe_account (db app) uid); [by eexists _, _|].
    unfold create_stripe_account.
    destruct (head _); [by eexists _, _|].
    destruct (account_create gw); by eexists _, _. }
  destruct Hacct as (created & db1 & -> & Htx).
  destruct created as [acct|e]; cbn [fst snd];
    [|repeat split; left; by eexists].
  unfold authorize_transaction.
  destruct (Z.leb_spec charged 0); [repeat split; left; by eexists|].
  destruct (get_stripe_account (db (with_db app db1)) uid);
    [|repeat split; left; by eexists].
  destruct (payment_intent_create gw) as [pid|];
    [|repeat split; left; by eexists].
  destruct (create_transaction_cases (db (with_db app db1)) fresh_id now uid
              (- charged) "spend" (Some pid) (Some "mixed")
              [("merchant_id", from_option JStr JNull merchant_id);
               ("item_count", JNum (Z.of_nat (length items)));
               ("decision", JStr (value decision));
               ("approved_amount", JNum approved)])
    as [(_ & _ & ->) | [(_ & ->) | (_ & _ & ->)]]; cbn [fst snd];
    try (repeat split; left; by eexists).
  repeat split. right. eexists _, _. split; [reflexivity|].
  cbn. rewrite Htx. repeat split; try reflexivity. lia.
Qed.

(** Every way [spend_rewards] can end, seen from the ledger. *)
Lemma spend_rewards_cases (app : App) (uid : UUID) (gw : Gateway)
    (fresh_id : UUID) (now : Z) (items : list ItemData) (requested : Z)
    (merchant_id : option string) :
  let out := spend_rewards app uid gw fresh_id now items requested
               merchant_id in
  processed_events out.2 = processed_events app ∧
  ((∃ e, out.1 = Err e ∧ transactions (db out.2) = transactions (db app)) ∨
   (∃ resp t, out.1 = Ok resp ∧
      transactions (db out.2) = transactions (db app) ++ [t] ∧
      user_id t = uid ∧ amount t = - r_amount resp ∧ 0 < r_amount resp ∧
      reason t = "spend")).
Proof.
  cbv zeta. rewrite spend_rewards_unfold.
  destruct (requested <=? 0); [split; [done|left; by eexists]|].
  destruct (bool_decide (items = [])); [split; [done|left; by eexists]|].
  destruct (get_user_balance (db app) uid <? requested);
    [split; [done|left; by eexists]|].
  cbv zeta.
  destruct (policy_gate _ _ requested) as [charged|e];
    [|split; [done|left; by eexists]].
  set (app1 := with_cache app _).
  destruct (charge_cases app1 uid gw fresh_id now items charged merchant_id
              (check_transaction_eligibility (category_cache app) items).1.1.1
              (check_transaction_eligibility (category_cache app) items).1.2)
    as (_ & Hpe & [(e & He & Htx) | (resp & t & Hr & Htx & Hu & Ha & Hpos & Hrsn)]).
  - split; [exact Hpe|]. left. by exists e.
  - split; [exact Hpe|]. right. exists resp, t.
    assert (r_amount resp = charged) as ->.
    { destruct (charge _ _ _ _ _ _ _ _ _ _) as [o a] eqn:E. cbn [fst] in Hr.
      subst o. by apply charge_ok in E as (-> & _). }
    done.
Qed.

(** Every way [handle_stripe_webhook] can end, seen from the ledger. *)
Lemma handle_stripe_webhook_cases (WEBHOOK_SECRET : string) (db0 : Session)
    (seen : gmap string bool) (fresh_id : UUID) (now : Z) (d : Delivery) :
  let out := handle_stripe_webhook WEBHOOK_SECRET db0 seen fresh_id now d in
  out.1.2 = db0 ∨
  ∃ t, out.1.2 = append_row db0 t ∧ well_formed t ∧
       out.1.1 = success d ∧ (event_id d ∉ dom seen) ∧
       reason t ≠ "redeem" ∧
       (event_type d = "payment_intent.succeeded" ∨
        event_type d = "transfer.created").
Proof.
  cbv zeta. unfold handle_stripe_webhook.
  destruct (String.eqb WEBHOOK_SECRET ""); [by left|].
  destruct (signature_valid d); [|by left]. cbn [negb].
  case_bool_decide as Hseen; [by left|].
  unfold dispatch.
  destruct (String.eqb_spec (event_type d) "payment_intent.succeeded") as [Hty|_].
  { unfold _handle_payment_succeeded.
    destruct (obj_user_id _) as [| |uid]; [by left|..].
    - destruct (obj_amount _); by left.
    - destruct (obj_amount _) as [amt|]; [|by left].
      destruct (obj_id _) as [pi_id|]; [|by left].
      destruct (create_transaction _ _ _ _ _ _ _ _ _) as [[t db']|e] eqn:E;
        [|by left].
      apply create_transaction_ok_inv in E as (-> & -> & Hr & Hz).
      right. eexists. split; [reflexivity|]. repeat split; try done.
      by left. }
  destruct (String.eqb (event_type d) "payment_intent.payment_failed");
    [by left|].
  destruct (String.eqb_spec (event_type d) "transfer.created") as [Hty|_].
  { unfold _handle_transfer_created.
    destruct (match obj_destination (data_object d) with
              | Some destination => _ | None => None end) as [acct|];
      [|by left].
    destruct (obj_amount _) as [amt|]; [|by left].
    destruct (obj_id _) as [tr_id|]; [|by left].
    destruct (create_transaction _ _ _ _ _ _ _ _ _) as [[t db']|e] eqn:E;
      [|by left].
    apply create_transaction_ok_inv in E as (-> & -> & Hr & Hz).
    right. eexists. split; [reflexivity|]. repeat split; try done.
    by right. }
  destruct (String.eqb (event_type d) "account.updated"); by left.
Qed.

(** One served request, seen from the ledger: the old entries stay, in
    order, and at most one well-formed entry is added behind them. *)
Lemma serve_ledger_step (WEBHOOK_SECRET : string) (app : App) (r : Request) :
  ∃ new, transactions (db (serve WEBHOOK_SECRET app r))
           = transactions (db app) ++ new ∧
         (length new ≤ 1)%nat ∧ Forall well_formed new.
Proof.
  assert (Hnone : ∀ l : list Transaction,
            ∃ new, l = l ++ new ∧ (length new ≤ 1)%nat ∧ Forall well_formed new).
  { intros l. exists []. rewrite app_nil_r. repeat split; [cbn; lia|constructor]. }
  assert (Hone : ∀ (l : list Transaction) t, well_formed t →
            ∃ new, l ++ [t] = l ++ new ∧ (length new ≤ 1)%nat
                   ∧ Forall well_formed new).
  { intros l t Ht. exists [t]. repeat split; [cbn; lia|by constructor]. }
  destruct r as [uid fresh_id now body | uid gw fresh_id now items requested m
                | uid fresh_id now body | fresh_id now d]; cbn [serve].
  - unfold earn_rewards.
    destruct (negb _); [apply Hnone|].
    destruct (tc_amount body <=? 0); [apply Hnone|].
    destruct (create_transaction _ _ _ _ _ _ _ _ _) as [[t db']|e] eqn:E;
      [|apply Hnone].
    apply create_transaction_ok_inv in E as (-> & -> & Hr & Hz).
    cbn [snd db with_db append_row transactions]. by apply Hone.
  - destruct (spend_rewards_cases app uid gw fresh_id now items requested m)
      as (_ & [(e & _ & ->) | (resp & t & _ & -> & _ & Ha & Hpos & Hrsn)]);
      [apply Hnone|].
    apply Hone. split; [lia|]. rewrite Hrsn. unfold valid_reason.
    apply (bool_decide_unpack _). vm_compute. exact I.
  - unfold redeem_rewards.
    destruct (negb _); [apply Hnone|].
    destruct (tc_amount body <=? 0); [apply Hnone|].
    destruct (_ <? _); [apply Hnone|].
    destruct (create_transaction _ _ _ _ _ _ _ _ _) as [[t db']|e] eqn:E;
      [|apply Hnone].
    apply create_transaction_ok_inv in E as (-> & -> & Hr & Hz).
    cbn [snd db with_db append_row transactions]. by apply Hone.
  - unfold stripe_webhook. cbn [negb].
    destruct (handle_stripe_webhook_cases WEBHOOK_SECRET (db app)
                (processed_events app) fresh_id now d) as [H | (t & H & Ht & _)];
      destruct (handle_stripe_webhook _ _ _ _ _ _) as [[o db'] pe'];
      cbn [fst snd] in H; subst db';
      destruct o as [resp|[msg|key|st det|msg]]; cbn [snd db];
      solve [apply Hnone | by apply Hone].
Qed.

(** X1. The ledger is append-only: over any sequence of requests, the
    entries present before are still there afterwards, unchanged and in the
    same positions, and the sequence adds at most one entry per request. *)
Theorem ledger_append_only
    (WEBHOOK_SECRET : string) (app : App) (requests : list Request) :
  ∃ new,
    transactions (db (foldl (serve WEBHOOK_SECRET) app requests))
      = transactions (db app) ++ new ∧
    (length new ≤ length requests)%nat.
Proof.
  induction requests as [|r requests IH] using rev_ind.
  - exists []. by rewrite app_nil_r.
  - destruct IH as (new & Hnew & Hlen). rewrite foldl_app. cbn [foldl].
    destruct (serve_ledger_step WEBHOOK_SECRET
                (foldl (serve WEBHOOK_SECRET) app requests) r)
      as (one & -> & Hone & _).
    exists (new ++ one). rewrite Hnew, app_assoc. split; [reflexivity|].
    rewrite !length_app. cbn. lia.
Qed.

(** One served request, seen from the ledger: what it adds carries a
    recognised reason, and a redemption is never written as a credit. *)
Lemma serve_entry_reasons (WEBHOOK_SECRET : string) (app : App) (r : Request) :
  ∃ new, transactions (db (serve WEBHOOK_SECRET app r))
           = transactions (db app) ++ new ∧
         Forall (fun t => valid_reason (reason t) ∧
                          (reason t = "redeem" → amount t <= 0)) new.
Proof.
  assert (Hnone : ∀ l : list Transaction,
            ∃ new, l = l ++ new ∧
                   Forall (fun t => valid_reason (reason t) ∧
                                    (reason t = "redeem" → amount t <= 0)) new).
  { intros l. exists []. rewrite app_nil_r. split; [reflexivity|constructor]. }
  assert (Hone : ∀ (l : list Transaction) t,
            valid_reason (reason t) → (reason t = "redeem" → amount t <= 0) →
            ∃ new, l ++ [t] = l ++ new ∧
                   Forall (fun t => valid_reason (reason t) ∧
                                    (reason t = "redeem" → amount t <= 0)) new).
  { intros l t Hr Ha. exists [t]. split; [reflexivity|]. by constructor. }
  destruct r as [uid fresh_id now body | uid gw fresh_id now items requested m
                | uid fresh_id now body | fresh_id now d]; cbn [serve].
  - unfold earn_rewards.
    destruct (negb _); [apply Hnone|].
    destruct (tc_amount body <=? 0); [apply Hnone|].
    destruct (create_transaction _ _ _ _ _ _ _ _ _) as [[t db']|e] eqn:E;
      [|apply Hnone].
    apply create_transaction_ok_inv in E as (-> & -> & Hr & Hz).
    cbn [snd db with_db append_row transactions].
    apply Hone; [exact Hr | discriminate].
  - destruct (spend_rewards_cases app uid gw fresh_id now items requested m)
      as (_ & [(e & _ & ->) | (resp & t & _ & -> & _ & Ha & Hpos & Hrsn)]);
      [apply Hnone|].
    apply Hone; rewrite Hrsn; [|discriminate]. unfold valid_reason.
    apply (bool_decide_unpack _). vm_compute. exact I.
  - unfold redeem_rewards.
    destruct (negb _); [apply Hnone|].
    destruct (Z.leb_spec (tc_amount body) 0); [apply Hnone|].
    destruct (_ <? _); [apply Hnone|].
    destruct (create_transaction _ _ _ _ _ _ _ _ _) as [[t db']|e] eqn:E;
      [|apply Hnone].
    apply create_transaction_ok_inv in E as (-> & -> & Hr & Hz).
    cbn [snd db with_db append_row transactions].
    apply Hone; [exact Hr|]. intros _. cbn [new_row amount]. lia.
  - unfold stripe_webhook. cbn [negb].
    destruct (handle_stripe_webhook_cases WEBHOOK_SECRET (db app)
                (processed_events app) fresh_id now d)
      as [H | (t & H & [_ Ht] & _ & _ & Hnr & _)];
      destruct (handle_stripe_webhook _ _ _ _ _ _) as [[o db'] pe'];
      cbn [fst snd] in H; subst db';
      destruct o as [resp|[msg|key|st det|msg]]; cbn [snd db];
      solve [apply Hnone | by apply Hone].
Qed.

(** X2. Every entry of a ledger built by requests from the empty state
    carries one of the reasons earn, spend, redeem, and an entry whose
    reason is redeem is never a credit. *)
Theorem reachable_entries_well_formed
    (WEBHOOK_SECRET : string) (requests : list Request) :
  Forall (fun t => reason t ∈ ["earn"; "spend"; "redeem"] ∧
                   (reason t = "redeem" → amount t <= 0))
    (transactions (db (run WEBHOOK_SECRET requests))).
Proof.
  unfold run.
  induction requests as [|r requests IH] using rev_ind; [constructor|].
  rewrite foldl_app. cbn [foldl].
  destruct (serve_entry_reasons WEBHOOK_SECRET
              (foldl (serve WEBHOOK_SECRET) initial requests) r)
    as (one & -> & Hok).
  apply Forall_app. split; [exact IH | exact Hok].
Qed.

(** X3. A spend that fails — whatever the reason: a guard, the policy, the
    connected account, the authorization — writes nothing to the ledger and
    records no event. *)
Theorem failed_spend_writes_nothing (app : App) (uid : UUID) (gw : Gateway)
    (fresh_id : UUID) (now : Z) (items : list ItemData) (requested : Z)
    (merchant_id : option string) (e : Error) (app' : App) :
  spend_rewards app uid gw fresh_id now items requested merchant_id
    = (Err e, app') →
  transactions (db app') = transactions (db app) ∧
  processed_events app' = processed_events app ∧
  ∀ u, calculate_balance_from_ledger (db app') u
       = calculate_balance_from_ledger (db app) u.
Proof.
  intros Hrun.
  destruct (spend_rewards_cases app uid gw fresh_id now items requested
              merchant_id) as (Hpe & Hcases).
  rewrite Hrun in Hpe, Hcases. cbn [fst snd] in Hpe, Hcases.
  destruct Hcases as [(e' & _ & Htx) | (resp & t & Hr & _)]; [|discriminate].
  repeat split; [exact Htx | exact Hpe |].
  intros u. by apply balance_same_transactions.
Qed.

(** X3 at a funded account whose gateway refuses the payment intent. *)
Lemma failed_spend_writes_nothing_witness :
  ∃ app',
    spend_rewards funded_app 7
      {| account_create := None; payment_intent_create := None |}
      2 20 [declared "dairy" 600] 500 None
    = (Err (HTTPException 500 "Failed to authorize transaction with Stripe"),
       app') ∧
    calculate_balance_from_ledger (db app') 7 = 1000.
Proof.
  eexists. split; [vm_compute; reflexivity|].
  destruct (failed_spend_writes_nothing funded_app 7
              {| account_create := None; payment_intent_create := None |}
              2 20 [declared "dairy" 600] 500 None _ _ eq_refl)
    as (_ & _ & Hbal).
  rewrite Hbal. vm_compute. reflexivity.
Defined.

Lemma earn_redeem_step (WEBHOOK_SECRET : string) (app : App) (r : Request) :
  earn_or_redeem r →
  (∀ u, 0 <= calculate_balance_from_ledger (db app) u) →
  ∀ u, 0 <= calculate_balance_from_ledger (db (serve WEBHOOK_SECRET app r)) u.
Proof.
  intros Hr Hinv u.
  destruct r as [uid fresh_id now body | | uid fresh_id now body |];
    try destruct Hr; cbn [serve].
  - unfold earn_rewards.
    destruct (negb _); [apply Hinv|].
    destruct (Z.leb_spec (tc_amount body) 0); [apply Hinv|].
    destruct (create_transaction _ _ _ _ _ _ _ _ _) as [[t db']|e] eqn:E;
      [|apply Hinv].
    apply create_transaction_ok_inv in E as (-> & -> & _).
    cbn [snd db with_db]. rewrite balance_append_row.
    cbn [new_row user_id amount]. specialize (Hinv u).
    case_bool_decide; lia.
  - unfold redeem_rewards, get_user_balance.
    destruct (negb _); [apply Hinv|].
    destruct (Z.leb_spec (tc_amount body) 0); [apply Hinv|].
    destruct (Z.ltb_spec (calculate_balance_from_ledger (db app) uid)
                (tc_amount body)); [apply Hinv|].
    destruct (create_transaction _ _ _ _ _ _ _ _ _) as [[t db']|e] eqn:E;
      [|apply Hinv].
    apply create_transaction_ok_inv in E as (-> & -> & _).
    cbn [snd db with_db]. rewrite balance_append_row.
    cbn [new_row user_id amount]. specialize (Hinv u).
    case_bool_decide; [subst u|]; lia.
Qed.

(** X4. Served one at a time, earn and redeem requests never overdraw: after
    any sequence of them from the empty state, every balance is >= 0. *)
Theorem earn_redeem_never_overdraw
    (WEBHOOK_SECRET : string) (requests : list Request) :
  Forall earn_or_redeem requests →
  ∀ u, 0 <= calculate_balance_from_ledger (db (run WEBHOOK_SECRET requests)) u.
Proof.
  unfold run.
  induction requests as [|r requests IH] using rev_ind; intros Hall.
  - intros u. vm_compute. discriminate.
  - apply Forall_app in Hall as [Hall Hr]. apply Forall_inv in Hr.
    rewrite foldl_app. cbn [foldl].
    apply earn_redeem_step; [exact Hr | by apply IH].
Qed.

(** X4 at earn 10.00, redeem 4.00, redeem 7.00 (refused): 6.00 remain. *)
Lemma earn_redeem_never_overdraw_witness :
  let requests := [Earn 7 1 10 (body 1000 "earn");
                   Redeem 7 2 20 (body 400 "redeem");
                   Redeem 7 3 30 (body 700 "redeem")] in
  calculate_balance_from_ledger (db (run "whsec" requests)) 7 = 600 ∧
  0 <= calculate_balance_from_ledger (db (run "whsec" requests)) 7.
Proof.
  intros requests. split; [vm_compute; reflexivity|].
  apply (earn_redeem_never_overdraw "whsec" requests).
  repeat constructor.
Defined.

(** ** Reading the ledger *)

(** X5. Pages of the history fit together when the account's entries were
    written at pairwise different times: whatever the store answers, the
    page of [n] entries at [offset] followed by the page of [m] entries at
    [offset + n] is the page of [n + m] entries at [offset].  With or
    without ties, a page starting at or beyond the number of the account's
    entries is empty, and so is a page of limit 0. *)
Theorem history_pages_concatenate
    (db0 : Session) (uid : UUID) (n m offset : nat) :
  (distinct_times db0 uid →
   ∀ first second both,
     returns_history db0 uid n offset first →
     returns_history db0 uid m (offset + n) second →
     returns_history db0 uid (n + m) offset both →
     first ++ second = both) ∧
  ((length (filter (fun t => user_id t = uid) (transactions db0)) ≤ offset)%nat →
   ∀ page, returns_history db0 uid n offset page → page = []) ∧
  (∀ page, returns_history db0 uid 0 offset page → page = []).
Proof.
  split; [|split].
  - intros Hnd first second both (o1 & Ho1 & ->) (o2 & Ho2 & ->)
      (o & Ho & ->).
    rewrite <- (orders_by_created_at_desc_unique _ _ _ _ Hnd
                  (reflexivity _) Ho Ho1).
    rewrite <- (orders_by_created_at_desc_unique _ _ _ _ Hnd
                  (reflexivity _) Ho Ho2).
    rewrite <- drop_drop. apply take_take_drop.
  - intros Hlen page (o & [Hp _] & ->).
    rewrite drop_ge; [apply take_nil|].
    by rewrite (Permutation_length Hp).
  - intros page (o & _ & ->). apply take_0.
Qed.

(** X5 on a ledger with distinct creation times: one entry, then the one
    after it; and on the colliding ledger, a page beyond the end. *)
Lemma history_pages_concatenate_witness :
  (∀ first second both,
     returns_history spaced_db 7 1 0 first →
     returns_history spaced_db 7 1 1 second →
     returns_history spaced_db 7 2 0 both →
     first ++ second = both) ∧
  (∀ page, returns_history colliding_db 7 5 3 page → page = []).
Proof.
  destruct (history_pages_concatenate spaced_db 7 1 1 0) as (Hcat & _).
  destruct (history_pages_concatenate colliding_db 7 5 0 3) as (_ & Hend & _).
  split.
  - apply Hcat. apply (bool_decide_unpack _). vm_compute. exact I.
  - apply Hend. vm_compute. lia.
Defined.

Lemma order_by_newest_appended (rows : list Transaction) (t : Transaction) :
  Forall (fun x => created_at x < created_at t) rows →
  order_by_created_at_desc (rows ++ [t]) = t :: order_by_created_at_desc rows.
Proof.
  unfold order_by_created_at_desc. rewrite foldr_app. cbn [foldr insert_desc].
  induction 1 as [|x rows Hx _ IH]; [reflexivity|].
  cbn [foldr]. rewrite IH. cbn [insert_desc].
  destruct (Z.leb_spec (created_at t) (created_at x)); [lia|reflexivity].
Qed.

Lemma rows_of_append_row (db0 : Session) (t : Transaction) (u : UUID) :
  rows_of (append_row db0 t) u
  = rows_of db0 u ++ (if bool_decide (user_id t = u) then [t] else []).
Proof.
  unfold rows_of, append_row. cbn [transactions].
  rewrite filter_app, filter_cons, filter_nil.
  case_bool_decide; case_decide; done.
Qed.

(** X6. An entry appended with a creation time later than every entry the
    account already has is the first entry of the account's history:
    whatever the store answers for the first [limit + 1] entries after the
    append is the new entry in front of an answer it may give for the first
    [limit] entries before the append. *)
Theorem newest_entry_heads_history (db0 : Session) (fresh_id : UUID) (now : Z)
    (uid : UUID) (amt : Z) (rsn : string) (ref cat : option string)
    (md : list (string * JValue)) (t : Transaction) (db' : Session)
    (limit : nat) (page : list Transaction) :
  create_transaction db0 fresh_id now uid amt rsn ref cat md = Ok (t, db') →
  Forall (fun x => created_at x < now)
    (filter (fun x => user_id x = uid) (transactions db0)) →
  returns_history db' uid (S limit) 0 page →
  ∃ before,
    returns_history db0 uid limit 0 before ∧ page = t :: before.
Proof.
  intros Hc Hnew (o & [Hp Hs] & ->).
  apply create_transaction_ok_inv in Hc as (-> & -> & _).
  set (t := new_row fresh_id now uid amt rsn ref cat md) in *.
  rewrite rows_of_append_row in Hp. cbn [t new_row user_id] in Hp.
  rewrite bool_decide_eq_true_2 in Hp by reflexivity.
  fold t in Hp. rewrite Forall_forall in Hnew. fold (rows_of db0 uid) in Hnew.
  assert (Hp' : o ≡ₚ t :: rows_of db0 uid).
  { rewrite Hp. symmetry. apply Permutation_cons_append. }
  destruct o as [|x rest].
  { by apply Permutation_nil_cons in Hp'. }
  apply StronglySorted_inv in Hs as [Hrest Hx]. rewrite Forall_forall in Hx.
  assert (x = t) as ->.
  { assert (Hxin : x ∈ t :: rows_of db0 uid) by (rewrite <- Hp'; left).
    apply elem_of_cons in Hxin as [->|Hxin]; [reflexivity|].
    assert (Htin : t ∈ x :: rest) by (rewrite Hp'; left).
    apply elem_of_cons in Htin as [->|Htin]; [reflexivity|].
    specialize (Hnew _ Hxin). specialize (Hx _ Htin).
    cbn [t new_row created_at] in Hx. lia. }
  apply Permutation_cons_inv in Hp'.
  exists (take limit (drop 0 rest)). split.
  - exists rest. by split.
  - reflexivity.
Qed.

(** X6 at an account with one entry at time 10 and an append at time 20,
    for the answer of a store that keeps tied rows in insertion order. *)
Lemma newest_entry_heads_history_witness :
  ∃ before,
    returns_history (db funded_app) 7 2 0 before ∧
    get_transaction_history
      (append_row (db funded_app)
         (new_row 2 20 7 (-300) "redeem" None None [])) 7 3 0
    = new_row 2 20 7 (-300) "redeem" None None [] :: before.
Proof.
  apply (newest_entry_heads_history (db funded_app) 2 20 7 (-300) "redeem"
           None None []
           (new_row 2 20 7 (-300) "redeem" None None [])
           (append_row (db funded_app)
              (new_row 2 20 7 (-300) "redeem" None None []))
           2 _ eq_refl).
  - repeat constructor.
  - apply get_transaction_history_admissible.
Defined.

(** X7. Looking an entry up by the identifier it was created with returns
    that entry, provided the identifier was not in use; lookups of every other
    identifier are as before the append. *)
Theorem created_entry_found_by_id (db0 : Session) (fresh_id : UUID) (now : Z)
    (uid : UUID) (amt : Z) (rsn : string) (ref cat : option string)
    (md : list (string * JValue)) (t : Transaction) (db' : Session) :
  create_transaction db0 fresh_id now uid amt rsn ref cat md = Ok (t, db') →
  Forall (fun x => transaction_id x ≠ fresh_id) (transactions db0) →
  get_transaction_by_id db' fresh_id = Some t ∧
  transaction_id t = fresh_id ∧ user_id t = uid ∧ amount t = amt ∧
  reason t = rsn ∧ created_at t = now ∧
  ∀ id, id ≠ fresh_id →
        get_transaction_by_id db' id = get_transaction_by_id db0 id.
Proof.
  intros Hc Hfresh. apply create_transaction_ok_inv in Hc as (-> & -> & _).
  unfold get_transaction_by_id, append_row. cbn [transactions].
  split; [|repeat split].
  - rewrite filter_app.
    assert (filter (fun x => transaction_id x = fresh_id) (transactions db0)
            = []) as ->.
    { induction Hfresh as [|x l Hx _ IH]; [reflexivity|].
      rewrite filter_cons, IH. by case_decide. }
    rewrite filter_cons, filter_nil. cbn [new_row transaction_id].
    by case_decide.
  - intros id Hid. rewrite filter_app, filter_cons, filter_nil.
    cbn [new_row transaction_id]. case_decide; [congruence|].
    by rewrite app_nil_r.
Qed.

(** X7 at the funded account's ledger and the unused identifier 2. *)
Lemma created_entry_found_by_id_witness :
  ∃ t db',
    create_transaction (db funded_app) 2 20 7 500 "earn" None None []
      = Ok (t, db') ∧
    get_transaction_by_id db' 2 = Some t.
Proof.
  eexists _, _. split; [vm_compute; reflexivity|].
  refine (proj1 (created_entry_found_by_id (db funded_app) 2 20 7 500 "earn"
                   None None [] _ _ eq_refl _)).
  repeat constructor. discriminate.
Defined.

(** X8. An append to one account leaves every other account as it was: the
    same entries, hence the same balance, and the same pages among the
    answers the store may give to a history query. *)
Theorem append_leaves_other_accounts (db0 : Session) (fresh_id : UUID)
    (now : Z) (uid : UUID) (amt : Z) (rsn : string) (ref cat : option string)
    (md : list (string * JValue)) (t : Transaction) (db' : Session) (u : UUID) :
  create_transaction db0 fresh_id now uid amt rsn ref cat md = Ok (t, db') →
  u ≠ uid →
  filter (fun x => user_id x = u) (transactions db')
    = filter (fun x => user_id x = u) (transactions db0) ∧
  calculate_balance_from_ledger db' u = calculate_balance_from_ledger db0 u ∧
  ∀ limit offset page,
    returns_history db' u limit offset page
    ↔ returns_history db0 u limit offset page.
Proof.
  intros Hc Hu. apply create_transaction_ok_inv in Hc as (-> & -> & _).
  assert (Hrows : rows_of (append_row db0
                    (new_row fresh_id now uid amt rsn ref cat md)) u
                  = rows_of db0 u).
  { rewrite rows_of_append_row. cbn [new_row user_id].
    rewrite bool_decide_eq_false_2 by congruence. apply app_nil_r. }
  split; [exact Hrows|]. split.
  - unfold calculate_balance_from_ledger. by rewrite Hrows.
  - intros limit offset page. unfold returns_history. by rewrite Hrows.
Qed.

(** X8 at an earn of account 8 beside the funded account 7. *)
Lemma append_leaves_other_accounts_witness :
  calculate_balance_from_ledger
    (append_row (db funded_app) (new_row 2 20 8 500 "earn" None None [])) 7
  = 1000.
Proof.
  rewrite (proj1 (proj2 (append_leaves_other_accounts (db funded_app) 2 20 8
                    500 "earn" None None []
                    (new_row 2 20 8 500 "earn" None None [])
                    (append_row (db funded_app)
                       (new_row 2 20 8 500 "earn" None None []))
                    7 eq_refl ltac:(discriminate)))).
  vm_compute. reflexivity.
Defined.

(** ** More on the classifier *)

(** X9. Classifying the same item again right away gives the same category
    and leaves the cache as the first call left it. *)
Theorem classify_item_repeatable
    (cache : gmap string string) (upc sku product_name category : option string) :
  let r := UPCClassifier.classify_item cache upc sku product_name category in
  UPCClassifier.classify_item r.2 upc sku product_name category = r.
Proof.
  cbv zeta. unfold UPCClassifier.classify_item.
  destruct (truthy category && bool_decide _); [reflexivity|].
  destruct (truthy (py_or upc sku)).
  - destruct (cache !! str_of (py_or upc sku)) as [cached|] eqn:Hc; cbn [snd].
    + by rewrite Hc.
    + destruct (if truthy product_name then _ else _) as [cat|];
        cbn [snd].
      * by rewrite lookup_insert_eq.
      * by rewrite Hc.
  - by destruct (if truthy product_name then _ else _) as [cat|].
Qed.

Lemma cache_from_keeps (cache : gmap string string) (calls : list Call)
    (i v : string) :
  cache !! i = Some v → cache_from cache calls !! i = Some v.
Proof.
  unfold cache_from. revert cache.
  induction calls as [|[[[upc sku] name] cat] calls IH]; intros cache Hc;
    [exact Hc|].
  cbn [foldl]. apply IH. unfold call.
  destruct (classify_item_cache_step cache upc sku name cat)
    as [-> | (j & n & Hnone & -> & _)]; [exact Hc|].
  rewrite lookup_insert_ne; [exact Hc|]. congruence.
Qed.

(** X10. The first classification of an identifier sticks: an entry of the
    cache survives every later call unchanged, and from then on every item
    carrying that identifier and no valid declared category is answered with
    the cached category, whatever its name says. *)
Theorem first_classification_sticks
    (cache : gmap string string) (calls : list Call) (i v : string)
    (upc sku product_name category : option string) :
  cache !! i = Some v →
  let later := cache_from cache calls in
  later !! i = Some v ∧
  (py_or upc sku = Some i → i ≠ "" → ¬ declared_valid category →
   UPCClassifier.classify_item later upc sku product_name category
   = (v, later)).
Proof.
  intros Hc later.
  assert (Hl : later !! i = Some v) by by apply cache_from_keeps.
  split; [exact Hl|]. intros Hi Hne Hnd.
  by apply classify_item_cache_hit with i.
Qed.

(** X10 at the identifier X, first seen on a beer and later on milk. *)
Lemma first_classification_sticks_witness :
  let c1 := (UPCClassifier.classify_item ∅ (Some "X") None (Some "Beer") None).2 in
  let later := cache_from c1 [(Some "Y", None, Some "Cigar box", None)] in
  UPCClassifier.classify_item later (Some "X") None (Some "Whole Milk") None
  = ("alcohol", later).
Proof.
  intros c1 later.
  destruct (first_classification_sticks c1
              [(Some "Y", None, Some "Cigar box", None)] "X" "alcohol"
              (Some "X") None (Some "Whole Milk") None) as (_ & Hhit).
  - vm_compute. reflexivity.
  - apply Hhit; [reflexivity | discriminate |].
    intros (c & Hc & _). discriminate Hc.
Defined.

Lemma lower_ascii_idempotent (a : ascii) :
  lower_ascii (lower_ascii a) = lower_ascii a.
Proof.
  destruct a as [[] [] [] [] [] [] [] []]; vm_compute; reflexivity.
Qed.

Lemma lower_idempotent (s : string) : lower (lower s) = lower s.
Proof.
  induction s as [|a s IH]; [reflexivity|].
  cbn [lower]. by rewrite lower_ascii_idempotent, IH.
Qed.

Lemma truthy_lower (s : string) : truthy (Some (lower s)) = truthy (Some s).
Proof. destruct s; reflexivity. Qed.

(** X11. Classification does not depend on the letter case of the product
    name: an item and the same item with its name lowercased get the same
    category and leave the same cache. *)
Theorem classify_item_ignores_case
    (cache : gmap string string) (upc sku category : option string)
    (name : string) :
  UPCClassifier.classify_item cache upc sku (Some (lower name)) category
  = UPCClassifier.classify_item cache upc sku (Some name) category.
Proof.
  unfold UPCClassifier.classify_item.
  by rewrite truthy_lower, !str_of_Some, lower_idempotent.
Qed.

(** ** More on the policy engine *)

Lemma check_static (c : gmap string string) (items : list ItemData) :
  (within_precision items →
   (check_transaction_eligibility c items).1.2 = static_total c items) ∧
  ((check_transaction_eligibility c items).1.1.1 = APPROVE
   ↔ static_denied c items = 0%nat) ∧
  ((check_transaction_eligibility c items).1.1.1 = DENY
   ↔ static_denied c items ≠ 0%nat ∧ static_denied c items = length items).
Proof.
  destruct (check_transaction_eligibility_spec c items)
    as (b & c' & -> & Hf).
  destruct (breakdown_static _ _ _ Hf) as (Ht & Hd & Hl). cbn [fst snd].
  destruct (decide_decision_cases (denied_of b) b) as (Ha & Hde & _).
  rewrite <- Hd, <- Hl. split; [|done].
  intros Hw. by rewrite (accumulated_total_exact _ _ _ Hf Hw).
Qed.


Lemma static_denied_zero (c : gmap string string) (items : list ItemData) :
  static_denied c items = 0%nat
  ↔ Forall (fun d => eligible_under c d = true) items.
Proof.
  unfold static_denied. induction items as [|d items IH].
  - split; [constructor|reflexivity].
  - rewrite filter_cons, Forall_cons. destruct (eligible_under c d).
    + rewrite decide_False by discriminate. rewrite IH. tauto.
    + rewrite decide_True by reflexivity. cbn [length].
      split; [discriminate|]. intros [? _]. discriminate.
Qed.



Lemma eligible_under_declared (c : gmap string string) (d : ItemData) :
  cache_ok c →
  (eligible_under c d = true ↔ declared_allowed d).
Proof.
  intros Hok. unfold eligible_under, build_item, Item_init, declared_allowed.
  destruct (truthy (d_category d)) eqn:Ht; cbn [fst is_eligible].
  - apply truthy_inv in Ht as (cat & -> & _). rewrite str_of_Some.
    rewrite is_eligible_allowed, bool_decide_eq_true. split.
    + intros H. by exists cat.
    + by intros (c' & [= <-] & H).
  - destruct (UPCClassifier.classify_item c _ _ _ None) as [cat c'] eqn:E.
    cbn [fst is_eligible].
    change cat with (fst (cat, c')). rewrite <- E.
    rewrite classify_item_eligibility by exact Hok. split; [discriminate|].
    intros (c0 & Hc0 & Hin). rewrite Hc0 in Ht.
    assert (truthy (Some c0) = true); [|congruence].
    apply truthy_Some. intros ->. apply empty_not_a_category.
    apply elem_of_union. by left.
Qed.

(** X13. On a cache that holds only pattern keys (every cache a classifier
    can build from empty), an item without a declared allow-set category is
    always denied, whatever its name and identifiers: a basket is approved
    exactly when every item declares a category of the allow-set, and it is
    denied outright exactly when no item does (and there is one). *)
Theorem approval_needs_declared_categories
    (cache : gmap string string) (items : list ItemData) :
  cache_ok cache →
  ((check_transaction_eligibility cache items).1.1.1 = APPROVE
   ↔ Forall declared_allowed items) ∧
  ((check_transaction_eligibility cache items).1.1.1 = DENY
   ↔ items ≠ [] ∧ Forall (fun d => ¬ declared_allowed d) items).
Proof.
  intros Hok. destruct (check_static cache items) as (_ & -> & ->).
  split.
  - rewrite static_denied_zero. apply Forall_iff. intros d.
    by apply eligible_under_declared.
  - unfold static_denied.
    assert (Hall : length (filter (fun d => eligible_under cache d = false) items)
                   = length items
                   ↔ Forall (fun d => ¬ declared_allowed d) items).
    { induction items as [|d items IH]; [split; [constructor|reflexivity]|].
      rewrite filter_cons, Forall_cons.
      pose proof (eligible_under_declared cache d Hok) as Hd.
      pose proof (length_filter (fun d => eligible_under cache d = false) items).
      destruct (eligible_under cache d).
      - rewrite decide_False by discriminate. cbn [length].
        split; [lia|]. intros [Hn _]. destruct Hn. by apply Hd.
      - rewrite decide_True by reflexivity. cbn [length].
        rewrite <- IH. split.
        + intros [= ->]. split; [|reflexivity]. intros Hc. apply Hd in Hc.
          discriminate.
        + intros [_ ->]. reflexivity. }
    rewrite Hall. split.
    + intros [Hnz Hf]. split; [|exact Hf]. intros ->. by apply Hnz.
    + intros [Hne Hf]. split; [|exact Hf].
      apply Hall in Hf. rewrite Hf. by destruct items.
Qed.

(** X13 at the empty cache: a basket of declared dairy and bread is approved;
    adding an item with a name and an identifier but no category is not. *)
Lemma approval_needs_declared_categories_witness :
  (check_transaction_eligibility ∅
     [declared "dairy" 350; declared "bread" 200]).1.1.1 = APPROVE ∧
  (check_transaction_eligibility ∅
     [declared "dairy" 350; undeclared "0123" "Fresh Apples" 200]).1.1.1
  ≠ APPROVE.
Proof.
  assert (Hok : cache_ok ∅) by (intros i v; by rewrite lookup_empty).
  split.
  - apply (proj1 (approval_needs_declared_categories ∅ _ Hok)).
    repeat constructor; eexists; (split; [reflexivity|]);
      apply (bool_decide_unpack _); vm_compute; exact I.
  - intros H.
    apply (proj1 (approval_needs_declared_categories ∅ _ Hok)) in H.
    apply Forall_cons in H as [_ H]. apply Forall_inv in H.
    destruct H as (c & Hc & _). discriminate Hc.
Defined.

(** X14. The single-item check and the basket check agree on eligibility on
    every cache that holds only pattern keys: both flag an item eligible
    exactly when its declared category is in the allow-set.  (They can differ
    in the category they report: the basket keeps a declared category outside
    the vocabulary, the single-item check classifies further.) *)
Theorem single_item_check_agrees_with_basket
    (cache : gmap string string) (upc sku product_name category : option string)
    (price quantity : Z) :
  cache_ok cache →
  let single := check_item_eligibility cache upc sku product_name category in
  let item := (Item_init cache upc sku product_name category price quantity).1 in
  single.1.1 = is_eligible item ∧
  single.1.1 = UPCClassifier.is_eligible single.1.2 ∧
  (single.1.1 = true ↔ ∃ c, category = Some c ∧ c ∈ ALLOWED_CATEGORIES).
Proof.
  intros Hok single item.
  assert (Hs : single.1.1
               = truthy category && UPCClassifier.is_eligible (str_of category)).
  { subst single. unfold check_item_eligibility.
    destruct (UPCClassifier.classify_item cache _ _ _ _) as [cat c'] eqn:E.
    cbn [fst]. change cat with (fst (cat, c')). rewrite <- E.
    by apply classify_item_eligibility. }
  assert (Hi : is_eligible item
               = truthy category && UPCClassifier.is_eligible (str_of category)).
  { subst item. unfold Item_init.
    destruct (truthy category); cbn [fst is_eligible andb]; [reflexivity|].
    destruct (UPCClassifier.classify_item cache _ _ _ None) as [cat c'] eqn:E.
    cbn [fst is_eligible]. change cat with (fst (cat, c')). rewrite <- E.
    by rewrite classify_item_eligibility. }
  split; [congruence|]. split.
  - subst single. unfold check_item_eligibility.
    by destruct (UPCClassifier.classify_item cache _ _ _ _).
  - rewrite Hs, andb_true_iff, is_eligible_allowed, bool_decide_eq_true. split.
    + intros [Ht Hin]. apply truthy_inv in Ht as (c & -> & _). by exists c.
    + intros (c & -> & Hin). split; [|exact Hin].
      apply truthy_Some. intros ->. apply empty_not_a_category.
      apply elem_of_union. by left.
Qed.

(** X14 at an item declared "toys" and named after beer: both checks deny;
    the reported categories are "alcohol" and "toys". *)
Lemma single_item_check_agrees_with_basket_witness :
  (check_item_eligibility ∅ None None (Some "Root Beer") (Some "toys")).1
  = (false, "alcohol") ∧
  PolicyEngine.category
    (Item_init ∅ None None (Some "Root Beer") (Some "toys") 100 1).1 = "toys" ∧
  is_eligible (Item_init ∅ None None (Some "Root Beer") (Some "toys") 100 1).1
  = false.
Proof.
  assert (Hok : cache_ok ∅) by (intros i v; by rewrite lookup_empty).
  destruct (single_item_check_agrees_with_basket ∅ None None (Some "Root Beer")
              (Some "toys") 100 1 Hok) as (Hagree & _).
  split; [vm_compute; reflexivity|]. split; [vm_compute; reflexivity|].
  rewrite <- Hagree. vm_compute. reflexivity.
Defined.

(** ** More on the webhook handler *)

Lemma app_eta (app : App) :
  {| db := db app; category_cache := category_cache app;
     processed_events := processed_events app |} = app.
Proof. by destruct app. Qed.

(** X15. A delivery that is not authenticated — no signature header, no
    configured secret, or a signature the verification rejects — is answered
    with a 400 and changes nothing: no ledger entry, no recorded event. *)
Theorem unauthenticated_delivery_rejected
    (WEBHOOK_SECRET : string) (app : App) (fresh_id : UUID) (now : Z)
    (stripe_signature : bool) (d : Delivery) :
  stripe_signature = false ∨ WEBHOOK_SECRET = "" ∨ signature_valid d = false →
  ∃ detail,
    stripe_webhook WEBHOOK_SECRET app fresh_id now stripe_signature d
    = (Err (HTTPException 400 detail), app).
Proof.
  intros Hbad. unfold stripe_webhook, handle_stripe_webhook.
  destruct stripe_signature; cbn [negb]; [|by eexists].
  destruct (String.eqb_spec WEBHOOK_SECRET "") as [->|Hs].
  { rewrite app_eta. by eexists. }
  destruct (signature_valid d); cbn [negb].
  - destruct Hbad as [? | [? | ?]]; congruence.
  - rewrite app_eta. by eexists.
Qed.

(** X15 at a settlement event whose signature does not verify. *)
Lemma unauthenticated_delivery_rejected_witness :
  stripe_webhook "whsec" funded_app 2 20 true
    {| signature_valid := false; event_id := "evt_1";
       event_type := "payment_intent.succeeded";
       data_object := data_object (settlement "evt_1") |}
  = (Err (HTTPException 400 "Invalid webhook signature"), funded_app).
Proof.
  destruct (unauthenticated_delivery_rejected "whsec" funded_app 2 20 true
              {| signature_valid := false; event_id := "evt_1";
                 event_type := "payment_intent.succeeded";
                 data_object := data_object (settlement "evt_1") |}
              ltac:(right; right; reflexivity)) as (detail & H).
  rewrite H. vm_compute in H. by injection H as <-.
Defined.

(** X16. Only settlement-succeeded and transfer-created events can touch the
    ledger.  An authenticated, not yet recorded event of any other type, a
    settlement without a user id in its metadata, and a transfer whose
    destination belongs to no connected account are all reported as
    "success", recorded as processed, and leave the database as it was. *)
Theorem events_without_ledger_effect
    (WEBHOOK_SECRET : string) (db0 : Session) (seen : gmap string bool)
    (fresh_id : UUID) (now : Z) (d : Delivery) :
  WEBHOOK_SECRET ≠ "" → signature_valid d = true → event_id d ∉ dom seen →
  (event_type d ≠ "payment_intent.succeeded" ∧
   event_type d ≠ "transfer.created")
  ∨ (event_type d = "payment_intent.succeeded" ∧
     obj_user_id (data_object d) = NoUserId)
  ∨ (event_type d = "transfer.created" ∧
     ∀ dest, obj_destination (data_object d) = Some dest →
             Forall (fun a => stripe_account_id a ≠ dest) (stripe_accounts db0)) →
  handle_stripe_webhook WEBHOOK_SECRET db0 seen fresh_id now d
  = (success d, db0, <[event_id d := true]> seen).
Proof.
  intros Hs Hv Hnew Hcase. unfold handle_stripe_webhook.
  destruct (String.eqb_spec WEBHOOK_SECRET ""); [contradiction|].
  rewrite Hv, bool_decide_eq_false_2 by exact Hnew. cbn [negb].
  assert (dispatch db0 fresh_id now d = Ok db0) as ->; [|reflexivity].
  unfold dispatch.
  destruct Hcase as [[Hn1 Hn2] | [[Hty Hu] | [Hty Hdest]]].
  - destruct (String.eqb_spec (event_type d) "payment_intent.succeeded");
      [contradiction|].
    destruct (String.eqb (event_type d) "payment_intent.payment_failed");
      [reflexivity|].
    destruct (String.eqb_spec (event_type d) "transfer.created");
      [contradiction|].
    by destruct (String.eqb (event_type d) "account.updated").
  - rewrite Hty. cbn [String.eqb Ascii.eqb Bool.eqb].
    unfold _handle_payment_succeeded. by rewrite Hu.
  - rewrite Hty. cbn [String.eqb Ascii.eqb Bool.eqb].
    unfold _handle_transfer_created.
    destruct (obj_destination (data_object d)) as [dest|]; [|reflexivity].
    assert (filter (fun a => stripe_account_id a = dest) (stripe_accounts db0)
            = []) as ->; [|reflexivity].
    specialize (Hdest dest eq_refl).
    induction Hdest as [|a l Ha _ IH]; [reflexivity|].
    rewrite filter_cons, IH. by case_decide.
Qed.

(** X16 at a payment-failed event. *)
Lemma events_without_ledger_effect_witness :
  let d := {| signature_valid := true; event_id := "evt_2";
              event_type := "payment_intent.payment_failed";
              data_object := data_object (settlement "evt_2") |} in
  handle_stripe_webhook "whsec" (db funded_app) ∅ 2 20 d
  = (success d, db funded_app, <[event_id d := true]> ∅).
Proof.
  intros d.
  apply events_without_ledger_effect; [discriminate | reflexivity | |].
  - rewrite dom_empty_L. apply not_elem_of_empty.
  - left. split; discriminate.
Defined.

Lemma serve_keeps_processed (WEBHOOK_SECRET : string) (app : App) (r : Request)
    (id : string) :
  id ∈ dom (processed_events app) →
  id ∈ dom (processed_events (serve WEBHOOK_SECRET app r)).
Proof.
  intros Hin.
  destruct r as [uid fresh_id now b | uid gw fresh_id now items requested m
                | uid fresh_id now b | fresh_id now d]; cbn [serve].
  - unfold earn_rewards. by repeat case_match.
  - destruct (spend_rewards_cases app uid gw fresh_id now items requested m)
      as (-> & _). exact Hin.
  - unfold redeem_rewards. by repeat case_match.
  - unfold stripe_webhook, handle_stripe_webhook. cbn [negb].
    destruct (String.eqb WEBHOOK_SECRET ""); [exact Hin|].
    destruct (signature_valid d); [|exact Hin]. cbn [negb].
    case_bool_decide; [exact Hin|].
    destruct (dispatch _ _ _ _) as [db'|[msg|key|st det|msg]];
      cbn [snd processed_events]; try exact Hin.
    rewrite dom_insert_L. by apply elem_of_union_r.
Qed.

(** X17. Idempotency survives interleaving: once an event identifier is
    recorded, then after any further requests of any kind a new delivery of
    that event is answered "already_processed" and changes neither the
    ledger nor any other state. *)
Theorem recorded_event_never_reapplied
    (WEBHOOK_SECRET : string) (app : App) (requests : list Request)
    (fresh_id : UUID) (now : Z) (d : Delivery) :
  WEBHOOK_SECRET ≠ "" → signature_valid d = true →
  event_id d ∈ dom (processed_events app) →
  let later := foldl (serve WEBHOOK_SECRET) app requests in
  stripe_webhook WEBHOOK_SECRET later fresh_id now true d
  = (Ok {| status := "already_processed"; resp_event_id := event_id d |},
     later).
Proof.
  intros Hs Hv Hin later.
  assert (Hl : event_id d ∈ dom (processed_events later)).
  { subst later. induction requests as [|r requests IH] using rev_ind;
      [exact Hin|].
    rewrite foldl_app. cbn [foldl]. by apply serve_keeps_processed. }
  unfold stripe_webhook. cbn [negb].
  rewrite handle_seen by assumption. unfold already_processed.
  by rewrite app_eta.
Qed.

(** X17 at a settlement delivered, followed by an earn, and delivered
    again. *)
Lemma recorded_event_never_reapplied_witness :
  let app := serve "whsec" funded_app
               (WebhookDelivery 2 20 (settlement "evt_1")) in
  let later := foldl (serve "whsec") app [Earn 7 3 30 (body 100 "earn")] in
  calculate_balance_from_ledger (db later) 7 = 600 ∧
  calculate_balance_from_ledger
    (db (stripe_webhook "whsec" later 4 40 true (settlement "evt_1")).2) 7
  = 600.
Proof.
  intros app later. split; [vm_compute; reflexivity|].
  subst later.
  rewrite (recorded_event_never_reapplied "whsec" app
             [Earn 7 3 30 (body 100 "earn")] 4 40 (settlement "evt_1")).
  - vm_compute. reflexivity.
  - discriminate.
  - reflexivity.
  - apply (bool_decide_unpack _). vm_compute. exact I.
Defined.

(** X18. A transfer-created event whose destination is the connected account
    of a user credits that user: the event is reported as "success" and
    recorded, one "earn" entry carrying the transfer id is appended, and the
    user's balance rises by the transferred amount. *)
Theorem transfer_credits_account_owner
    (WEBHOOK_SECRET : string) (db0 : Session) (seen : gmap string bool)
    (fresh_id : UUID) (now : Z) (d : Delivery)
    (dest tr_id : string) (amt : Z) (acct : StripeAccount) :
  WEBHOOK_SECRET ≠ "" → signature_valid d = true → event_id d ∉ dom seen →
  event_type d = "transfer.created" →
  obj_destination (data_object d) = Some dest →
  obj_amount (data_object d) = Some amt → obj_id (data_object d) = Some tr_id →
  amt ≠ 0 →
  head (filter (fun a => stripe_account_id a = dest) (stripe_accounts db0))
    = Some acct →
  ∃ t,
    handle_stripe_webhook WEBHOOK_SECRET db0 seen fresh_id now d
    = (success d, append_row db0 t, <[event_id d := true]> seen) ∧
    user_id t = sa_user_id acct ∧ amount t = amt ∧ reason t = "earn" ∧
    stripe_ref t = Some tr_id ∧
    calculate_balance_from_ledger (append_row db0 t) (sa_user_id acct)
    = calculate_balance_from_ledger db0 (sa_user_id acct) + amt.
Proof.
  intros Hs Hv Hnew Hty Hdest Hamt Hid Hnz Hacct.
  unfold handle_stripe_webhook.
  destruct (String.eqb_spec WEBHOOK_SECRET ""); [contradiction|].
  rewrite Hv, bool_decide_eq_false_2 by exact Hnew. cbn [negb].
  unfold dispatch. rewrite Hty. cbn [String.eqb Ascii.eqb Bool.eqb].
  unfold _handle_transfer_created. rewrite Hdest, Hacct, Hamt, Hid.
  destruct (create_transaction_cases db0 fresh_id now (sa_user_id acct) amt
              "earn" (Some tr_id) None [("event_type", JStr "transfer.created")])
    as [(_ & _ & ->) | [(Hr & _) | (_ & Hz & _)]].
  - eexists. split; [reflexivity|].
    rewrite balance_append_row. cbn [new_row user_id amount reason stripe_ref].
    rewrite bool_decide_eq_true_2 by reflexivity. done.
  - destruct Hr. unfold valid_reason.
    apply (bool_decide_unpack _). vm_compute. exact I.
  - contradiction.
Qed.

(** X18 at a transfer of 2.50 to the connected account of user 7. *)
Lemma transfer_credits_account_owner_witness :
  let d := {| signature_valid := true; event_id := "evt_3";
              event_type := "transfer.created";
              data_object := {| obj_id := Some "tr_1"; obj_user_id := NoUserId;
                                obj_amount := Some 250;
                                obj_destination := Some "acct_1" |} |} in
  calculate_balance_from_ledger
    (handle_stripe_webhook "whsec" (db funded_app) ∅ 2 20 d).1.2 7 = 1250.
Proof.
  intros d.
  assert (Hnew : event_id d ∉ dom (∅ : gmap string bool))
    by (rewrite dom_empty_L; apply not_elem_of_empty).
  destruct (transfer_credits_account_owner "whsec" (db funded_app) ∅ 2 20 d
              "acct_1" "tr_1" 250
              {| sa_user_id := 7; stripe_account_id := "acct_1";
                 is_active := true |}
              ltac:(discriminate) eq_refl Hnew eq_refl eq_refl eq_refl eq_refl
              ltac:(discriminate) eq_refl)
    as (t & Hh & _ & _ & _ & _ & Hb).
  rewrite Hh. cbn [fst snd]. etransitivity; [exact Hb|].
  vm_compute. reflexivity.
Defined.

(** X19. The reconciler does not recognise a payment intent that the spend
    route has already recorded: when the settlement event of the intent a
    successful spend created arrives (same intent id, same user, same
    amount), a second debit with the same reference is appended, and the
    account ends up debited twice. *)
Theorem settlement_after_spend_debits_twice
    (WEBHOOK_SECRET : string) (app : App) (uid : UUID) (gw : Gateway)
    (id1 id2 : UUID) (now1 now2 : Z) (items : list ItemData) (requested : Z)
    (merchant_id : option string) (resp : SpendResponse) (app' : App)
    (d : Delivery) (pi_id : string) :
  spend_rewards app uid gw id1 now1 items requested merchant_id
    = (Ok resp, app') →
  r_payment_intent_id resp = Some pi_id →
  WEBHOOK_SECRET ≠ "" → signature_valid d = true →
  event_id d ∉ dom (processed_events app) →
  event_type d = "payment_intent.succeeded" →
  data_object d = {| obj_id := Some pi_id; obj_user_id := UserId uid;
                     obj_amount := Some (r_amount resp);
                     obj_destination := None |} →
  let out := stripe_webhook WEBHOOK_SECRET app' id2 now2 true d in
  out.1 = success d ∧
  calculate_balance_from_ledger (db out.2) uid
  = calculate_balance_from_ledger (db app) uid - 2 * r_amount resp ∧
  ∃ t1 t2, transactions (db out.2) = transactions (db app) ++ [t1; t2] ∧
           amount t1 = - r_amount resp ∧ amount t2 = - r_amount resp ∧
           stripe_ref t2 = Some pi_id.
Proof.
  intros Hrun Hpi Hs Hv Hnew Hty Hobj out.
  destruct (spend_rewards_cases app uid gw id1 now1 items requested
              merchant_id) as (Hpe & Hcases).
  rewrite Hrun in Hpe, Hcases. cbn [fst snd] in Hpe, Hcases.
  destruct Hcases as [(e & He & _) | (resp' & t1 & [= <-] & Htx & Hu & Ha & Hpos & _)];
    [discriminate|].
  assert (Hnz : r_amount resp ≠ 0) by lia.
  rewrite <- Hpe in Hnew.
  destruct (settlement_debit WEBHOOK_SECRET (db app') (processed_events app')
              id2 now2 d uid (r_amount resp) pi_id Hs Hv Hnew Hty Hobj Hnz)
    as (t2 & Hh & Hu2 & Ha2 & _).
  assert (Href : stripe_ref t2 = Some pi_id).
  { unfold handle_stripe_webhook in Hh.
    destruct (String.eqb_spec WEBHOOK_SECRET ""); [contradiction|].
    rewrite Hv, bool_decide_eq_false_2 in Hh by exact Hnew. cbn [negb] in Hh.
    unfold dispatch in Hh. rewrite Hty, Hobj in Hh.
    cbn [String.eqb Ascii.eqb Bool.eqb] in Hh.
    unfold _handle_payment_succeeded in Hh.
    cbn [obj_user_id obj_amount obj_id] in Hh.
    destruct (create_transaction _ _ _ _ _ _ _ _ _) as [[t db']|e] eqn:E;
      [|discriminate].
    apply create_transaction_ok_inv in E as (-> & -> & _).
    injection Hh as Hh. apply app_inv_head in Hh.
    by injection Hh as <-. }
  subst out. unfold stripe_webhook. cbn [negb]. rewrite Hh.
  cbn [fst snd db]. split; [reflexivity|]. split.
  - rewrite balance_append_row, bool_decide_eq_true_2 by exact Hu2.
    transitivity (calculate_balance_from_ledger (append_row (db app) t1) uid
                  + amount t2).
    + f_equal. by apply balance_same_transactions.
    + rewrite balance_append_row, bool_decide_eq_true_2 by exact Hu. lia.
  - exists t1, t2. cbn [append_row transactions]. rewrite Htx, <- app_assoc.
    done.
Qed.

(** X19 at the funded account: 5.00 spent on dairy, then the settlement of
    the same intent; 10.00 are gone. *)
Lemma settlement_after_spend_debits_twice_witness :
  let spent := spend_rewards funded_app 7 authorizing 2 20
                 [declared "dairy" 600] 500 None in
  let d := {| signature_valid := true; event_id := "evt_9";
              event_type := "payment_intent.succeeded";
              data_object := {| obj_id := Some "pi_1"; obj_user_id := UserId 7;
                                obj_amount := Some 500;
                                obj_destination := None |} |} in
  calculate_balance_from_ledger
    (db (stripe_webhook "whsec" spent.2 3 30 true d).2) 7 = 0.
Proof.
  intros spent d.
  assert (Hrun : ∃ resp, spent = (Ok resp, spent.2) ∧ r_amount resp = 500
                         ∧ r_payment_intent_id resp = Some "pi_1").
  { eexists. vm_compute. repeat split. }
  destruct Hrun as (resp & Hrun & Hamt & Hpi).
  assert (Hnew : event_id d ∉ dom (processed_events funded_app))
    by (cbn; rewrite dom_empty_L; apply not_elem_of_empty).
  assert (Hobj : data_object d
                 = {| obj_id := Some "pi_1"; obj_user_id := UserId 7;
                      obj_amount := Some (r_amount resp);
                      obj_destination := None |}) by (by rewrite Hamt).
  destruct (settlement_after_spend_debits_twice "whsec" funded_app 7
              authorizing 2 3 20 30 [declared "dairy" 600] 500 None resp
              spent.2 d "pi_1" Hrun Hpi ltac:(discriminate) eq_refl Hnew
              eq_refl Hobj) as (_ & Hbal & _).
  rewrite Hbal, Hamt. vm_compute. reflexivity.
Defined.

(** ** Connected accounts *)

(** X20. Creating a connected account is get-or-create: for a user without
    any account row, a successful gateway call stores an active account under
    the returned id; from then on the account is found by
    [get_stripe_account], and creating again — even with a gateway that now
    fails — returns the stored account without touching the database. *)
Theorem create_stripe_account_get_or_create
    (db0 : Session) (gw gw' : Gateway) (uid : UUID) (account_id : string) :
  filter (fun a => sa_user_id a = uid) (stripe_accounts db0) = [] →
  account_create gw = Some account_id →
  let acct := {| sa_user_id := uid; stripe_account_id := account_id;
                 is_active := true |} in
  let db1 := (create_stripe_account db0 gw uid).2 in
  create_stripe_account db0 gw uid = (Ok acct, db1) ∧
  stripe_accounts db1 = stripe_accounts db0 ++ [acct] ∧
  transactions db1 = transactions db0 ∧
  get_stripe_account db1 uid = Some acct ∧
  create_stripe_account db1 gw' uid = (Ok acct, db1).
Proof.
  intros Hnone Hgw acct db1.
  assert (Hc : create_stripe_account db0 gw uid
               = (Ok acct, {| transactions := transactions db0;
                              stripe_accounts := stripe_accounts db0 ++ [acct] |})).
  { unfold create_stripe_account. by rewrite Hnone, Hgw. }
  subst db1. rewrite Hc. cbn [snd stripe_accounts transactions].
  split; [reflexivity|]. split; [reflexivity|]. split; [reflexivity|].
  assert (Hact : filter (fun a => sa_user_id a = uid ∧ is_active a = true)
                   (stripe_accounts db0) = []).
  { revert Hnone. generalize (stripe_accounts db0).
    induction l as [|a l IH]; [reflexivity|].
    rewrite !filter_cons. case_decide as Ha; [discriminate|].
    intros Hl. rewrite decide_False by tauto. by apply IH. }
  split.
  - unfold get_stripe_account. cbn [stripe_accounts].
    rewrite filter_app, Hact, filter_cons, filter_nil.
    by rewrite decide_True.
  - unfold create_stripe_account. cbn [stripe_accounts].
    rewrite filter_app, Hnone, filter_cons, filter_nil.
    by rewrite decide_True.
Qed.

(** X20 at the empty database. *)
Lemma create_stripe_account_get_or_create_witness :
  let gw := {| account_create := Some "acct_7"; payment_intent_create := None |} in
  get_stripe_account (create_stripe_account empty_db gw 7).2 7
  = Some {| sa_user_id := 7; stripe_account_id := "acct_7";
            is_active := true |}.
Proof.
  intros gw.
  exact (proj1 (proj2 (proj2 (proj2
           (create_stripe_account_get_or_create empty_db gw gw 7 "acct_7"
              eq_refl eq_refl))))).
Defined.

(** X21. A user whose only connected account is deactivated cannot spend:
    the route finds no active account, account creation hands back the
    deactivated row without reactivating it, and authorization raises — so no
    spend succeeds, whatever the basket, the amount or the gateway. *)
Theorem deactivated_account_cannot_spend (app : App) (uid : UUID)
    (gw : Gateway) (fresh_id : UUID) (now : Z) (items : list ItemData)
    (requested : Z) (merchant_id : option string) (acct : StripeAccount) :
  get_stripe_account (db app) uid = None →
  head (filter (fun a => sa_user_id a = uid) (stripe_accounts (db app)))
    = Some acct →
  let out := spend_rewards app uid gw fresh_id now items requested
               merchant_id in
  (∃ e, out.1 = Err e) ∧ db out.2 = db app ∧
  (0 < requested → items ≠ [] →
   requested <= get_user_balance (db app) uid →
   (∃ charged,
      policy_gate
        (check_transaction_eligibility (category_cache app) items).1.1.1
        (check_transaction_eligibility (category_cache app) items).1.2
        requested = Ok charged) →
   out.1 = Err (ValueError "No Stripe account found for user")).
Proof.
  intros Hnone Hrow out.
  assert (Hcharge : ∀ app1 charged decision approved,
            db app1 = db app →
            let c := charge app1 uid gw fresh_id now items charged merchant_id
                       decision approved in
            (∃ e, c.1 = Err e) ∧ db c.2 = db app ∧
            (0 < charged →
             c.1 = Err (ValueError "No Stripe account found for user"))).
  { intros app1 charged decision approved Hdb. unfold charge.
    rewrite Hdb, Hnone. unfold create_stripe_account. rewrite Hrow.
    unfold authorize_transaction.
    replace (db (with_db app1 (db app))) with (db app) by reflexivity.
    rewrite Hnone.
    destruct (Z.leb_spec charged 0); cbn [fst snd db with_db].
    - split; [by eexists|]. split; [reflexivity|]. lia.
    - split; [by eexists|]. split; reflexivity. }
  subst out. rewrite spend_rewards_unfold.
  destruct (Z.leb_spec requested 0);
    [cbn [fst snd]; repeat split; [by eexists | lia]|].
  case_bool_decide;
    [cbn [fst snd]; repeat split; [by eexists | congruence]|].
  destruct (Z.ltb_spec (get_user_balance (db app) uid) requested);
    [cbn [fst snd]; repeat split; [by eexists | lia]|].
  cbv zeta.
  destruct (policy_gate _ _ requested) as [charged|e] eqn:Hgate.
  - destruct (Hcharge
                (with_cache app
                   (check_transaction_eligibility (category_cache app) items).2)
                charged
                (check_transaction_eligibility (category_cache app) items).1.1.1
                (check_transaction_eligibility (category_cache app) items).1.2
                eq_refl) as (He & Hdb & Hmsg).
    split; [exact He|]. split; [exact Hdb|]. intros Hpos _ _ _. apply Hmsg.
    revert Hpos.
    revert Hgate. clear.
    destruct (check_transaction_eligibility _ _).1.1.1;
      unfold policy_gate; try discriminate.
    + intros [= <-] ?. lia.
    + destruct (Z.ltb_spec (check_transaction_eligibility
                              (category_cache app) items).1.2 requested);
        [discriminate|]. intros Hg ?.
      enough (charged = (check_transaction_eligibility
                           (category_cache app) items).1.2) by lia.
      congruence.
  - cbn [fst snd db with_cache]. split; [by eexists|].
    split; [reflexivity|]. intros _ _ _ [charged Hc]. discriminate.
Qed.

(** X21 at the funded account with its connected account switched off. *)
Lemma deactivated_account_cannot_spend_witness :
  let app := {| db := {| transactions := [earned 1 7 1000 10];
                         stripe_accounts :=
                           [{| sa_user_id := 7; stripe_account_id := "acct_1";
                               is_active := false |}] |};
                category_cache := ∅; processed_events := ∅ |} in
  (spend_rewards app 7
     {| account_create := Some "acct_2"; payment_intent_create := Some "pi_2" |}
     2 20 [declared "dairy" 600] 500 None).1
  = Err (ValueError "No Stripe account found for user").
Proof.
  intros app.
  destruct (deactivated_account_cannot_spend app 7
              {| account_create := Some "acct_2";
                 payment_intent_create := Some "pi_2" |}
              2 20 [declared "dairy" 600] 500 None
              {| sa_user_id := 7; stripe_account_id := "acct_1";
                 is_active := false |} eq_refl eq_refl) as (_ & _ & Hmsg).
  apply Hmsg; [lia | discriminate | vm_compute; discriminate |].
  exists 500. vm_compute. reflexivity.
Defined.

(** ** The earn and redeem routes *)

Lemma earn_rewards_served (app : App) (uid fresh_id : UUID) (now : Z)
    (b : TransactionCreate) :
  tc_reason b = "earn" → 0 < tc_amount b →
  earn_rewards app uid fresh_id now b
  = (Ok (new_row fresh_id now uid (tc_amount b) "earn" (tc_stripe_ref b)
           (tc_category b) (tc_metadata b)),
     with_db app
       (append_row (db app)
          (new_row fresh_id now uid (tc_amount b) "earn" (tc_stripe_ref b)
             (tc_category b) (tc_metadata b)))).
Proof.
  intros Hr Hpos. unfold earn_rewards. rewrite Hr.
  cbn [String.eqb Ascii.eqb Bool.eqb negb].
  destruct (Z.leb_spec (tc_amount b) 0) as [Hle|_]; [lia|].
  destruct (create_transaction_cases (db app) fresh_id now uid (tc_amount b)
              "earn" (tc_stripe_ref b) (tc_category b) (tc_metadata b))
    as [(_ & _ & ->) | [(Hv & _) | (_ & Hz & _)]]; [reflexivity| |lia].
  destruct Hv. unfold valid_reason. apply (bool_decide_unpack _).
  vm_compute. exact I.
Qed.

Lemma redeem_rewards_served (app : App) (uid fresh_id : UUID) (now : Z)
    (b : TransactionCreate) :
  tc_reason b = "redeem" → 0 < tc_amount b →
  tc_amount b <= calculate_balance_from_ledger (db app) uid →
  redeem_rewards app uid fresh_id now b
  = (Ok (new_row fresh_id now uid (- tc_amount b) "redeem" (tc_stripe_ref b)
           (tc_category b) (tc_metadata b)),
     with_db app
       (append_row (db app)
          (new_row fresh_id now uid (- tc_amount b) "redeem" (tc_stripe_ref b)
             (tc_category b) (tc_metadata b)))).
Proof.
  intros Hr Hpos Hbal. unfold redeem_rewards, get_user_balance. rewrite Hr.
  cbn [String.eqb Ascii.eqb Bool.eqb negb].
  destruct (Z.leb_spec (tc_amount b) 0) as [Hle|_]; [lia|].
  destruct (Z.ltb_spec (calculate_balance_from_ledger (db app) uid)
              (tc_amount b)) as [Hlt|_]; [lia|].
  destruct (create_transaction_cases (db app) fresh_id now uid (- tc_amount b)
              "redeem" (tc_stripe_ref b) (tc_category b) (tc_metadata b))
    as [(_ & _ & ->) | [(Hv & _) | (_ & Hz & _)]]; [reflexivity| |lia].
  destruct Hv. unfold valid_reason. apply (bool_decide_unpack _).
  vm_compute. exact I.
Qed.

(** X22. The earn route.  A request whose reason is not "earn", or whose
    amount is not positive, is answered 400 and leaves the state untouched.
    A request that is served had reason "earn" and a positive amount, and
    its entry — reason "earn", the caller's account — is the one entry
    added to the ledger.  A request with reason "earn" and a positive amount
    whose values fit the table's columns is served: the entry carries the
    amount and the caller's balance rises by it. *)
Theorem earn_rewards_outcomes (app : App) (uid fresh_id : UUID) (now : Z)
    (b : TransactionCreate) :
  let out := earn_rewards app uid fresh_id now b in
  (tc_reason b ≠ "earn" ∨ tc_amount b <= 0 →
     (∃ detail, out.1 = Err (HTTPException 400 detail)) ∧ out.2 = app) ∧
  (∀ txn, out.1 = Ok txn →
     tc_reason b = "earn" ∧ 0 < tc_amount b ∧
     reason txn = "earn" ∧ user_id txn = uid ∧
     transactions (db out.2) = transactions (db app) ++ [txn]) ∧
  (tc_reason b = "earn" → 0 < tc_amount b → fits_columns b →
     ∃ txn, out.1 = Ok txn ∧ amount txn = tc_amount b ∧
            calculate_balance_from_ledger (db out.2) uid
            = calculate_balance_from_ledger (db app) uid + tc_amount b).
Proof.
  cbv zeta. split; [|split].
  - unfold earn_rewards.
    destruct (String.eqb_spec (tc_reason b) "earn") as [Hr|Hr]; cbn [negb].
    2: { intros _. cbn [fst snd]. split; [by eexists|reflexivity]. }
    destruct (Z.leb_spec (tc_amount b) 0) as [Hle|Hpos].
    + intros _. cbn [fst snd]. split; [by eexists|reflexivity].
    + intros [Hn|Hn]; [contradiction|lia].
  - intros txn.
    destruct (String.eqb_spec (tc_reason b) "earn") as [Hr|Hr].
    2: { unfold earn_rewards. destruct (String.eqb_spec (tc_reason b) "earn");
           [contradiction|]. cbn [negb fst]. discriminate. }
    destruct (Z.leb_spec (tc_amount b) 0) as [Hle|Hpos].
    { unfold earn_rewards. rewrite Hr.
      cbn [String.eqb Ascii.eqb Bool.eqb negb].
      destruct (Z.leb_spec (tc_amount b) 0); [|lia]. cbn [fst]. discriminate. }
    rewrite (earn_rewards_served app uid fresh_id now b Hr Hpos).
    cbn [fst snd db with_db]. intros [= <-]. repeat split; assumption.
  - intros Hr Hpos _.
    rewrite (earn_rewards_served app uid fresh_id now b Hr Hpos).
    cbn [fst snd db with_db]. eexists. split; [reflexivity|].
    split; [reflexivity|].
    rewrite balance_append_row. cbn [new_row amount user_id].
    by rewrite bool_decide_eq_true_2.
Qed.

(** X22 at the funded account: an earn of 2.50 is served, an earn of zero
    is refused. *)
Lemma earn_rewards_outcomes_witness :
  (∃ txn, (earn_rewards funded_app 7 2 20 (body 250 "earn")).1 = Ok txn ∧
          amount txn = 250) ∧
  (earn_rewards funded_app 7 2 20 (body 0 "earn")).2 = funded_app.
Proof.
  destruct (earn_rewards_outcomes funded_app 7 2 20 (body 250 "earn"))
    as (_ & _ & Hserved).
  destruct (earn_rewards_outcomes funded_app 7 2 20 (body 0 "earn"))
    as (Hrefused & _).
  split.
  - destruct Hserved as (txn & Hok & Ha & _).
    + reflexivity.
    + reflexivity.
    + repeat split; vm_compute; try reflexivity; lia.
    + by exists txn.
  - apply Hrefused. right. cbn. lia.
Defined.

(** X23. The redeem route.  A request whose reason is not "redeem", whose
    amount is not positive, or whose amount exceeds the caller's balance is
    answered 400 and leaves the state untouched.  A request that is served
    had reason "redeem" and a positive amount covered by the balance, and
    its entry — reason "redeem", the caller's account — is the one entry
    added to the ledger.  A request with reason "redeem" and a positive
    amount covered by the balance, whose values fit the table's columns, is
    served: the entry carries the negated amount, and the caller's balance
    falls by the amount and stays non-negative. *)
Theorem redeem_rewards_outcomes (app : App) (uid fresh_id : UUID) (now : Z)
    (b : TransactionCreate) :
  let out := redeem_rewards app uid fresh_id now b in
  (tc_reason b ≠ "redeem" ∨ tc_amount b <= 0 ∨
   calculate_balance_from_ledger (db app) uid < tc_amount b →
     (∃ detail, out.1 = Err (HTTPException 400 detail)) ∧ out.2 = app) ∧
  (∀ txn, out.1 = Ok txn →
     tc_reason b = "redeem" ∧ 0 < tc_amount b ∧
     tc_amount b <= calculate_balance_from_ledger (db app) uid ∧
     reason txn = "redeem" ∧ user_id txn = uid ∧
     transactions (db out.2) = transactions (db app) ++ [txn]) ∧
  (tc_reason b = "redeem" → 0 < tc_amount b →
   tc_amount b <= calculate_balance_from_ledger (db app) uid →
   fits_columns b →
     ∃ txn, out.1 = Ok txn ∧ amount txn = - tc_amount b ∧
            calculate_balance_from_ledger (db out.2) uid
            = calculate_balance_from_ledger (db app) uid - tc_amount b ∧
            0 <= calculate_balance_from_ledger (db out.2) uid).
Proof.
  cbv zeta.
  assert (Hrefuse :
    tc_reason b ≠ "redeem" ∨ tc_amount b <= 0 ∨
    calculate_balance_from_ledger (db app) uid < tc_amount b →
    ∃ detail, redeem_rewards app uid fresh_id now b
              = (Err (HTTPException 400 detail), app)).
  { unfold redeem_rewards, get_user_balance.
    destruct (String.eqb_spec (tc_reason b) "redeem") as [Hr|Hr]; cbn [negb];
      [|intros _; by eexists].
    destruct (Z.leb_spec (tc_amount b) 0) as [Hle|Hpos];
      [intros _; by eexists|].
    destruct (Z.ltb_spec (calculate_balance_from_ledger (db app) uid)
                (tc_amount b)) as [Hlt|Hge]; [intros _; by eexists|].
    intros [Hn|[Hn|Hn]]; [contradiction|lia..]. }
  split; [|split].
  - intros Hbad. destruct (Hrefuse Hbad) as [detail ->]. cbn [fst snd].
    split; [by eexists|reflexivity].
  - intros txn Hok.
    destruct (String.eqb_spec (tc_reason b) "redeem") as [Hr|Hr].
    2: { destruct (Hrefuse (or_introl Hr)) as [detail E]. rewrite E in Hok.
         discriminate. }
    destruct (Z.leb_spec (tc_amount b) 0) as [Hle|Hpos].
    { destruct (Hrefuse (or_intror (or_introl Hle))) as [detail E].
      rewrite E in Hok. discriminate. }
    destruct (Z.ltb_spec (calculate_balance_from_ledger (db app) uid)
                (tc_amount b)) as [Hlt|Hge].
    { destruct (Hrefuse (or_intror (or_intror Hlt))) as [detail E].
      rewrite E in Hok. discriminate. }
    revert Hok.
    rewrite (redeem_rewards_served app uid fresh_id now b Hr Hpos Hge).
    cbn [fst snd db with_db]. intros [= <-]. repeat split; assumption.
  - intros Hr Hpos Hge _.
    rewrite (redeem_rewards_served app uid fresh_id now b Hr Hpos Hge).
    cbn [fst snd db with_db]. eexists. split; [reflexivity|].
    split; [reflexivity|].
    rewrite balance_append_row. cbn [new_row amount user_id].
    rewrite bool_decide_eq_true_2 by reflexivity. lia.
Qed.

(** X23 at the funded account, which holds 10.00: a redemption of 4.00 is
    served, one of 10.01 is refused. *)
Lemma redeem_rewards_outcomes_witness :
  (∃ txn, (redeem_rewards funded_app 7 2 20 (body 400 "redeem")).1 = Ok txn ∧
          amount txn = -400) ∧
  (redeem_rewards funded_app 7 2 20 (body 1001 "redeem")).2 = funded_app.
Proof.
  destruct (redeem_rewards_outcomes funded_app 7 2 20 (body 400 "redeem"))
    as (_ & _ & Hserved).
  destruct (redeem_rewards_outcomes funded_app 7 2 20 (body 1001 "redeem"))
    as (Hrefused & _).
  split.
  - destruct Hserved as (txn & Hok & Ha & _).
    + reflexivity.
    + reflexivity.
    + vm_compute. discriminate.
    + repeat split; vm_compute; try reflexivity; lia.
    + by exists txn.
  - apply Hrefused. right. right. vm_compute. reflexivity.
Defined.

(** X24. What was earned can be redeemed: after a served earn of a storable
    amount (whole hundredths, below [10 ^ 10]) by a request with only the
    mandatory fields, a redeem of the same amount by the same user is
    served as well, provided the balance was not negative before, and
    brings the balance back to what it was. *)
Theorem earn_then_redeem_restores_balance (app : App) (uid id1 id2 : UUID)
    (now1 now2 : Z) (amt : Z) (txn : Transaction) (app1 : App) :
  storable amt →
  earn_rewards app uid id1 now1 (body amt "earn") = (Ok txn, app1) →
  0 <= calculate_balance_from_ledger (db app) uid →
  ∃ txn2 app2,
    redeem_rewards app1 uid id2 now2 (body amt "redeem") = (Ok txn2, app2) ∧
    amount txn = amt ∧ amount txn2 = - amt ∧
    calculate_balance_from_ledger (db app1) uid
    = calculate_balance_from_ledger (db app) uid + amt ∧
    calculate_balance_from_ledger (db app2) uid
    = calculate_balance_from_ledger (db app) uid.
Proof.
  intros _ Hearn Hbal.
  assert (Hpos : 0 < amt).
  { revert Hearn. unfold earn_rewards. cbn [body tc_reason tc_amount].
    cbn [String.eqb Ascii.eqb Bool.eqb negb].
    destruct (Z.leb_spec amt 0); [discriminate|]. intros _. assumption. }
  rewrite (earn_rewards_served app uid id1 now1 (body amt "earn") eq_refl Hpos)
    in Hearn.
  injection Hearn as <- <-. cbn [body tc_amount tc_stripe_ref tc_category
                                  tc_metadata].
  assert (Hb1 : calculate_balance_from_ledger
                  (db (with_db app
                         (append_row (db app)
                            (new_row id1 now1 uid amt "earn" None None []))))
                  uid
                = calculate_balance_from_ledger (db app) uid + amt).
  { cbn [db with_db]. rewrite balance_append_row. cbn [new_row amount user_id].
    by rewrite bool_decide_eq_true_2. }
  eexists _, _.
  rewrite (redeem_rewards_served _ uid id2 now2 (body amt "redeem") eq_refl
             Hpos); [|cbn [body tc_amount]; rewrite Hb1; lia].
  split; [reflexivity|]. split; [reflexivity|]. split; [reflexivity|].
  split; [exact Hb1|].
  cbn [db with_db body tc_amount tc_stripe_ref tc_category tc_metadata] in *.
  rewrite balance_append_row. cbn [new_row amount user_id].
  rewrite bool_decide_eq_true_2 by reflexivity. rewrite Hb1. lia.
Qed.

(** X24 at the funded account: earn 2.50, redeem 2.50. *)
Lemma earn_then_redeem_restores_balance_witness :
  ∃ txn2 app2,
    redeem_rewards (earn_rewards funded_app 7 2 20 (body 250 "earn")).2
      7 3 30 (body 250 "redeem") = (Ok txn2, app2) ∧
    calculate_balance_from_ledger (db app2) 7
    = calculate_balance_from_ledger (db funded_app) 7.
Proof.
  destruct (earn_then_redeem_restores_balance funded_app 7 2 3 20 30 250
              _ _ ltac:(split; [discriminate | reflexivity]) eq_refl
              ltac:(vm_compute; discriminate))
    as (txn2 & app2 & Hr & _ & _ & _ & Hb).
  exists txn2, app2. split; [exact Hr | exact Hb].
Defined.

(** ** Token verification *)

Import JwtVerifier.

(** X25. [verify_jwt] returns claims only when a key is configured, the token
    decodes, and the claims contain [user_id] — and then returns exactly the
    decoded claims.  Every failure is an HTTP error with status 401 or 500;
    it is a 401 exactly when a key is configured and decoding raised an
    expired-signature or invalid-token error.  A token that decodes but
    lacks [user_id] is answered 500 "Token verification failed": the 401
    raised for it inside the [try] is caught by the generic handler. *)
Theorem verify_jwt_outcomes (JWT_PUBLIC_KEY : string) (decode : Decode) :
  (∀ payload, verify_jwt JWT_PUBLIC_KEY decode = Ok payload ↔
     JWT_PUBLIC_KEY ≠ "" ∧ decode = Claims payload ∧ "user_id" ∈ dom payload) ∧
  (∀ e, verify_jwt JWT_PUBLIC_KEY decode = Err e →
     ∃ status detail, e = HTTPException status detail ∧
       (status = 401 ∨ status = 500) ∧
       (status = 401 ↔
        JWT_PUBLIC_KEY ≠ "" ∧
        (decode = DecodeRaises ExpiredSignatureError ∨
         decode = DecodeRaises InvalidTokenError))) ∧
  (∀ payload, JWT_PUBLIC_KEY ≠ "" → decode = Claims payload →
     "user_id" ∉ dom payload →
     verify_jwt JWT_PUBLIC_KEY decode
     = Err (HTTPException 500 "Token verification failed")).
Proof.
  unfold verify_jwt, try_body.
  destruct (String.eqb_spec JWT_PUBLIC_KEY "") as [Hk|Hk].
  { split; [|split].
    - intros payload. split; [discriminate|]. tauto.
    - intros e [= <-]. eexists _, _. split; [reflexivity|].
      split; [by right|]. split; [discriminate|]. tauto.
    - tauto. }
  destruct decode as [payload0|[]].
  - case_bool_decide as Hin; split; [| split | | split].
    + intros payload. split.
      * by intros [= <-].
      * by intros (_ & [= <-] & _).
    + discriminate.
    + intros payload _ [= <-] Hn. contradiction.
    + intros payload. split; [discriminate|].
      intros (_ & [= <-] & H). contradiction.
    + intros e [= <-]. eexists _, _. split; [reflexivity|].
      split; [by right|]. split; [discriminate|].
      intros (_ & [? | ?]); discriminate.
    + reflexivity.
  - split; [|split].
    + intros payload. split; [discriminate|]. by intros (_ & ? & _).
    + intros e [= <-]. eexists _, _. split; [reflexivity|].
      split; [by left|]. split; [|reflexivity]. intros _. split; [done|by left].
    + discriminate.
  - split; [|split].
    + intros payload. split; [discriminate|]. by intros (_ & ? & _).
    + intros e [= <-]. eexists _, _. split; [reflexivity|].
      split; [by left|]. split; [|reflexivity]. intros _. split; [done|by right].
    + discriminate.
  - split; [|split].
    + intros payload. split; [discriminate|]. by intros (_ & ? & _).
    + intros e [= <-]. eexists _, _. split; [reflexivity|].
      split; [by right|]. split; [discriminate|].
      intros (_ & [? | ?]); discriminate.
    + discriminate.
  - split; [|split].
    + intros payload. split; [discriminate|]. by intros (_ & ? & _).
    + intros e [= <-]. eexists _, _. split; [reflexivity|].
      split; [by right|]. split; [discriminate|].
      intros (_ & [? | ?]); discriminate.
    + discriminate.
Qed.

(** X25 at a token whose claims carry only a subject. *)
Lemma verify_jwt_outcomes_witness :
  verify_jwt "pem" (Claims {["sub" := JStr "alice"]})
  = Err (HTTPException 500 "Token verification failed").
Proof.
  destruct (verify_jwt_outcomes "pem" (Claims {["sub" := JStr "alice"]}))
    as (_ & _ & Hmissing).
  apply (Hmissing {["sub" := JStr "alice"]}); [discriminate | reflexivity |].
  apply (bool_decide_unpack _). vm_compute. exact I.
Defined.

(** ** User resolution and the read endpoints *)

Import Accounts.

(** X26. Resolving a principal is get-or-create: the returned user carries
    the principal as its external id and is stored; the rows present before
    are kept in place; resolving the same principal again returns the same
    user and adds nothing, whatever primary key would have been drawn; and
    external ids stay pairwise distinct if they were. *)
Theorem get_user_from_db_get_or_create
    (users : list User) (fresh_id : UUID) (principal : UUID) :
  let r := get_user_from_db users fresh_id principal in
  external_core_id r.1 = principal ∧ r.1 ∈ r.2 ∧
  (∃ new, r.2 = users ++ new ∧ (length new ≤ 1)%nat) ∧
  (∀ fresh_id', get_user_from_db r.2 fresh_id' principal = r) ∧
  (NoDup (external_core_id <$> users) → NoDup (external_core_id <$> r.2)).
Proof.
  cbv zeta. unfold get_user_from_db.
  destruct (head (filter (fun u => external_core_id u = principal) users))
    as [user|] eqn:Hh; cbn [fst snd].
  - assert (Hin : user ∈ filter (fun u => external_core_id u = principal) users)
      by by apply head_Some_elem_of.
    apply list_elem_of_filter in Hin as [Hext Hin].
    split; [exact Hext|]. split; [exact Hin|].
    split; [exists []; split; [by rewrite app_nil_r | cbn; lia]|].
    split; [|done]. intros fresh_id'. by rewrite Hh.
  - assert (Hnone : filter (fun u => external_core_id u = principal) users = [])
      by by destruct (filter _ users).
    split; [reflexivity|].
    split; [apply elem_of_app; right; apply list_elem_of_here|].
    split; [eexists; split; [reflexivity | cbn; lia]|].
    split.
    + intros fresh_id'. rewrite filter_app, Hnone, filter_cons, filter_nil.
      cbn [external_core_id]. by rewrite decide_True.
    + intros Hnd. rewrite fmap_app. apply NoDup_app. split; [exact Hnd|].
      split; [|apply NoDup_singleton].
      intros x Hx Hx'. cbn in Hx'. apply list_elem_of_singleton in Hx'.
      subst x. apply list_elem_of_fmap in Hx as (u & Hu & Huin).
      eapply (filter_nil_not_elem_of _ _ u Hnone); [by symmetry|exact Huin].
Qed.

(** X26 at an empty user table, resolved twice with different keys drawn. *)
Lemma get_user_from_db_get_or_create_witness :
  get_user_from_db (get_user_from_db [] 11 7).2 12 7
  = ({| u_user_id := 11; external_core_id := 7 |},
     [{| u_user_id := 11; external_core_id := 7 |}]).
Proof.
  destruct (get_user_from_db_get_or_create [] 11 7) as (_ & _ & _ & Hagain & _).
  rewrite Hagain. reflexivity.
Defined.

(** X27. The [total] of a history response is the size of the returned page,
    not of the history: it is the smaller of the limit and the number of the
    user's entries left after the offset; and the read endpoints never
    change the ledger, they can only add the caller's user row. *)
Theorem get_transactions_total (users : list User) (app : App)
    (fresh_id principal : UUID) (limit offset : nat) :
  let r := get_transactions users app fresh_id principal limit offset in
  let user := (get_user_from_db users fresh_id principal).1 in
  let entries :=
    length (filter (fun t => user_id t = u_user_id user) (transactions (db app))) in
  h_total r.1 = length (h_transactions r.1) ∧
  h_total r.1 = (limit `min` (entries - offset))%nat ∧
  h_transactions r.1
  = get_transaction_history (db app) (u_user_id user) limit offset ∧
  r.2 = (get_user_from_db users fresh_id principal).2 ∧
  (get_balance users app fresh_id principal).2 = r.2 ∧
  b_balance (get_balance users app fresh_id principal).1
  = calculate_balance_from_ledger (db app) (u_user_id user).
Proof.
  cbv zeta. unfold get_transactions, get_balance, get_user_balance.
  destruct (get_user_from_db users fresh_id principal) as [user users'].
  cbn [fst snd h_total h_transactions b_balance].
  repeat split.
  unfold get_transaction_history.
  rewrite length_take, length_drop.
  by rewrite (Permutation_length (order_by_Permutation _)).
Qed.

(** ** The two gateway calls *)

(** X28. [authorize_transaction] and [update_stripe_balance] refuse the same
    requests with a [ValueError] — a non-positive amount, or a user without
    an active connected account — but treat a gateway failure differently:
    authorization reports it as [(False, None)] and never raises anything
    but a [ValueError], the balance update raises. *)
Theorem gateway_calls_guards (db0 : Session) (gw : Gateway)
    (transfer_create : option string) (uid : UUID) (amt : Z) :
  ((∃ msg, authorize_transaction db0 gw uid amt = Err (ValueError msg))
   ↔ amt <= 0 ∨ get_stripe_account db0 uid = None) ∧
  ((∃ msg, update_stripe_balance db0 transfer_create uid amt
           = Err (ValueError msg))
   ↔ amt <= 0 ∨ get_stripe_account db0 uid = None) ∧
  (∀ e, authorize_transaction db0 gw uid amt = Err e → ∃ msg, e = ValueError msg) ∧
  (0 < amt → get_stripe_account db0 uid ≠ None →
   authorize_transaction db0 gw uid amt
   = Ok (match payment_intent_create gw with
         | Some id => (true, Some id)
         | None => (false, None)
         end) ∧
   update_stripe_balance db0 transfer_create uid amt
   = match transfer_create with
     | Some id => Ok id
     | None => Err (Exception "Failed to update Stripe balance")
     end).
Proof.
  unfold authorize_transaction, update_stripe_balance.
  destruct (Z.leb_spec amt 0) as [Hle|Hpos].
  { split; [|split; [|split]].
    - split; [by left | intros _; by eexists].
    - split; [by left | intros _; by eexists].
    - intros e [= <-]. by eexists.
    - intros. lia. }
  destruct (get_stripe_account db0 uid) as [acct|].
  - split; [|split; [|split]].
    + split; [|intros [?|?]; [lia|discriminate]].
      intros [msg H]. destruct (payment_intent_create gw); discriminate.
    + split; [|intros [?|?]; [lia|discriminate]].
      intros [msg H]. destruct transfer_create; discriminate.
    + intros e H. destruct (payment_intent_create gw); discriminate.
    + intros _ _. split; [|reflexivity].
      by destruct (payment_intent_create gw).
  - split; [|split; [|split]].
    + split; [by right | intros _; by eexists].
    + split; [by right | intros _; by eexists].
    + intros e [= <-]. by eexists.
    + intros _ Hn. by destruct Hn.
Qed.

(** X28 at the funded account and a gateway that is down. *)
Lemma gateway_calls_guards_witness :
  authorize_transaction (db funded_app)
    {| account_create := None; payment_intent_create := None |} 7 500
  = Ok (false, None) ∧
  update_stripe_balance (db funded_app) None 7 500
  = Err (Exception "Failed to update Stripe balance").
Proof.
  destruct (gateway_calls_guards (db funded_app)
              {| account_create := None; payment_intent_create := None |}
              None 7 500) as (_ & _ & _ & Hgo).
  apply Hgo; [lia | vm_compute; discriminate].
Defined.
